(** * Figmaker: panel layout and compositing engine

    A shallow embedding of the layout arithmetic of
    [figmaker/plots/image_panel.py] (class [ImagePanelAssembler]) and of
    [figmaker/layout.py] ([_get_label_text], [create_legacy_layout]),
    together with the properties of the composite canvas they produce.

    Python [int] is [Z]; Python [float] is IEEE 754 binary64, taken from
    the standard library's [SpecFloat]; exceptions are an error monad. *)

From Stdlib Require Import ZArith List Bool String Ascii Lia.
From Stdlib Require Import SpecFloat.
From Stdlib Require Import DecimalString DecimalZ.
Import ListNotations.

Local Open Scope Z_scope.

(** ** Python values and exceptions *)

Module Py.

(** The exception classes the modelled code can raise, by itself or through
    the interpreter and the imaging library. *)
Inductive exn : Type :=
| ValueError (msg : string)
| ZeroDivisionError
| OverflowError
| IndexError.

Inductive result (A : Type) : Type :=
| Ok (a : A)
| Raise (e : exn).

Arguments Ok {A} a.
Arguments Raise {A} e.

Definition bind {A B : Type} (m : result A) (k : A -> result B) : result B :=
  match m with
  | Ok a => k a
  | Raise e => Raise e
  end.

Definition is_ok {A : Type} (m : result A) : bool :=
  match m with Ok _ => true | Raise _ => false end.

(** [a // b] and [a % b] on Python ints: floor division, the remainder
    takes the sign of the divisor, a zero divisor raises. *)
Definition floordiv (a b : Z) : result Z :=
  if b =? 0 then Raise ZeroDivisionError else Ok (a / b).

Definition mod_ (a b : Z) : result Z :=
  if b =? 0 then Raise ZeroDivisionError else Ok (a mod b).

(** [l[k]]: a negative index counts from the end, an index out of range
    raises [IndexError]. *)
Definition getitem {A : Type} (l : list A) (k : Z) : result A :=
  let n := Z.of_nat (List.length l) in
  let k' := if k <? 0 then k + n else k in
  if (k' <? 0) || (n <=? k') then Raise IndexError
  else match nth_error l (Z.to_nat k') with
       | Some a => Ok a
       | None => Raise IndexError
       end.

(** [sum(l)] and [max(a, b)] on ints. *)
Definition sum (l : list Z) : Z := fold_left Z.add l 0.

(** [str(n)] on an int: its decimal numeral. *)
Definition str (n : Z) : string := NilZero.string_of_int (Z.to_int n).

(** [chr(n)]: the one-character string of code point [n].  A Python [str]
    is modelled by its UTF-8 bytes; [chr] raises outside [0, 0x10FFFF]. *)
Definition byte (n : Z) : ascii := ascii_of_N (Z.to_N n).

Definition utf8 (n : Z) : string :=
  if n <? 128 then String (byte n) EmptyString
  else if n <? 2048 then
    String (byte (192 + n / 64)) (String (byte (128 + n mod 64)) EmptyString)
  else if n <? 65536 then
    String (byte (224 + n / 4096))
      (String (byte (128 + (n / 64) mod 64))
         (String (byte (128 + n mod 64)) EmptyString))
  else
    String (byte (240 + n / 262144))
      (String (byte (128 + (n / 4096) mod 64))
         (String (byte (128 + (n / 64) mod 64))
            (String (byte (128 + n mod 64)) EmptyString))).

Definition chr (n : Z) : result string :=
  if (n <? 0) || (1114111 <? n)
  then Raise (ValueError "chr() arg not in range(0x110000)")
  else Ok (utf8 n).

End Py.

Import Py.

Notation "x <- m ;; k" := (Py.bind m (fun x => k))
  (at level 61, m at next level, right associativity).

(** ** Python floats: IEEE 754 binary64 *)

Module PyFloat.

Definition prec : Z := 53.
Definition emax : Z := 1024.

Definition float : Type := spec_float.

(** [float(n)] for an int: the nearest double, ties to even; an int beyond
    the range of doubles raises [OverflowError]. *)
Definition of_int (n : Z) : result float :=
  match binary_normalize prec emax n 0 false with
  | S754_infinity _ => Raise OverflowError
  | f => Ok f
  end.

(** [x * y] on floats. *)
Definition mul (x y : float) : float := SFmul prec emax x y.

(** [a / b] on ints (true division): the correctly rounded quotient;
    a zero divisor raises [ZeroDivisionError], a quotient beyond the range
    of doubles raises [OverflowError]. *)
Definition truediv (a b : Z) : result float :=
  if b =? 0 then Raise ZeroDivisionError
  else if a =? 0 then Ok (S754_zero (b <? 0))
  else
    let '(q, e, l) := SFdiv_core_binary prec emax (Z.abs a) 0 (Z.abs b) 0 in
    match binary_round_aux prec emax (xorb (a <? 0) (b <? 0)) q e l with
    | S754_infinity _ => Raise OverflowError
    | f => Ok f
    end.

(** [int(x)]: truncation toward zero; infinities and NaN raise. *)
Definition to_int (x : float) : result Z :=
  match x with
  | S754_zero _ => Ok 0
  | S754_infinity _ => Raise OverflowError
  | S754_nan => Raise (ValueError "cannot convert float NaN to integer")
  | S754_finite s m e =>
      let a := match e with
               | Z0 => Zpos m
               | Zpos p => Zpos m * 2 ^ e
               | Zneg p => Zpos m / 2 ^ (- e)
               end in
      Ok (if s then - a else a)
  end.

(** [x * n] with a float and an int: the int is converted first. *)
Definition mul_int (x : float) (n : Z) : result float :=
  y <- of_int n ;; Ok (mul x y).

Definition int_mul (n : Z) (x : float) : result float :=
  y <- of_int n ;; Ok (mul y x).

(** The literals [0.3] and [0.1]: the doubles nearest to 3/10 and 1/10. *)
Definition lit_0_3 : float := S754_finite false 5404319552844595 (-54).
Definition lit_0_1 : float := S754_finite false 7205759403792794 (-56).

End PyFloat.

(** ** The imaging library (PIL)

    An image is its mode, its size and its raster.  The raster is kept
    symbolically, as the expression of the library calls that produced it:
    resampling and text rendering are the library's business, the geometry
    passed to them is the program's. *)

Module PIL.

Definition color : Type := list Z.

Inductive font : Type :=
| LoadDefault
| TrueType (family : string) (size_px : Z).

Inductive pixels : Type :=
| Blank (fill : color)
| Source (id : Z)
| Resample (src : pixels) (w h : Z)
| Convert (src : pixels) (mode : string)
| Paste (dst src : pixels) (w h : Z) (x y : Z) (mask : bool)
| LabelBox (dst : pixels) (x y : Z) (text : string) (f : font) (pad : Z)
| Text (dst : pixels) (x y : Z) (text : string) (f : font).

Record image : Type := mkImage {
  mode : string;
  width : Z;
  height : Z;
  raster : pixels
}.

(** [Image.new(mode, (w, h), fill)]: a negative side is rejected. *)
Definition new (m : string) (w h : Z) (fill : color) : result image :=
  if (w <? 0) || (h <? 0)
  then Raise (ValueError "Width and height must be >= 0")
  else Ok (mkImage m w h (Blank fill)).

(** [img.resize((w, h), LANCZOS)]: the same size gives a copy, a side below
    one pixel is rejected. *)
Definition resize (img : image) (w h : Z) : result image :=
  if (width img =? w) && (height img =? h) then Ok img
  else if (w <? 1) || (h <? 1)
  then Raise (ValueError "height and width must be > 0")
  else Ok (mkImage (mode img) w h (Resample (raster img) w h)).

(** [img.convert(mode)]. *)
Definition convert (img : image) (m : string) : image :=
  mkImage m (width img) (height img) (Convert (raster img) m).

(** [dst.paste(src, (x, y))] and [dst.paste(src, (x, y), src)]: the part of
    [src] outside [dst] is clipped. *)
Definition paste (dst src : image) (x y : Z) (mask : bool) : image :=
  mkImage (mode dst) (width dst) (height dst)
    (Paste (raster dst) (raster src) (width src) (height src) x y mask).

(** [draw.rectangle(bbox of the text grown by pad, fill white, outline
    black)] followed by nothing else; the box depends on the font's metrics. *)
Definition label_box (dst : image) (x y : Z) (t : string) (f : font) (pad : Z)
  : image :=
  mkImage (mode dst) (width dst) (height dst) (LabelBox (raster dst) x y t f pad).

(** [draw.text((x, y), text, fill black, font)]. *)
Definition text (dst : image) (x y : Z) (t : string) (f : font) : image :=
  mkImage (mode dst) (width dst) (height dst) (Text (raster dst) x y t f).

End PIL.

(** ** figmaker/plots/image_panel.py: class ImagePanelAssembler *)

Record panel : Type := mkPanel {
  pil_image : PIL.image;
  name : string;
  original_path : string
}.

Record layout : Type := mkLayout {
  l_width : Z;
  l_height : Z;
  l_image : PIL.image
}.

Record annotation : Type := mkAnnotation {
  a_text : string;
  a_x : Z;
  a_y : Z
}.

Module ImagePanelAssembler.

(** [_get_background_color]: [None] stands for transparent; an unknown
    name falls back to white. *)
Definition _get_background_color (background : string) : option PIL.color :=
  if String.eqb background "white" then Some [255; 255; 255]
  else if String.eqb background "light_gray" then Some [245; 245; 245]
  else if String.eqb background "transparent" then None
  else Some [255; 255; 255].

Definition roman_numerals : list string :=
  ["i"; "ii"; "iii"; "iv"; "v"; "vi"; "vii"; "viii"; "ix"; "x"]%string.

(** [_get_label_text]. *)
Definition _get_label_text (label_style : string) (panel_index : Z)
  : result string :=
  if String.eqb label_style "A, B, C..." then Py.chr (65 + panel_index)
  else if String.eqb label_style "a, b, c..." then Py.chr (97 + panel_index)
  else if String.eqb label_style "1, 2, 3..." then Ok (Py.str (panel_index + 1))
  else if String.eqb label_style "i, ii, iii..." then
    if panel_index <? Z.of_nat (List.length roman_numerals)
    then Py.getitem roman_numerals panel_index
    else Ok (Py.str (panel_index + 1))
  else Py.chr (65 + panel_index).

(** [int((points / 72) * dpi)]: points to pixels, truncating. *)
Definition points_to_px (points dpi : Z) : result Z :=
  q <- PyFloat.truediv points 72 ;;
  p <- PyFloat.mul_int q dpi ;;
  PyFloat.to_int p.

(** [_get_label_font]: every exception inside is caught and answered with
    the default font; which font file loads is the file system's matter. *)
Definition _get_label_font (font_family : string) (font_size_pt dpi : Z)
  : PIL.font :=
  match points_to_px font_size_pt dpi with
  | Raise _ => PIL.LoadDefault
  | Ok font_size_px =>
      if String.eqb font_family "Default" then PIL.LoadDefault
      else PIL.TrueType font_family font_size_px
  end.

(** [int(padding_px * c)] for a float literal [c]. *)
Definition scaled_padding (padding_px : Z) (c : PyFloat.float) : result Z :=
  p <- PyFloat.int_mul padding_px c ;; PyFloat.to_int p.

(** [_add_panel_label]. *)
Definition _add_panel_label (draw : PIL.image) (panel_index x y dpi padding_px : Z)
    (label_style font_family : string) (label_font_size : Z)
  : result PIL.image :=
  if String.eqb label_style "None" then Ok draw
  else
    label_text <- _get_label_text label_style panel_index ;;
    let font := _get_label_font font_family label_font_size dpi in
    dx <- scaled_padding padding_px PyFloat.lit_0_3 ;;
    let text_pos_x := x + dx in
    dy <- scaled_padding padding_px PyFloat.lit_0_3 ;;
    let text_pos_y := y + dy in
    bg_padding <- scaled_padding padding_px PyFloat.lit_0_1 ;;
    let draw := PIL.label_box draw text_pos_x text_pos_y label_text font bg_padding in
    Ok (PIL.text draw text_pos_x text_pos_y label_text font).


(** The unit conversions and the column width ([assemble_figure], "Convert
    units to pixels" and "Calculate layout"; the same lines open
    [create_legacy_layout]): total width, padding, margin and column width,
    in pixels. *)
Definition pixel_geometry (target_width_in : PyFloat.float)
    (dpi num_cols padding_pt margin_pt : Z) : result (Z * Z * Z * Z) :=
  w <- PyFloat.mul_int target_width_in dpi ;;
  total_width_px <- PyFloat.to_int w ;;
  padding_px <- points_to_px padding_pt dpi ;;
  margin_px <- points_to_px margin_pt dpi ;;
  let available_width := total_width_px - 2 * margin_px in
  col_width_px <-
    Py.floordiv (available_width - padding_px * (num_cols - 1)) num_cols ;;
  Ok (total_width_px, padding_px, margin_px, col_width_px).

(** [scale = col_width_px / img.width; scaled_h = int(img.height * scale)]. *)
Definition scaled_height (col_width_px : Z) (img : PIL.image) : result Z :=
  scale <- PyFloat.truediv col_width_px (PIL.width img) ;;
  h <- PyFloat.int_mul (PIL.height img) scale ;;
  PyFloat.to_int h.

(** The loop "Calculate panel layouts and row heights": [i] is the index of
    the head of [panels], [n] is [len(self.panels)]. *)
Fixpoint scale_panels (col_width_px num_cols n : Z) (panels : list panel)
    (i : Z) (layouts : list layout) (row_heights : list Z)
    (current_row_max_h : Z) : result (list layout * list Z) :=
  match panels with
  | [] => Ok (layouts, row_heights)
  | panel_data :: rest =>
      let img := pil_image panel_data in
      scaled_h <- scaled_height col_width_px img ;;
      let scaled_w := col_width_px in
      let layouts := layouts ++ [mkLayout scaled_w scaled_h img] in
      let current_row_max_h := Z.max current_row_max_h scaled_h in
      r <- Py.mod_ (i + 1) num_cols ;;
      if (r =? 0) || (i + 1 =? n)
      then scale_panels col_width_px num_cols n rest (i + 1) layouts
             (row_heights ++ [current_row_max_h]) 0
      else scale_panels col_width_px num_cols n rest (i + 1) layouts
             row_heights current_row_max_h
  end.

(** The loop "Position and paste panels". *)
Fixpoint place_panels (dpi num_cols padding_px margin_px col_width_px : Z)
    (label_style font_family : string) (label_font_size : Z)
    (row_heights : list Z) (layouts : list layout) (i : Z)
    (row_start_y : Z) (assembled_image : PIL.image) : result PIL.image :=
  match layouts with
  | [] => Ok assembled_image
  | layout :: rest =>
      col_idx <- Py.mod_ i num_cols ;;
      row_start_y <-
        (if (col_idx =? 0) && (0 <? i) then
           row_idx <- Py.floordiv i num_cols ;;
           h <- Py.getitem row_heights (row_idx - 1) ;;
           Ok (row_start_y + (h + padding_px))
         else Ok row_start_y) ;;
      let current_x := margin_px + col_idx * (col_width_px + padding_px) in
      resized_img <-
        PIL.resize (l_image layout) (l_width layout) (l_height layout) ;;
      let rgba := String.eqb (PIL.mode assembled_image) "RGBA" in
      let resized_img :=
        if rgba && negb (String.eqb (PIL.mode resized_img) "RGBA")
        then PIL.convert resized_img "RGBA" else resized_img in
      let assembled_image :=
        PIL.paste assembled_image resized_img current_x row_start_y rgba in
      assembled_image <-
        _add_panel_label assembled_image i current_x row_start_y dpi
          padding_px label_style font_family label_font_size ;;
      place_panels dpi num_cols padding_px margin_px col_width_px
        label_style font_family label_font_size row_heights rest (i + 1)
        row_start_y assembled_image
  end.

(** [assemble_figure]. *)
Definition assemble_figure (panels : list panel)
    (target_width_in : PyFloat.float)
    (dpi num_cols padding_pt margin_pt : Z)
    (background label_style font_family : string) (label_font_size : Z)
  : result PIL.image :=
  match panels with
  | [] => Raise (ValueError "No panels to assemble")
  | _ :: _ =>
      g <- pixel_geometry target_width_in dpi num_cols padding_pt margin_pt ;;
      let '(total_width_px, padding_px, margin_px, col_width_px) := g in
      lr <- scale_panels col_width_px num_cols (Z.of_nat (List.length panels))
              panels 0 [] [] 0 ;;
      let '(layouts, row_heights) := lr in
      let content_height :=
        Py.sum row_heights
        + padding_px * (Z.of_nat (List.length row_heights) - 1) in
      let total_height_px := content_height + 2 * margin_px in
      let bg_color := _get_background_color background in
      let '(mode, bg_fill) :=
        match bg_color with
        | None => ("RGBA"%string, [255; 255; 255; 0])
        | Some c => ("RGB"%string, c)
        end in
      assembled_image <- PIL.new mode total_width_px total_height_px bg_fill ;;
      place_panels dpi num_cols padding_px margin_px col_width_px
        label_style font_family label_font_size row_heights layouts 0
        margin_px assembled_image
  end.

(** [apply_annotations] works on image objects: the store maps an object
    identity to the image it holds. *)
Definition store : Type := list PIL.image.

Definition ref : Type := nat.

Definition deref (s : store) (r : ref) : option PIL.image := nth_error s r.

(** [image.copy()]: a fresh object with the same contents. *)
Definition copy (s : store) (r : ref) : option (store * ref) :=
  match deref s r with
  | Some img => Some (s ++ [img], List.length s)
  | None => None
  end.

Fixpoint update (s : store) (r : ref) (img : PIL.image) : store :=
  match s, r with
  | [], _ => []
  | _ :: t, O => img :: t
  | x :: t, S r' => x :: update t r' img
  end.

(** [draw.text(...)] on the object [r], in place. *)
Definition draw_text (s : store) (r : ref) (f : PIL.font) (anno : annotation)
  : store :=
  match deref s r with
  | Some img => update s r (PIL.text img (a_x anno) (a_y anno) (a_text anno) f)
  | None => s
  end.

Definition _get_annotation_font := _get_label_font.

(** [apply_annotations]: the object handed in is returned as it is when
    there is no annotation, otherwise the texts are drawn on a copy. *)
Definition apply_annotations (annotations : list annotation) (s : store)
    (image : ref) (font_family : string) (font_size_pt dpi : Z)
  : option (store * ref) :=
  match annotations with
  | [] => Some (s, image)
  | _ :: _ =>
      match copy s image with
      | None => None
      | Some (s, annotated) =>
          let font := _get_annotation_font font_family font_size_pt dpi in
          Some (fold_left (fun s anno => draw_text s annotated font anno)
                  annotations s, annotated)
      end
  end.

End ImagePanelAssembler.

(** ** figmaker/layout.py *)

Module Layout.

Definition roman_numerals : list string :=
  ["i"; "ii"; "iii"; "iv"; "v"; "vi"; "vii"; "viii"; "ix"; "x"]%string.

(** [_get_label_text]. *)
Definition _get_label_text (label_style : string) (panel_index : Z)
  : result string :=
  if String.eqb label_style "A, B, C..." then Py.chr (65 + panel_index)
  else if String.eqb label_style "a, b, c..." then Py.chr (97 + panel_index)
  else if String.eqb label_style "1, 2, 3..." then Ok (Py.str (panel_index + 1))
  else if String.eqb label_style "i, ii, iii..." then
    if panel_index <? Z.of_nat (List.length roman_numerals)
    then Py.getitem roman_numerals panel_index
    else Ok (Py.str (panel_index + 1))
  else Py.chr (65 + panel_index).

Record legacy_layout : Type := mkLegacy {
  width : Z;
  height : Z;
  image : PIL.image;
  x : Z;
  row : Z;
  col : Z;
  y : option Z
}.

(** The first loop of [create_legacy_layout]. *)
Fixpoint legacy_scale (col_width_px num_cols padding_px margin_px n : Z)
    (panels : list panel) (i : Z) (layouts : list legacy_layout)
    (row_heights : list Z) (current_row_max_h : Z)
  : result (list legacy_layout * list Z) :=
  match panels with
  | [] => Ok (layouts, row_heights)
  | panel_data :: rest =>
      let img := pil_image panel_data in
      scaled_h <- ImagePanelAssembler.scaled_height col_width_px img ;;
      let scaled_w := col_width_px in
      row <- Py.floordiv i num_cols ;;
      col <- Py.mod_ i num_cols ;;
      let x := margin_px + col * (col_width_px + padding_px) in
      let layouts :=
        layouts ++ [mkLegacy scaled_w scaled_h img x row col None] in
      let current_row_max_h := Z.max current_row_max_h scaled_h in
      r <- Py.mod_ (i + 1) num_cols ;;
      if (r =? 0) || (i + 1 =? n)
      then legacy_scale col_width_px num_cols padding_px margin_px n rest
             (i + 1) layouts (row_heights ++ [current_row_max_h]) 0
      else legacy_scale col_width_px num_cols padding_px margin_px n rest
             (i + 1) layouts row_heights current_row_max_h
  end.

(** The loop "Add y positions to layouts". *)
Fixpoint legacy_place (num_cols padding_px : Z) (row_heights : list Z)
    (layouts : list legacy_layout) (i : Z) (current_y : Z)
  : result (list legacy_layout) :=
  match layouts with
  | [] => Ok []
  | layout :: rest =>
      let row := row layout in
      r <- (if 0 <? row then Py.mod_ i num_cols else Ok 1) ;;
      current_y <-
        (if (0 <? row) && (r =? 0) then
           h <- Py.getitem row_heights (row - 1) ;;
           Ok (current_y + (h + padding_px))
         else Ok current_y) ;;
      let layout :=
        mkLegacy (width layout) (height layout) (image layout) (x layout)
          row (col layout) (Some current_y) in
      rest <- legacy_place num_cols padding_px row_heights rest (i + 1)
                current_y ;;
      Ok (layout :: rest)
  end.

(** [create_legacy_layout]. *)
Definition create_legacy_layout (panels : list panel)
    (target_width_in : PyFloat.float)
    (dpi num_cols padding_pt margin_pt : Z)
  : result (Z * Z * list legacy_layout) :=
  match panels with
  | [] => Ok (0, 0, [])
  | _ :: _ =>
      g <- ImagePanelAssembler.pixel_geometry target_width_in dpi num_cols
             padding_pt margin_pt ;;
      let '(total_width_px, padding_px, margin_px, col_width_px) := g in
      lr <- legacy_scale col_width_px num_cols padding_px margin_px
              (Z.of_nat (List.length panels)) panels 0 [] [] 0 ;;
      let '(layouts, row_heights) := lr in
      let content_height :=
        Py.sum row_heights
        + padding_px * (Z.of_nat (List.length row_heights) - 1) in
      let total_height_px := content_height + 2 * margin_px in
      layouts <- legacy_place num_cols padding_px row_heights layouts 0
                   margin_px ;;
      Ok (total_width_px, total_height_px, layouts)
  end.

End Layout.

(** ** Specification-side arithmetic

    The exact value of a double as a fraction, and rounding to the nearest
    integer (ties to even, as Python's [round]). *)

Module Exact.

Definition num (x : PyFloat.float) : Z :=
  match x with
  | S754_finite s m e =>
      let a := if 0 <=? e then Zpos m * 2 ^ e else Zpos m in
      if s then - a else a
  | _ => 0
  end.

Definition den (x : PyFloat.float) : Z :=
  match x with
  | S754_finite s m e => if 0 <=? e then 1 else 2 ^ (- e)
  | _ => 1
  end.

(** The integer nearest to [n / d], for [0 < d]. *)
Definition round_div (n d : Z) : Z :=
  let q := n / d in
  let r := n mod d in
  if 2 * r <? d then q
  else if d <? 2 * r then q + 1
  else if Z.even q then q else q + 1.

(** [n / d] cut toward zero. *)
Definition trunc_div (n d : Z) : Z := Z.quot n d.

End Exact.

(** ** Sample inputs *)

Module Sample.

Definition rgb (w h id : Z) : PIL.image := PIL.mkImage "RGB" w h (PIL.Source id).

Definition panel_of (w h id : Z) : panel := mkPanel (rgb w h id) "panel" "panel.png".

(** The doubles 4.0, 1.0 and 129/128 = 1.0078125. *)
Definition f4_0 : PyFloat.float := S754_finite false 4503599627370496 (-50).
Definition f1_0 : PyFloat.float := S754_finite false 4503599627370496 (-52).
Definition f1_0078125 : PyFloat.float := S754_finite false 4538783999459328 (-52).

(** The two panels of the basic layout test: 200x100 and 50x150. *)
Definition two_panels : list panel := [panel_of 200 100 1; panel_of 50 150 2].

End Sample.

(** ** Reading a canvas back *)

(** The fill the canvas was allocated with. *)
Fixpoint background_fill (p : PIL.pixels) : option PIL.color :=
  match p with
  | PIL.Blank fill => Some fill
  | PIL.Source _ => None
  | PIL.Resample _ _ _ => None
  | PIL.Convert _ _ => None
  | PIL.Paste dst _ _ _ _ _ _ => background_fill dst
  | PIL.LabelBox dst _ _ _ _ _ => background_fill dst
  | PIL.Text dst _ _ _ _ => background_fill dst
  end.

(** A placed bounding box: position and size. *)
Record box : Type := mkBox { bx : Z; by_ : Z; bw : Z; bh : Z }.

(** The boxes of the panels pasted on a canvas, in pasting order. *)
Fixpoint placed (p : PIL.pixels) : list box :=
  match p with
  | PIL.Blank _ => []
  | PIL.Source _ => []
  | PIL.Resample _ _ _ => []
  | PIL.Convert _ _ => []
  | PIL.Paste dst _ w h x y _ => placed dst ++ [mkBox x y w h]
  | PIL.LabelBox dst _ _ _ _ _ => placed dst
  | PIL.Text dst _ _ _ _ => placed dst
  end.

(** Two boxes share no pixel: one lies left of, right of, above or below
    the other. *)
Definition disjoint (a b : box) : Prop :=
  bx a + bw a <= bx b \/ bx b + bw b <= bx a \/
  by_ a + bh a <= by_ b \/ by_ b + bh b <= by_ a.

(** ** Properties *)

Import ImagePanelAssembler.

Lemma bind_Ok {A B : Type} (m : result A) (k : A -> result B) (b : B) :
  Py.bind m k = Ok b -> exists a, m = Ok a /\ k a = Ok b.
Proof.
  destruct m as [a|e]; simpl; intros H; [exists a; auto | discriminate].
Qed.

Ltac bind_inv H :=
  let a := fresh "v" in
  let E := fresh "E" in
  apply bind_Ok in H; destruct H as [a [E H]].

Tactic Notation "bind_as" hyp(H) ident(a) ident(E) :=
  apply bind_Ok in H; destruct H as [a [E H]].

Section CanvasFrame.

(** Pasting and labelling keep the mode, the size and the background fill
    of the canvas. *)
Definition same_canvas (a b : PIL.image) : Prop :=
  PIL.mode b = PIL.mode a /\ PIL.width b = PIL.width a /\
  PIL.height b = PIL.height a /\
  background_fill (PIL.raster b) = background_fill (PIL.raster a).

Lemma same_canvas_refl a : same_canvas a a.
Proof. repeat split. Qed.

Lemma same_canvas_trans a b c :
  same_canvas a b -> same_canvas b c -> same_canvas a c.
Proof.
  unfold same_canvas; intros (?&?&?&?) (?&?&?&?); repeat split; congruence.
Qed.

Lemma add_panel_label_same d i x y dpi pad sty fam fs d' :
  _add_panel_label d i x y dpi pad sty fam fs = Ok d' -> same_canvas d d'.
Proof.
  unfold _add_panel_label.
  destruct (String.eqb sty "None").
  - intros H; injection H as <-; apply same_canvas_refl.
  - intros H. bind_inv H. bind_inv H. bind_inv H. bind_inv H.
    injection H as <-. repeat split.
Qed.

Lemma place_panels_same dpi cols pad mar cw sty fam fs rhs ls :
  forall i y0 d d',
    place_panels dpi cols pad mar cw sty fam fs rhs ls i y0 d = Ok d' ->
    same_canvas d d'.
Proof.
  induction ls as [|l ls IH]; simpl; intros i y0 d d' H.
  - injection H as <-; apply same_canvas_refl.
  - bind_inv H. bind_inv H. bind_inv H. bind_inv H.
    apply IH in H. apply add_panel_label_same in E2.
    eapply same_canvas_trans; [|exact H].
    eapply same_canvas_trans; [|exact E2].
    repeat split.
Qed.

End CanvasFrame.

(** What a successful [assemble_figure] has computed on the way. *)
Lemma assemble_figure_Ok panels tw dpi cols padpt marpt bg sty fam fs canvas :
  assemble_figure panels tw dpi cols padpt marpt bg sty fam fs = Ok canvas ->
  exists total pad mar cw layouts rhs blank,
    panels <> [] /\
    pixel_geometry tw dpi cols padpt marpt = Ok (total, pad, mar, cw) /\
    scale_panels cw cols (Z.of_nat (List.length panels)) panels 0 [] [] 0
      = Ok (layouts, rhs) /\
    PIL.new (match _get_background_color bg with
             | None => "RGBA" | Some _ => "RGB" end)%string
      total
      (Py.sum rhs + pad * (Z.of_nat (List.length rhs) - 1) + 2 * mar)
      (match _get_background_color bg with
       | None => [255; 255; 255; 0] | Some c => c end) = Ok blank /\
    place_panels dpi cols pad mar cw sty fam fs rhs layouts 0 mar blank
      = Ok canvas.
Proof.
  unfold assemble_figure. destruct panels as [|p ps]; [discriminate|].
  intros H. bind_inv H. destruct v as [[[total pad] mar] cw].
  bind_inv H. destruct v as [layouts rhs].
  destruct (_get_background_color bg) as [c|] eqn:Ebg;
    bind_inv H; exists total, pad, mar, cw, layouts, rhs, v;
    (split; [discriminate|]); auto.
Qed.

Lemma new_Ok m w h fill blank :
  PIL.new m w h fill = Ok blank -> blank = PIL.mkImage m w h (PIL.Blank fill).
Proof.
  unfold PIL.new. destruct ((w <? 0) || (h <? 0)); [discriminate|].
  intros H; injection H as <-; reflexivity.
Qed.

(** [int(x)] cuts the exact value of [x] toward zero. *)
Lemma to_int_trunc x z :
  PyFloat.to_int x = Ok z -> z = Exact.trunc_div (Exact.num x) (Exact.den x).
Proof.
  unfold Exact.trunc_div, PyFloat.to_int, Exact.num, Exact.den.
  destruct x as [s| s | |s m e]; try discriminate.
  - intros H; injection H as <-; reflexivity.
  - intros H; injection H as <-.
    destruct e as [|p|p].
    + change (0 <=? 0) with true; cbv iota.
      rewrite Z.pow_0_r, Z.mul_1_r.
      destruct s; rewrite Z.quot_1_r; reflexivity.
    + change (0 <=? Z.pos p) with true; cbv iota.
      destruct s; rewrite Z.quot_1_r; reflexivity.
    + change (0 <=? Z.neg p) with false; cbv iota.
      assert (Hd : 0 < 2 ^ (- Z.neg p)) by (apply Z.pow_pos_nonneg; lia).
      destruct s.
      * rewrite Z.quot_opp_l by lia.
        rewrite Z.quot_div_nonneg by lia. reflexivity.
      * rewrite Z.quot_div_nonneg by lia. reflexivity.
Qed.

(** *** C4: an empty panel list *)

(** C4.  Whatever the parameters, [assemble_figure] on an empty panel list
    raises the [ValueError] "No panels to assemble" (the empty-input error)
    and returns no canvas. *)
Theorem assemble_figure_empty_raises :
  forall tw dpi cols padpt marpt bg sty fam fs,
    assemble_figure [] tw dpi cols padpt marpt bg sty fam fs
    = Raise (ValueError "No panels to assemble").
Proof. reflexivity. Qed.

(** *** C10: the legacy layout on an empty panel list *)

(** C10.  Whatever the parameters, [create_legacy_layout] on an empty panel
    list returns the triple (0, 0, []) and raises nothing, where
    [assemble_figure] raises. *)
Theorem create_legacy_layout_empty :
  forall tw dpi cols padpt marpt,
    Layout.create_legacy_layout [] tw dpi cols padpt marpt = Ok (0, 0, [])
    /\ forall bg sty fam fs,
         Py.is_ok (assemble_figure [] tw dpi cols padpt marpt bg sty fam fs)
         = false.
Proof. intros; split; reflexivity. Qed.

(** *** C1: the width of the canvas *)

(** C1, as amended.  The canvas returned by [assemble_figure] is exactly
    [int(target_width_in * dpi)] pixels wide: the double product, cut toward
    zero and not rounded to the nearest integer. *)
Theorem assemble_figure_width :
  forall panels tw dpi cols padpt marpt bg sty fam fs canvas,
    assemble_figure panels tw dpi cols padpt marpt bg sty fam fs = Ok canvas ->
    exists w,
      PyFloat.mul_int tw dpi = Ok w /\
      PyFloat.to_int w = Ok (PIL.width canvas) /\
      PIL.width canvas = Exact.trunc_div (Exact.num w) (Exact.den w).
Proof.
  intros panels tw dpi cols padpt marpt bg sty fam fs canvas H.
  apply assemble_figure_Ok in H.
  destruct H as (total & pad & mar & cw & ls & rhs & blank
                 & _ & Hg & _ & Hnew & Hplace).
  apply place_panels_same in Hplace. destruct Hplace as (_ & Hw & _).
  apply new_Ok in Hnew. subst blank. simpl in Hw.
  unfold pixel_geometry in Hg.
  bind_inv Hg. bind_inv Hg. bind_inv Hg. bind_inv Hg. bind_inv Hg.
  injection Hg as <- _ _ _.
  exists v. rewrite Hw. split; [exact E|]. split; [exact E0|].
  apply to_int_trunc; exact E0.
Qed.

Lemma assemble_figure_width_witness :
  exists canvas,
    assemble_figure Sample.two_panels Sample.f4_0 150 2 10 12
      "white" "A, B, C..." "Arial" 14 = Ok canvas /\
    exists w,
      PyFloat.mul_int Sample.f4_0 150 = Ok w /\
      PyFloat.to_int w = Ok (PIL.width canvas) /\
      PIL.width canvas = Exact.trunc_div (Exact.num w) (Exact.den w).
Proof.
  eexists. split.
  - vm_compute. reflexivity.
  - apply (assemble_figure_width Sample.two_panels Sample.f4_0 150 2 10 12
             "white" "A, B, C..." "Arial" 14).
    vm_compute. reflexivity.
Defined.

(** At 1.0078125 in and 100 dpi the product is 100.78125: the canvas is 100
    pixels wide, the nearest integer is 101. *)
Lemma assemble_figure_width_not_rounded :
  exists canvas,
    assemble_figure [Sample.panel_of 200 100 1] Sample.f1_0078125 100 1 0 0
      "white" "A, B, C..." "Arial" 14 = Ok canvas /\
    PIL.width canvas
    <> Exact.round_div (Exact.num Sample.f1_0078125 * 100)
         (Exact.den Sample.f1_0078125).
Proof.
  eexists. split.
  - vm_compute. reflexivity.
  - vm_compute. discriminate.
Qed.

(** *** C2: the two-panel example *)

(** C2, as amended.  For the panels 200x100 and 50x150 with 4.0 in, 150 dpi,
    2 columns, 10 pt padding, 12 pt margin and a white background, the total
    width is 600, the margin 25, the padding 20 and the column width 265;
    the panels are scaled to 265x132 and 265x795 and the canvas is 600x845
    in mode RGB. *)
Theorem assemble_figure_two_panels :
  pixel_geometry Sample.f4_0 150 2 10 12 = Ok (600, 20, 25, 265) /\
  exists canvas,
    assemble_figure Sample.two_panels Sample.f4_0 150 2 10 12
      "white" "A, B, C..." "Arial" 14 = Ok canvas /\
    placed (PIL.raster canvas)
    = [mkBox 25 25 265 132; mkBox 310 25 265 795] /\
    PIL.width canvas = 600 /\ PIL.height canvas = 845 /\
    PIL.mode canvas = "RGB"%string.
Proof.
  split; [vm_compute; reflexivity|].
  eexists. split; [vm_compute; reflexivity|].
  repeat split.
Qed.

(** The figures of the example as the specification gives them (padding 21,
    column width 264, panels 264x132 and 264x792, canvas 600x842) are not
    the ones computed. *)
Lemma assemble_figure_two_panels_not_842 :
  ~ (pixel_geometry Sample.f4_0 150 2 10 12 = Ok (600, 21, 25, 264) /\
     exists canvas,
       assemble_figure Sample.two_panels Sample.f4_0 150 2 10 12
         "white" "A, B, C..." "Arial" 14 = Ok canvas /\
       placed (PIL.raster canvas)
       = [mkBox 25 25 264 132; mkBox 310 25 264 792] /\
       PIL.width canvas = 600 /\ PIL.height canvas = 842 /\
       PIL.mode canvas = "RGB"%string).
Proof.
  intros [H _]. vm_compute in H. discriminate H.
Qed.

(** *** C7: background and mode *)

(** C7.  A canvas assembled with background "transparent" is in mode RGBA
    and was filled with (255, 255, 255, 0), alpha zero; with "white" or
    "light_gray" it is in mode RGB and was filled with (255, 255, 255) or
    (245, 245, 245). *)
Theorem assemble_figure_background :
  forall panels tw dpi cols padpt marpt bg sty fam fs canvas,
    assemble_figure panels tw dpi cols padpt marpt bg sty fam fs = Ok canvas ->
    (bg = "transparent"%string ->
       PIL.mode canvas = "RGBA"%string /\
       background_fill (PIL.raster canvas) = Some [255; 255; 255; 0]) /\
    (bg = "white"%string ->
       PIL.mode canvas = "RGB"%string /\
       background_fill (PIL.raster canvas) = Some [255; 255; 255]) /\
    (bg = "light_gray"%string ->
       PIL.mode canvas = "RGB"%string /\
       background_fill (PIL.raster canvas) = Some [245; 245; 245]).
Proof.
  intros panels tw dpi cols padpt marpt bg sty fam fs canvas H.
  apply assemble_figure_Ok in H.
  destruct H as (total & pad & mar & cw & ls & rhs & blank
                 & _ & _ & _ & Hnew & Hplace).
  apply place_panels_same in Hplace. destruct Hplace as (Hm & _ & _ & Hf).
  apply new_Ok in Hnew. subst blank. simpl in Hm, Hf.
  rewrite Hm, Hf.
  repeat split; subst bg; reflexivity.
Qed.

Lemma assemble_figure_background_witness :
  exists canvas,
    assemble_figure Sample.two_panels Sample.f4_0 150 2 10 12
      "transparent" "A, B, C..." "Arial" 14 = Ok canvas /\
    PIL.mode canvas = "RGBA"%string /\
    background_fill (PIL.raster canvas) = Some [255; 255; 255; 0].
Proof.
  eexists. split.
  - vm_compute. reflexivity.
  - apply (assemble_figure_background Sample.two_panels Sample.f4_0 150 2
             10 12 "transparent" "A, B, C..." "Arial" 14);
      [vm_compute|]; reflexivity.
Defined.

(** *** C8: label texts *)

Module LabelSpec.

(** The lowercase Roman numeral of [n], by the usual greedy reading. *)
Fixpoint roman (fuel : nat) (n : Z) : string :=
  match fuel with
  | O => EmptyString
  | S fuel =>
      if 10 <=? n then String "x" (roman fuel (n - 10))
      else if 9 <=? n then String "i" (String "x" (roman fuel (n - 9)))
      else if 5 <=? n then String "v" (roman fuel (n - 5))
      else if 4 <=? n then String "i" (String "v" (roman fuel (n - 4)))
      else if 1 <=? n then String "i" (roman fuel (n - 1))
      else EmptyString
  end.

Definition roman_numeral (n : Z) : string := roman (Z.to_nat n) n.

(** The integer a decimal numeral denotes. *)
Definition decimal_value (s : string) : option Z :=
  option_map Z.of_int (NilZero.int_of_string s).

Definition upper : string := "ABCDEFGHIJKLMNOPQRSTUVWXYZ"%string.
Definition lower : string := "abcdefghijklmnopqrstuvwxyz"%string.

(** The one-letter string of the [i]-th letter of an alphabet. *)
Definition letter (alphabet : string) (i : Z) : option string :=
  option_map (fun c => String c EmptyString) (String.get (Z.to_nat i) alphabet).

(** What both [_get_label_text] functions are to return at index [i]. *)
Definition spec (f : string -> Z -> result string) (i : Z) : Prop :=
  (i < 26 ->
     Some (f "A, B, C..."%string i) = option_map Ok (letter upper i) /\
     Some (f "a, b, c..."%string i) = option_map Ok (letter lower i)) /\
  (f "1, 2, 3..."%string i = Ok (Py.str (i + 1)) /\
   decimal_value (Py.str (i + 1)) = Some (i + 1)) /\
  (i <= 9 -> f "i, ii, iii..."%string i = Ok (roman_numeral (i + 1))) /\
  (10 <= i -> f "i, ii, iii..."%string i = Ok (Py.str (i + 1))).

End LabelSpec.

Lemma small_index (i : Z) (k : nat) :
  0 <= i -> i < Z.of_nat k -> exists n, (n < k)%nat /\ i = Z.of_nat n.
Proof. intros H0 Hk. exists (Z.to_nat i). lia. Qed.

Lemma decimal_value_str (n : Z) :
  0 < n -> LabelSpec.decimal_value (Py.str n) = Some n.
Proof.
  intros Hn. unfold LabelSpec.decimal_value, Py.str.
  rewrite NilZero.isi.
  - simpl. now rewrite DecimalZ.of_to.
  - destruct n as [|p|p]; try lia. simpl. intros [= H].
    now apply (DecimalPos.Unsigned.to_uint_nonnil p).
  - destruct n as [|p|p]; try lia. discriminate.
Qed.

Ltac label_cases f table :=
  let H := fresh "H" in
  let n := fresh "n" in
  let Hn := fresh "Hn" in
  match goal with
  | Hi : 0 <= ?i |- LabelSpec.spec _ ?i =>
      unfold LabelSpec.spec; split; [|split; [|split]];
      [ intros H; destruct (small_index i 26 Hi H) as (n & Hn & ->);
        do 26 (destruct n as [|n]; [split; reflexivity|]); lia
      | split; [reflexivity | apply decimal_value_str; lia]
      | intros H;
        assert (Hlt : i < Z.of_nat 10) by lia;
        destruct (small_index i 10 Hi Hlt) as (n & Hn & ->);
        do 10 (destruct n as [|n]; [reflexivity|]); lia
      | intros H; unfold f; simpl (String.eqb _ _); cbv iota;
        change (Z.of_nat (List.length table)) with 10;
        destruct (i <? 10) eqn:E; [apply Z.ltb_lt in E; lia | reflexivity] ]
  end.

Lemma label_text_assembler (i : Z) :
  0 <= i -> LabelSpec.spec ImagePanelAssembler._get_label_text i.
Proof.
  intros Hi.
  label_cases ImagePanelAssembler._get_label_text
    ImagePanelAssembler.roman_numerals.
Qed.

Lemma label_text_layout (i : Z) :
  0 <= i -> LabelSpec.spec Layout._get_label_text i.
Proof.
  intros Hi. label_cases Layout._get_label_text Layout.roman_numerals.
Qed.

(** C8.  At every panel index [i >= 0], in the assembler and in the layout
    module alike: the label is the [i]-th uppercase letter under
    "A, B, C..." and the [i]-th lowercase letter under "a, b, c..." when
    [i < 26]; the decimal numeral of [i + 1] under "1, 2, 3..."; under
    "i, ii, iii..." the lowercase Roman numeral of [i + 1] when [i <= 9] and
    the decimal numeral of [i + 1] when [i >= 10]. *)
Theorem label_text_by_style (i : Z) :
  0 <= i ->
  LabelSpec.spec ImagePanelAssembler._get_label_text i /\
  LabelSpec.spec Layout._get_label_text i.
Proof.
  intros Hi; split; [apply label_text_assembler | apply label_text_layout];
    exact Hi.
Qed.

Lemma label_text_by_style_witness :
  0 <= 11 /\
  LabelSpec.spec ImagePanelAssembler._get_label_text 11 /\
  LabelSpec.spec Layout._get_label_text 11.
Proof.
  split; [lia | apply (label_text_by_style 11); lia].
Defined.

(** *** C9: annotations are drawn on a copy *)

Section Annotations.

Lemma deref_update_same s : forall r x,
  (r < List.length s)%nat -> deref (update s r x) r = Some x.
Proof.
  unfold deref. induction s as [|a s IH]; intros [|r] x H; simpl in *;
    try lia; [reflexivity | apply IH; lia].
Qed.

Lemma deref_update_other s : forall r q x,
  q <> r -> deref (update s r x) q = deref s q.
Proof.
  unfold deref. induction s as [|a s IH]; intros [|r] [|q] x H; simpl;
    try reflexivity; try congruence.
  apply IH; congruence.
Qed.

(** The texts of the annotations, drawn in order on one image. *)
Definition with_texts (f : PIL.font) (annotations : list annotation)
    (img : PIL.image) : PIL.image :=
  fold_left
    (fun im anno => PIL.text im (a_x anno) (a_y anno) (a_text anno) f)
    annotations img.

Lemma draw_texts_on f annotations : forall s a img,
  deref s a = Some img ->
  let s' := fold_left (fun s anno => draw_text s a f anno) annotations s in
  deref s' a = Some (with_texts f annotations img) /\
  forall q, q <> a -> deref s' q = deref s q.
Proof.
  induction annotations as [|anno rest IH]; intros s a img Ha; simpl.
  - split; [exact Ha | reflexivity].
  - unfold draw_text at 2 4. rewrite Ha.
    assert (Hlen : (a < List.length s)%nat).
    { apply nth_error_Some. unfold deref in Ha. congruence. }
    specialize (IH (update s a (PIL.text img (a_x anno) (a_y anno) (a_text anno) f))
                  a _ (deref_update_same s a _ Hlen)).
    simpl in IH. destruct IH as [IH1 IH2]. split; [exact IH1|].
    intros q Hq. rewrite IH2 by exact Hq. apply deref_update_other; exact Hq.
Qed.

Lemma deref_app_old (s : store) x q :
  (q < List.length s)%nat -> deref (s ++ [x]) q = deref s q.
Proof. intros H. unfold deref. apply nth_error_app1; exact H. Qed.

Lemma deref_app_new (s : store) x : deref (s ++ [x]) (List.length s) = Some x.
Proof.
  unfold deref. rewrite nth_error_app2 by lia.
  rewrite Nat.sub_diag. reflexivity.
Qed.

End Annotations.

(** C9, as amended.  On a canvas object [image] of the store:
    [apply_annotations] never changes the image held by [image] nor by any
    other existing object; with a non-empty annotation list it returns a
    fresh object, distinct from [image], holding a copy with the texts drawn
    in order; with an empty list it returns the object [image] itself. *)
Theorem apply_annotations_on_copy :
  forall annotations (s : store) (image : ref) canvas fam pt dpi,
    deref s image = Some canvas ->
    exists s' annotated,
      apply_annotations annotations s image fam pt dpi = Some (s', annotated) /\
      (forall q, (q < List.length s)%nat -> deref s' q = deref s q) /\
      deref s' image = Some canvas /\
      (annotations = [] -> annotated = image /\ s' = s) /\
      (annotations <> [] ->
         annotated <> image /\ annotated = List.length s /\
         deref s' annotated
         = Some (with_texts (_get_annotation_font fam pt dpi) annotations canvas)).
Proof.
  intros annotations s image canvas fam pt dpi Himg.
  assert (Hlen : (image < List.length s)%nat).
  { apply nth_error_Some. unfold deref in Himg. congruence. }
  destruct annotations as [|anno rest].
  - exists s, image. simpl. repeat split; auto; congruence.
  - unfold apply_annotations, copy. rewrite Himg.
    set (f := _get_annotation_font fam pt dpi).
    destruct (draw_texts_on f (anno :: rest) (s ++ [canvas]) (List.length s)
                canvas (deref_app_new s canvas)) as [H1 H2].
    eexists _, _. split; [reflexivity|].
    split; [|split; [|split]].
    + intros q Hq. rewrite H2 by lia. apply deref_app_old; exact Hq.
    + rewrite H2 by lia. rewrite deref_app_old by exact Hlen. exact Himg.
    + discriminate.
    + intros _. split; [lia|]. split; [reflexivity | exact H1].
Qed.

Lemma apply_annotations_on_copy_witness :
  exists s' annotated,
    apply_annotations [mkAnnotation "n = 3" 50 50]
      [Sample.rgb 600 845 0] 0%nat "Arial" 12 300 = Some (s', annotated) /\
    deref s' 0%nat = Some (Sample.rgb 600 845 0) /\
    annotated <> 0%nat.
Proof.
  destruct (apply_annotations_on_copy [mkAnnotation "n = 3" 50 50]
              [Sample.rgb 600 845 0] 0%nat (Sample.rgb 600 845 0)
              "Arial" 12 300 eq_refl)
    as (s' & annotated & H & _ & Hsame & _ & Hnew).
  exists s', annotated. split; [exact H|]. split; [exact Hsame|].
  apply Hnew. discriminate.
Defined.

(** With no annotation the object returned is the object handed in, not a
    distinct one. *)
Lemma apply_annotations_empty_same_object :
  ~ (exists s' annotated,
       apply_annotations [] [Sample.rgb 600 845 0] 0%nat "Arial" 12 300
       = Some (s', annotated) /\ annotated <> 0%nat).
Proof.
  intros (s' & annotated & H & Hne). simpl in H. injection H as _ <-.
  apply Hne; reflexivity.
Qed.

(** *** Rows and columns *)

Section RowArithmetic.

Variable c : Z.
Hypothesis c_pos : 1 <= c.

Lemma div_succ_full i : 0 <= i -> (i + 1) mod c = 0 -> (i + 1) / c = i / c + 1.
Proof.
  intros Hi Hm.
  pose proof (Z.div_mod (i + 1) c ltac:(lia)) as E. rewrite Hm in E.
  assert (H : (i + 1) / c - 1 = i / c)
    by (apply Z.div_unique with (r := c - 1); lia).
  lia.
Qed.

Lemma div_succ_part i : 0 <= i -> (i + 1) mod c <> 0 -> (i + 1) / c = i / c.
Proof.
  intros Hi Hm.
  pose proof (Z.div_mod (i + 1) c ltac:(lia)) as E.
  pose proof (Z.mod_pos_bound (i + 1) c ltac:(lia)) as B.
  apply Z.div_unique with (r := (i + 1) mod c - 1); lia.
Qed.

Lemma div_le_index i j : 0 <= j -> j <= i -> j / c <= i / c.
Proof. intros; apply Z.div_le_mono; lia. Qed.

Lemma same_row_other_col i j :
  i <> j -> i / c = j / c -> i mod c <> j mod c.
Proof.
  intros Hne Hd Hm.
  pose proof (Z.div_mod i c ltac:(lia)). pose proof (Z.div_mod j c ltac:(lia)).
  apply Hne. congruence.
Qed.

End RowArithmetic.

Lemma mod_Ok a b r : Py.mod_ a b = Ok r -> b <> 0 /\ r = a mod b.
Proof.
  unfold Py.mod_. destruct (b =? 0) eqn:E; [discriminate|].
  intros H; injection H as <-. apply Z.eqb_neq in E. auto.
Qed.

Lemma floordiv_Ok a b q : Py.floordiv a b = Ok q -> b <> 0 /\ q = a / b.
Proof.
  unfold Py.floordiv. destruct (b =? 0) eqn:E; [discriminate|].
  intros H; injection H as <-. apply Z.eqb_neq in E. auto.
Qed.

Lemma getitem_Ok {A : Type} (l : list A) (k : Z) (a d : A) :
  0 <= k -> Py.getitem l k = Ok a -> nth (Z.to_nat k) l d = a.
Proof.
  intros Hk. unfold Py.getitem.
  destruct (k <? 0) eqn:E; [apply Z.ltb_lt in E; lia|].
  destruct ((k <? 0) || (Z.of_nat (List.length l) <=? k)); [discriminate|].
  destruct (nth_error l (Z.to_nat k)) eqn:En; [|discriminate].
  intros H; injection H as <-. apply nth_error_nth; exact En.
Qed.

(** *** The row heights cover the panels of their rows *)

Section ScaleLoop.

Variables cw cols n : Z.
Hypothesis cols_pos : 1 <= cols.

Definition row_of (j : nat) : nat := Z.to_nat (Z.of_nat j / cols).

(** Every layout is [cw] wide and no taller than the height of its row. *)
Definition covered (L : list layout) (RH : list Z) : Prop :=
  Forall (fun h => 0 <= h) RH /\
  forall j l, nth_error L j = Some l ->
    l_width l = cw /\ l_height l <= nth (row_of j) RH 0.

(** The state of the first loop before panel [i]. *)
Definition loop_inv (i : Z) (L : list layout) (RH : list Z) (cur : Z) : Prop :=
  Z.of_nat (List.length L) = i /\ Z.of_nat (List.length RH) = i / cols /\
  0 <= cur /\ Forall (fun h => 0 <= h) RH /\
  forall j l, nth_error L j = Some l ->
    l_width l = cw /\
    (Z.of_nat j / cols < i / cols -> l_height l <= nth (row_of j) RH 0) /\
    (Z.of_nat j / cols = i / cols -> l_height l <= cur).

Lemma close_row i L RH cur h im :
  0 <= i -> loop_inv i L RH cur ->
  covered (L ++ [mkLayout cw h im]) (RH ++ [Z.max cur h]).
Proof.
  intros Hi (HL & HR & Hc & Hnn & Hall). split.
  - apply Forall_app; split; [exact Hnn|]. constructor; [lia|constructor].
  - intros j l Hj.
    assert (Hjlen : (j < List.length (L ++ [mkLayout cw h im]))%nat).
    { apply nth_error_Some. congruence. }
    rewrite length_app in Hjlen. simpl in Hjlen.
    assert (Hrow : Z.of_nat j / cols <= i / cols)
      by (apply div_le_index; lia).
    assert (Hq : 0 <= Z.of_nat j / cols) by (apply Z.div_pos; lia).
    destruct (Nat.eq_dec j (List.length L)) as [->|Hne].
    + rewrite nth_error_app2 in Hj by lia. rewrite Nat.sub_diag in Hj.
      injection Hj as <-. simpl. split; [reflexivity|].
      unfold row_of. rewrite HL, <- HR, Nat2Z.id.
      rewrite app_nth2 by lia. rewrite Nat.sub_diag. simpl. lia.
    + rewrite nth_error_app1 in Hj by lia.
      destruct (Hall j l Hj) as (Hw & Hlt & Heq). split; [exact Hw|].
      destruct (Z.eq_dec (Z.of_nat j / cols) (i / cols)) as [E|E].
      * unfold row_of. rewrite E, <- HR, Nat2Z.id.
        rewrite app_nth2 by lia. rewrite Nat.sub_diag. simpl.
        specialize (Heq E). lia.
      * rewrite app_nth1 by (unfold row_of; lia). apply Hlt; lia.
Qed.

Lemma next_row i L RH cur h im :
  0 <= i -> (i + 1) mod cols = 0 -> loop_inv i L RH cur ->
  loop_inv (i + 1) (L ++ [mkLayout cw h im]) (RH ++ [Z.max cur h]) 0.
Proof.
  intros Hi Hm Hinv.
  destruct (close_row i L RH cur h im Hi Hinv) as [Hnn Hall].
  destruct Hinv as (HL & HR & _).
  pose proof (div_succ_full cols cols_pos i Hi Hm) as Hd.
  repeat split.
  - rewrite length_app; simpl; lia.
  - rewrite length_app; simpl; lia.
  - lia.
  - exact Hnn.
  - apply (Hall j l H).
  - intros _. apply (Hall j l H).
  - intros E.
    assert (Hjlen : (j < List.length (L ++ [mkLayout cw h im]))%nat).
    { apply nth_error_Some. congruence. }
    rewrite length_app in Hjlen. simpl in Hjlen.
    assert (Z.of_nat j / cols <= i / cols) by (apply div_le_index; lia).
    lia.
Qed.

Lemma same_row i L RH cur h im :
  0 <= i -> (i + 1) mod cols <> 0 -> loop_inv i L RH cur ->
  loop_inv (i + 1) (L ++ [mkLayout cw h im]) RH (Z.max cur h).
Proof.
  intros Hi Hm (HL & HR & Hc & Hnn & Hall).
  pose proof (div_succ_part cols cols_pos i Hi Hm) as Hd.
  split; [rewrite length_app; simpl; lia|].
  split; [lia|]. split; [lia|]. split; [exact Hnn|].
  intros j l Hj. rewrite Hd.
  assert (Hjlen : (j < List.length (L ++ [mkLayout cw h im]))%nat).
  { apply nth_error_Some. congruence. }
  rewrite length_app in Hjlen. simpl in Hjlen.
  destruct (Nat.eq_dec j (List.length L)) as [->|Hne].
  - rewrite nth_error_app2 in Hj by lia. rewrite Nat.sub_diag in Hj.
    injection Hj as <-. simpl. split; [reflexivity|]. split; [|lia].
    rewrite HL. lia.
  - rewrite nth_error_app1 in Hj by lia.
    destruct (Hall j l Hj) as (Hw & Hlt & Heq). split; [exact Hw|].
    split; [exact Hlt|]. intros E. specialize (Heq E). lia.
Qed.

Lemma scale_panels_covered ps : forall i L RH cur L' RH',
  ps <> [] -> 0 <= i -> n = i + Z.of_nat (List.length ps) ->
  loop_inv i L RH cur ->
  scale_panels cw cols n ps i L RH cur = Ok (L', RH') -> covered L' RH'.
Proof.
  induction ps as [|p rest IH]; intros i L RH cur L' RH' Hne Hi Hn Hinv H;
    [congruence|].
  simpl in H. bind_inv H. bind_inv H.
  apply mod_Ok in E0. destruct E0 as [_ ->].
  destruct rest as [|p2 rest'].
  - simpl in Hn. replace (i + 1 =? n) with true in H
      by (symmetry; apply Z.eqb_eq; lia).
    rewrite orb_true_r in H. simpl in H. injection H as <- <-.
    apply (close_row i); assumption.
  - replace (i + 1 =? n) with false in H
      by (symmetry; apply Z.eqb_neq; simpl List.length in Hn; lia).
    rewrite orb_false_r in H.
    destruct ((i + 1) mod cols =? 0) eqn:Em.
    + apply Z.eqb_eq in Em.
      apply IH in H; [exact H | discriminate | lia | | ].
      * simpl List.length in *. lia.
      * apply next_row; assumption.
    + apply Z.eqb_neq in Em.
      apply IH in H; [exact H | discriminate | lia | | ].
      * simpl List.length in *. lia.
      * apply same_row; assumption.
Qed.

Lemma loop_inv_start : loop_inv 0 [] [] 0.
Proof.
  repeat split; try reflexivity; try lia; try constructor;
    destruct j; discriminate.
Qed.

End ScaleLoop.

(** The layouts the first loop appends: one per panel, [cw] wide, with the
    height [scaled_height] computes. *)
Definition layout_of (cw : Z) (p : panel) (l : layout) : Prop :=
  l_width l = cw /\ l_image l = pil_image p /\
  scaled_height cw (pil_image p) = Ok (l_height l).

Lemma scale_panels_layouts cw cols n ps : forall i L RH cur L' RH',
  scale_panels cw cols n ps i L RH cur = Ok (L', RH') ->
  exists Ls, L' = L ++ Ls /\ Forall2 (layout_of cw) ps Ls.
Proof.
  induction ps as [|p rest IH]; intros i L RH cur L' RH' H; simpl in H.
  - injection H as <- <-. exists []. rewrite app_nil_r. split; constructor.
  - bind_inv H. bind_inv H.
    assert (Hrec : exists RH1 cur1,
               scale_panels cw cols n rest (i + 1)
                 (L ++ [mkLayout cw v (pil_image p)]) RH1 cur1 = Ok (L', RH')).
    { destruct ((v0 =? 0) || (i + 1 =? n)); eauto. }
    destruct Hrec as (RH1 & cur1 & Hrec).
    apply IH in Hrec. destruct Hrec as (Ls & -> & HF).
    exists (mkLayout cw v (pil_image p) :: Ls). split.
    + rewrite <- app_assoc. reflexivity.
    + constructor; [|exact HF]. repeat split. exact E.
Qed.

(** *** Where the second loop pastes *)

Lemma resize_Ok im w h r :
  PIL.resize im w h = Ok r -> PIL.width r = w /\ PIL.height r = h.
Proof.
  unfold PIL.resize.
  destruct ((PIL.width im =? w) && (PIL.height im =? h)) eqn:E.
  - intros H; injection H as <-. apply andb_true_iff in E. lia.
  - destruct ((w <? 1) || (h <? 1)); [discriminate|].
    intros H; injection H as <-. split; reflexivity.
Qed.

Lemma add_panel_label_placed d i x y dpi pad sty fam fs d' :
  _add_panel_label d i x y dpi pad sty fam fs = Ok d' ->
  placed (PIL.raster d') = placed (PIL.raster d).
Proof.
  unfold _add_panel_label.
  destruct (String.eqb sty "None").
  - intros H; injection H as <-; reflexivity.
  - intros H. bind_inv H. bind_inv H. bind_inv H. bind_inv H.
    injection H as <-. reflexivity.
Qed.

Section PlaceLoop.

Variables dpi cols pad mar cw : Z.
Variables sty fam : string.
Variable fs : Z.
Variable RH : list Z.
Hypothesis cols_pos : 1 <= cols.

(** The top of row [r]: the margin, then the rows above with the padding
    under each. *)
Fixpoint row_top (r : nat) : Z :=
  match r with
  | O => mar
  | S k => row_top k + (nth k RH 0 + pad)
  end.

(** The box of the panel at flat index [i]. *)
Definition box_at (i : Z) (l : layout) : box :=
  mkBox (mar + (i mod cols) * (cw + pad)) (row_top (Z.to_nat (i / cols)))
    (l_width l) (l_height l).

Fixpoint boxes_from (i : Z) (ls : list layout) : list box :=
  match ls with
  | [] => []
  | l :: rest => box_at i l :: boxes_from (i + 1) rest
  end.

Lemma row_start_step i y0 y :
  0 <= i -> y0 = row_top (Z.to_nat ((i - 1) / cols)) ->
  (if (i mod cols =? 0) && (0 <? i)
   then row_idx <- Py.floordiv i cols ;;
        h <- Py.getitem RH (row_idx - 1) ;; Ok (y0 + (h + pad))
   else Ok y0) = Ok y ->
  y = row_top (Z.to_nat (i / cols)).
Proof.
  intros Hi Hy0 H.
  destruct ((i mod cols =? 0) && (0 <? i)) eqn:C.
  - apply andb_true_iff in C. destruct C as [Cm Ci].
    apply Z.eqb_eq in Cm. apply Z.ltb_lt in Ci.
    bind_as H q Eq. apply floordiv_Ok in Eq. destruct Eq as [_ ->].
    bind_as H h Eh. injection H as <-.
    pose proof (div_succ_full cols cols_pos (i - 1) ltac:(lia)) as Hd.
    replace (i - 1 + 1) with i in Hd by lia. specialize (Hd Cm).
    assert (Hq : 0 <= (i - 1) / cols) by (apply Z.div_pos; lia).
    apply (getitem_Ok RH _ _ 0) in Eh; [|lia]. subst h y0.
    replace (i / cols - 1) with ((i - 1) / cols) by lia.
    rewrite Hd. rewrite Z2Nat.inj_add by lia.
    rewrite Nat.add_1_r. simpl. reflexivity.
  - injection H as <-. subst y0. f_equal.
    apply andb_false_iff in C. destruct C as [C|C].
    + apply Z.eqb_neq in C. f_equal.
      assert (i <> 0) by (intros ->; apply C; apply Z.mod_0_l; lia).
      pose proof (div_succ_part cols cols_pos (i - 1) ltac:(lia)) as Hd.
      replace (i - 1 + 1) with i in Hd by lia. symmetry; apply Hd; exact C.
    + apply Z.ltb_ge in C. assert (i = 0) by lia. subst i.
      rewrite Z.div_0_l by lia.
      assert ((0 - 1) / cols < 0) by (apply Z.div_lt_upper_bound; lia).
      lia.
Qed.

Lemma place_panels_placed ls : forall i y0 d d',
  0 <= i -> y0 = row_top (Z.to_nat ((i - 1) / cols)) ->
  place_panels dpi cols pad mar cw sty fam fs RH ls i y0 d = Ok d' ->
  placed (PIL.raster d') = placed (PIL.raster d) ++ boxes_from i ls.
Proof.
  induction ls as [|l rest IH]; intros i y0 d d' Hi Hy0 H; simpl in H.
  - injection H as <-. simpl. rewrite app_nil_r. reflexivity.
  - bind_as H c Ec. apply mod_Ok in Ec. destruct Ec as [_ ->].
    bind_as H y Ey. apply (row_start_step i y0 y Hi Hy0) in Ey.
    bind_as H r Er. apply resize_Ok in Er. destruct Er as [Hw Hh].
    bind_as H d1 Ed. apply add_panel_label_placed in Ed.
    apply IH in H; [|lia|replace (i + 1 - 1) with i by lia; exact Ey].
    rewrite H, Ed. simpl. rewrite <- app_assoc. simpl.
    f_equal. f_equal. unfold box_at. rewrite <- Ey.
    destruct (String.eqb (PIL.mode d) "RGBA"
              && negb (String.eqb (PIL.mode r) "RGBA"));
      simpl; rewrite Hw, Hh; reflexivity.
Qed.

Hypothesis pad_nonneg : 0 <= pad.
Hypothesis RH_nonneg : Forall (fun h => 0 <= h) RH.

Lemma nth_RH_nonneg k : 0 <= nth k RH 0.
Proof.
  destruct (Nat.lt_ge_cases k (List.length RH)) as [H|H].
  - rewrite Forall_forall in RH_nonneg. apply RH_nonneg. apply nth_In; exact H.
  - rewrite nth_overflow by exact H. lia.
Qed.

Lemma row_top_mono r1 r2 : (r1 <= r2)%nat -> row_top r1 <= row_top r2.
Proof.
  induction 1 as [|r2 _ IH]; [lia|]. simpl.
  pose proof (nth_RH_nonneg r2). lia.
Qed.

(** A later row starts below every panel of an earlier row. *)
Lemma row_top_below r1 r2 h :
  (r1 < r2)%nat -> h <= nth r1 RH 0 -> row_top r1 + h <= row_top r2.
Proof.
  intros Hlt Hh. pose proof (row_top_mono (S r1) r2 Hlt) as Hm.
  simpl in Hm. lia.
Qed.

Hypothesis cw_pos : 0 < cw.

Lemma boxes_from_length ls : forall i,
  List.length (boxes_from i ls) = List.length ls.
Proof. induction ls as [|l rest IH]; intros i; simpl; auto. Qed.

Lemma boxes_from_nth ls : forall i k a,
  nth_error (boxes_from i ls) k = Some a ->
  exists l, nth_error ls k = Some l /\ a = box_at (i + Z.of_nat k) l.
Proof.
  induction ls as [|l rest IH]; intros i k a H; destruct k as [|k];
    simpl in H; try discriminate.
  - injection H as <-. exists l. split; [reflexivity|].
    f_equal. simpl. lia.
  - apply IH in H. destruct H as (l' & Hl & ->). exists l'. split; [exact Hl|].
    f_equal. lia.
Qed.

(** Two panels of one assembly: in different rows one lies below the other,
    in the same row they stand in different columns. *)
Lemma box_at_disjoint L k1 k2 l1 l2 :
  covered cw cols L RH -> k1 <> k2 ->
  nth_error L k1 = Some l1 -> nth_error L k2 = Some l2 ->
  disjoint (box_at (Z.of_nat k1) l1) (box_at (Z.of_nat k2) l2).
Proof.
  intros [_ Hcov] Hne H1 H2.
  destruct (Hcov k1 l1 H1) as [Hw1 Hh1]. destruct (Hcov k2 l2 H2) as [Hw2 Hh2].
  unfold row_of in Hh1, Hh2. unfold disjoint, box_at. simpl.
  assert (Hq1 : 0 <= Z.of_nat k1 / cols) by (apply Z.div_pos; lia).
  assert (Hq2 : 0 <= Z.of_nat k2 / cols) by (apply Z.div_pos; lia).
  destruct (Z.lt_trichotomy (Z.of_nat k1 / cols) (Z.of_nat k2 / cols))
    as [Hlt|[Heq|Hgt]].
  - right; right; left. apply row_top_below; [lia | exact Hh1].
  - assert (Hc : Z.of_nat k1 mod cols <> Z.of_nat k2 mod cols)
      by (apply same_row_other_col; [exact cols_pos | lia | exact Heq]).
    rewrite Hw1, Hw2.
    destruct (Z.lt_ge_cases (Z.of_nat k1 mod cols) (Z.of_nat k2 mod cols)).
    + left. nia.
    + right; left. nia.
  - right; right; right. apply row_top_below; [lia | exact Hh2].
Qed.

End PlaceLoop.

(** *** C6: the placed panels do not overlap *)

(** C6.  In an assembly with at least one column, a positive column width
    and non-negative padding and margin, one box is pasted per panel, each
    as wide as the column, and the boxes of two different panels share no
    pixel. *)
Theorem assemble_figure_no_overlap :
  forall panels tw dpi cols padpt marpt bg sty fam fs canvas total pad mar cw,
    assemble_figure panels tw dpi cols padpt marpt bg sty fam fs = Ok canvas ->
    pixel_geometry tw dpi cols padpt marpt = Ok (total, pad, mar, cw) ->
    1 <= cols -> 0 < cw -> 0 <= pad -> 0 <= mar ->
    List.length (placed (PIL.raster canvas)) = List.length panels /\
    forall i j a b,
      i <> j ->
      nth_error (placed (PIL.raster canvas)) i = Some a ->
      nth_error (placed (PIL.raster canvas)) j = Some b ->
      bw a = cw /\ bw b = cw /\ disjoint a b.
Proof.
  intros panels tw dpi cols padpt marpt bg sty fam fs canvas total pad mar cw
    H Hg Hcols Hcw Hpad Hmar.
  apply assemble_figure_Ok in H.
  destruct H as (total' & pad' & mar' & cw' & ls & rhs & blank
                 & Hne & Hg' & Hscale & Hnew & Hplace).
  rewrite Hg in Hg'. injection Hg' as <- <- <- <-.
  pose proof (scale_panels_covered cw cols (Z.of_nat (List.length panels))
                Hcols panels 0 [] [] 0 ls rhs
                Hne ltac:(lia) ltac:(lia) (loop_inv_start cw cols) Hscale)
    as Hcov.
  apply scale_panels_layouts in Hscale. destruct Hscale as (Ls & -> & HF).
  simpl in *.
  apply (place_panels_placed dpi cols pad mar cw sty fam fs rhs Hcols) in Hplace;
    [|lia|].
  2:{ replace (Z.to_nat ((0 - 1) / cols)) with 0%nat; [reflexivity|].
      assert ((0 - 1) / cols < 0) by (apply Z.div_lt_upper_bound; lia). lia. }
  apply new_Ok in Hnew. subst blank. simpl in Hplace. rewrite Hplace.
  split.
  - rewrite boxes_from_length. symmetry. apply (Forall2_length HF).
  - intros i j a b Hij Ha Hb.
    apply boxes_from_nth in Ha. destruct Ha as (l1 & Hl1 & ->).
    apply boxes_from_nth in Hb. destruct Hb as (l2 & Hl2 & ->).
    destruct Hcov as [Hnn Hcov].
    split; [apply (Hcov i l1 Hl1)|]. split; [apply (Hcov j l2 Hl2)|].
    simpl. apply (box_at_disjoint cols pad mar cw rhs Hcols Hpad Hnn Hcw Ls);
      [split; assumption | exact Hij | exact Hl1 | exact Hl2].
Qed.

Lemma assemble_figure_no_overlap_witness :
  exists canvas,
    assemble_figure Sample.two_panels Sample.f4_0 150 2 10 12
      "white" "A, B, C..." "Arial" 14 = Ok canvas /\
    List.length (placed (PIL.raster canvas)) = 2%nat /\
    disjoint (mkBox 25 25 265 132) (mkBox 310 25 265 795).
Proof.
  eexists. split; [vm_compute; reflexivity|].
  assert (Hg : pixel_geometry Sample.f4_0 150 2 10 12 = Ok (600, 20, 25, 265))
    by (vm_compute; reflexivity).
  match goal with
  | |- List.length (placed (PIL.raster ?c)) = _ /\ _ =>
      assert (Ha : assemble_figure Sample.two_panels Sample.f4_0 150 2 10 12
                     "white" "A, B, C..." "Arial" 14 = Ok c)
        by (vm_compute; reflexivity)
  end.
  destruct (assemble_figure_no_overlap _ _ _ _ _ _ _ _ _ _ _ _ _ _ _ Ha Hg
              ltac:(lia) ltac:(lia) ltac:(lia) ltac:(lia))
    as [Hlen Hdis].
  split; [exact Hlen|].
  apply (Hdis 0%nat 1%nat); [discriminate | reflexivity | reflexivity].
Defined.

(** *** C5: the scaled size of a panel *)

Definition size_of (b : box) : Z * Z := (bw b, bh b).

Definition layout_size (l : layout) : Z * Z := (l_width l, l_height l).

Lemma place_panels_sizes dpi cols pad mar cw sty fam fs rhs ls :
  forall i y0 d d',
    place_panels dpi cols pad mar cw sty fam fs rhs ls i y0 d = Ok d' ->
    map size_of (placed (PIL.raster d'))
    = map size_of (placed (PIL.raster d)) ++ map layout_size ls.
Proof.
  induction ls as [|l rest IH]; intros i y0 d d' H; simpl in H.
  - injection H as <-. simpl. rewrite app_nil_r. reflexivity.
  - bind_as H c Ec. bind_as H y Ey.
    bind_as H r Er. apply resize_Ok in Er. destruct Er as [Hw Hh].
    bind_as H d1 Ed. apply add_panel_label_placed in Ed.
    apply IH in H. rewrite H, Ed. simpl. rewrite map_app, <- app_assoc.
    simpl. f_equal. f_equal. unfold size_of, layout_size. simpl.
    destruct (String.eqb (PIL.mode d) "RGBA"
              && negb (String.eqb (PIL.mode r) "RGBA"));
      simpl; rewrite Hw, Hh; reflexivity.
Qed.

Lemma Forall2_through_sizes {A : Type} (P : A -> layout -> Prop)
    (Q : A -> box -> Prop) :
  (forall a l b, P a l -> size_of b = layout_size l -> Q a b) ->
  forall xs ls bs,
    Forall2 P xs ls -> map size_of bs = map layout_size ls ->
    Forall2 Q xs bs.
Proof.
  intros HPQ xs ls bs HF. revert bs.
  induction HF as [|a l xs ls Hal HF IH]; intros [|b bs] Hm;
    cbn [map] in Hm; try discriminate Hm; constructor.
  - apply (HPQ a l b Hal). exact (f_equal (hd (0, 0)) Hm).
  - apply IH. exact (f_equal (@tl _) Hm).
Qed.

(** The size [assemble_figure] gives the box of panel [p] in a column of
    width [cw]: the column width, and [int(h * (cw / w))] in doubles. *)
Definition scaled_to (cw : Z) (p : panel) (b : box) : Prop :=
  bw b = cw /\
  exists scale prod,
    PyFloat.truediv cw (PIL.width (pil_image p)) = Ok scale /\
    PyFloat.int_mul (PIL.height (pil_image p)) scale = Ok prod /\
    PyFloat.to_int prod = Ok (bh b) /\
    bh b = Exact.trunc_div (Exact.num prod) (Exact.den prod).

Lemma layout_scaled_to cw p l b :
  layout_of cw p l -> size_of b = layout_size l -> scaled_to cw p b.
Proof.
  intros (Hw & _ & Hs) Hb. unfold size_of, layout_size in Hb.
  injection Hb as Hbw Hbh. split; [congruence|].
  unfold scaled_height in Hs. bind_as Hs scale Es. bind_as Hs prod Ep.
  exists scale, prod. rewrite Hbh. repeat split; try assumption.
  apply to_int_trunc; exact Hs.
Qed.

(** C5, as amended.  In every assembly that returns a canvas, the box
    pasted for each panel of original size (w, h) is exactly
    [col_width_px] wide and [int(h * (col_width_px / w))] high: the quotient
    and the product are taken in double precision and the product is cut
    toward zero, not rounded to the nearest integer. *)
Theorem assemble_figure_scaled_sizes :
  forall panels tw dpi cols padpt marpt bg sty fam fs canvas total pad mar cw,
    assemble_figure panels tw dpi cols padpt marpt bg sty fam fs = Ok canvas ->
    pixel_geometry tw dpi cols padpt marpt = Ok (total, pad, mar, cw) ->
    Forall2 (scaled_to cw) panels (placed (PIL.raster canvas)).
Proof.
  intros panels tw dpi cols padpt marpt bg sty fam fs canvas total pad mar cw
    H Hg.
  apply assemble_figure_Ok in H.
  destruct H as (total' & pad' & mar' & cw' & ls & rhs & blank
                 & Hne & Hg' & Hscale & Hnew & Hplace).
  rewrite Hg in Hg'. injection Hg' as <- <- <- <-.
  apply scale_panels_layouts in Hscale. destruct Hscale as (Ls & -> & HF).
  simpl in Hplace. apply place_panels_sizes in Hplace.
  apply new_Ok in Hnew. subst blank. simpl in Hplace.
  eapply Forall2_through_sizes; [|exact HF|exact Hplace].
  intros a l b. apply layout_scaled_to.
Qed.

Lemma assemble_figure_scaled_sizes_witness :
  exists canvas,
    assemble_figure Sample.two_panels Sample.f4_0 150 2 10 12
      "white" "A, B, C..." "Arial" 14 = Ok canvas /\
    Forall2 (scaled_to 265) Sample.two_panels (placed (PIL.raster canvas)).
Proof.
  eexists. split; [vm_compute; reflexivity|].
  apply (assemble_figure_scaled_sizes Sample.two_panels Sample.f4_0 150 2
           10 12 "white" "A, B, C..." "Arial" 14 _ 600 20 25);
    vm_compute; reflexivity.
Defined.

(** A 4x3 panel in a column 5 pixels wide: 3 * 5 / 4 = 3.75, the box is 3
    pixels high, the nearest integer is 4. *)
Lemma scaled_height_not_rounded :
  exists canvas,
    assemble_figure [Sample.panel_of 4 3 1] Sample.f1_0 5 1 0 0
      "white" "A, B, C..." "Arial" 14 = Ok canvas /\
    pixel_geometry Sample.f1_0 5 1 0 0 = Ok (5, 0, 0, 5) /\
    placed (PIL.raster canvas) = [mkBox 0 0 5 3] /\
    3 <> Exact.round_div (3 * 5) 4.
Proof.
  eexists. split; [vm_compute; reflexivity|].
  split; [vm_compute; reflexivity|].
  split; [reflexivity|]. vm_compute. discriminate.
Qed.

(** *** C3: degenerate geometry *)

Lemma pixel_geometry_col_width tw dpi cols padpt marpt total pad mar cw :
  pixel_geometry tw dpi cols padpt marpt = Ok (total, pad, mar, cw) ->
  cols <> 0 /\ cw = (total - 2 * mar - pad * (cols - 1)) / cols.
Proof.
  unfold pixel_geometry. intros H.
  bind_as H w Ew. bind_as H t Et. bind_as H p Ep. bind_as H m Em.
  bind_as H c Ec. injection H as <- <- <- <-.
  apply floordiv_Ok in Ec. exact Ec.
Qed.

Lemma truediv_Ok_divisor a b q : PyFloat.truediv a b = Ok q -> b <> 0.
Proof.
  unfold PyFloat.truediv. destruct (b =? 0) eqn:E; [discriminate|].
  intros _. apply Z.eqb_neq; exact E.
Qed.

Lemma resize_Ok_positive im w h r :
  PIL.resize im w h = Ok r -> PIL.width im = w \/ 1 <= w.
Proof.
  unfold PIL.resize.
  destruct ((PIL.width im =? w) && (PIL.height im =? h)) eqn:E.
  - intros _. apply andb_true_iff in E. left. lia.
  - destruct ((w <? 1) || (h <? 1)) eqn:E1; [discriminate|].
    intros _. apply orb_false_iff in E1. right. lia.
Qed.

(** C3, as amended.  [assemble_figure] has no layout check of its own.
    When the computed column width is not positive -- as it is whenever the
    available width is not positive, with at least one column and
    non-negative padding -- a non-empty assembly still raises and returns
    no canvas: the imaging library rejects the size (or the arithmetic
    fails).  A non-positive available width alone does not make it fail. *)
Theorem assemble_figure_degenerate_raises :
  forall panels tw dpi cols padpt marpt bg sty fam fs total pad mar cw,
    panels <> [] ->
    Forall (fun p => 0 <= PIL.width (pil_image p)) panels ->
    pixel_geometry tw dpi cols padpt marpt = Ok (total, pad, mar, cw) ->
    cw <= 0 \/ (total - 2 * mar <= 0 /\ 1 <= cols /\ 0 <= pad) ->
    exists e,
      assemble_figure panels tw dpi cols padpt marpt bg sty fam fs = Raise e.
Proof.
  intros panels tw dpi cols padpt marpt bg sty fam fs total pad mar cw
    Hne Hwd Hg Hdeg.
  assert (Hcw : cw <= 0).
  { destruct Hdeg as [H|(Ha & Hc & Hp)]; [exact H|].
    apply pixel_geometry_col_width in Hg. destruct Hg as [_ ->].
    apply Z.div_le_upper_bound; nia. }
  destruct (assemble_figure panels tw dpi cols padpt marpt bg sty fam fs)
    as [canvas|e] eqn:H; [exfalso | exists e; reflexivity].
  apply assemble_figure_Ok in H.
  destruct H as (total' & pad' & mar' & cw' & ls & rhs & blank
                 & _ & Hg' & Hscale & Hnew & Hplace).
  rewrite Hg in Hg'. injection Hg' as <- <- <- <-.
  apply scale_panels_layouts in Hscale. destruct Hscale as (Ls & -> & HF).
  destruct HF as [|p l ps Ls' (Hw & Him & Hs) HF]; [congruence|].
  simpl in Hplace.
  bind_as Hplace c Ec. bind_as Hplace y Ey. bind_as Hplace r Er.
  apply resize_Ok_positive in Er. rewrite Him, Hw in Er.
  unfold scaled_height in Hs. bind_as Hs scale Es.
  apply truediv_Ok_divisor in Es.
  apply Forall_inv in Hwd. lia.
Qed.

Lemma assemble_figure_degenerate_raises_witness :
  exists e,
    assemble_figure [Sample.panel_of 100 100 1] Sample.f1_0 50 5 8 200
      "white" "A, B, C..." "Arial" 14 = Raise e.
Proof.
  apply (assemble_figure_degenerate_raises [Sample.panel_of 100 100 1]
           Sample.f1_0 50 5 8 200 "white" "A, B, C..." "Arial" 14
           50 5 138 (-50)).
  - discriminate.
  - repeat constructor. simpl. lia.
  - vm_compute. reflexivity.
  - left. lia.
Defined.

(** At 1.0 in, 72 dpi, 2 columns, 36 pt margin and -72 pt padding the
    available width is 72 - 2 * 36 = 0, the column width is 36, and a canvas
    is returned. *)
Lemma assemble_figure_no_layout_check :
  exists canvas,
    pixel_geometry Sample.f1_0 72 2 (-72) 36 = Ok (72, -72, 36, 36) /\
    72 - 2 * 36 <= 0 /\
    assemble_figure [Sample.panel_of 10 10 1] Sample.f1_0 72 2 (-72) 36
      "white" "None" "Arial" 14 = Ok canvas.
Proof.
  eexists. split; [vm_compute; reflexivity|].
  split; [lia|]. vm_compute. reflexivity.
Qed.

(** ** Further properties of the assembler *)

(** *** Geometry does not depend on background, label style or font *)

Lemma place_panels_placed_twice dpi cols pad mar cw rhs
    sty1 fam1 fs1 sty2 fam2 fs2 ls :
  forall i y0 d1 d2 d1' d2',
    place_panels dpi cols pad mar cw sty1 fam1 fs1 rhs ls i y0 d1 = Ok d1' ->
    place_panels dpi cols pad mar cw sty2 fam2 fs2 rhs ls i y0 d2 = Ok d2' ->
    exists B,
      placed (PIL.raster d1') = placed (PIL.raster d1) ++ B /\
      placed (PIL.raster d2') = placed (PIL.raster d2) ++ B.
Proof.
  induction ls as [|l rest IH]; intros i y0 d1 d2 d1' d2' H1 H2;
    simpl in H1, H2.
  - injection H1 as <-. injection H2 as <-. exists [].
    rewrite !app_nil_r. split; reflexivity.
  - bind_as H1 c Ec. bind_as H2 c2 Ec2. rewrite Ec in Ec2.
    injection Ec2 as <-.
    bind_as H1 y Ey. bind_as H2 y2 Ey2. rewrite Ey in Ey2.
    injection Ey2 as <-.
    bind_as H1 r Er. bind_as H2 r2 Er2. rewrite Er in Er2.
    injection Er2 as <-.
    apply resize_Ok in Er. destruct Er as [Hw Hh].
    bind_as H1 e1 Ed1. bind_as H2 e2 Ed2.
    apply add_panel_label_placed in Ed1. apply add_panel_label_placed in Ed2.
    destruct (IH _ _ _ _ _ _ H1 H2) as (B & HB1 & HB2).
    exists (mkBox (mar + c * (cw + pad)) y (l_width l) (l_height l) :: B).
    rewrite HB1, HB2, Ed1, Ed2. simpl. rewrite <- !app_assoc. simpl.
    split; f_equal; f_equal;
      match goal with
      | |- context [if ?b then _ else _] => destruct b
      end; simpl; rewrite Hw, Hh; reflexivity.
Qed.

(** X1.  Two assemblies of the same panels with the same width, dpi,
    columns, padding and margin give canvases of the same size with the
    panels in the same boxes, whatever the background, the label style and
    the label font of each. *)
Theorem assemble_figure_geometry_independent :
  forall panels tw dpi cols padpt marpt
         bg1 sty1 fam1 fs1 bg2 sty2 fam2 fs2 c1 c2,
    assemble_figure panels tw dpi cols padpt marpt bg1 sty1 fam1 fs1 = Ok c1 ->
    assemble_figure panels tw dpi cols padpt marpt bg2 sty2 fam2 fs2 = Ok c2 ->
    PIL.width c1 = PIL.width c2 /\ PIL.height c1 = PIL.height c2 /\
    placed (PIL.raster c1) = placed (PIL.raster c2).
Proof.
  intros panels tw dpi cols padpt marpt bg1 sty1 fam1 fs1 bg2 sty2 fam2 fs2
    c1 c2 H1 H2.
  apply assemble_figure_Ok in H1.
  destruct H1 as (total & pad & mar & cw & ls & rhs & blank1
                  & _ & Hg & Hs & Hn1 & Hp1).
  apply assemble_figure_Ok in H2.
  destruct H2 as (total' & pad' & mar' & cw' & ls' & rhs' & blank2
                  & _ & Hg' & Hs' & Hn2 & Hp2).
  rewrite Hg in Hg'. injection Hg' as <- <- <- <-.
  rewrite Hs in Hs'. injection Hs' as <- <-.
  destruct (place_panels_same _ _ _ _ _ _ _ _ _ _ _ _ _ _ Hp1) as (_ & Hw1 & Hh1 & _).
  destruct (place_panels_same _ _ _ _ _ _ _ _ _ _ _ _ _ _ Hp2) as (_ & Hw2 & Hh2 & _).
  destruct (place_panels_placed_twice _ _ _ _ _ _ _ _ _ _ _ _ _ _ _ _ _ _ _
              Hp1 Hp2) as (B & HB1 & HB2).
  apply new_Ok in Hn1. apply new_Ok in Hn2. subst blank1 blank2.
  simpl in *. rewrite Hw1, Hw2, Hh1, Hh2, HB1, HB2. auto.
Qed.

Lemma assemble_figure_geometry_independent_witness :
  exists c1 c2,
    assemble_figure Sample.two_panels Sample.f4_0 150 2 10 12
      "white" "A, B, C..." "Arial" 14 = Ok c1 /\
    assemble_figure Sample.two_panels Sample.f4_0 150 2 10 12
      "transparent" "None" "Default" 9 = Ok c2 /\
    PIL.width c1 = PIL.width c2 /\ PIL.height c1 = PIL.height c2 /\
    placed (PIL.raster c1) = placed (PIL.raster c2).
Proof.
  eexists. eexists.
  split; [vm_compute; reflexivity|]. split; [vm_compute; reflexivity|].
  apply (assemble_figure_geometry_independent Sample.two_panels Sample.f4_0
           150 2 10 12 "white" "A, B, C..." "Arial" 14
           "transparent" "None" "Default" 9);
    vm_compute; reflexivity.
Defined.

(** *** Only "transparent" gives an alpha channel *)

(** X2.  The canvas is in mode RGBA exactly when the background is the
    string "transparent"; any other string gives an opaque RGB canvas, and
    any string other than "transparent" and "light_gray" one filled with
    white. *)
Theorem assemble_figure_rgba_iff_transparent :
  forall panels tw dpi cols padpt marpt bg sty fam fs canvas,
    assemble_figure panels tw dpi cols padpt marpt bg sty fam fs = Ok canvas ->
    (PIL.mode canvas = "RGBA"%string <-> bg = "transparent"%string) /\
    (bg <> "transparent"%string -> PIL.mode canvas = "RGB"%string) /\
    (bg <> "transparent"%string -> bg <> "light_gray"%string ->
       background_fill (PIL.raster canvas) = Some [255; 255; 255]).
Proof.
  intros panels tw dpi cols padpt marpt bg sty fam fs canvas H.
  apply assemble_figure_Ok in H.
  destruct H as (total & pad & mar & cw & ls & rhs & blank
                 & _ & _ & _ & Hnew & Hplace).
  apply place_panels_same in Hplace. destruct Hplace as (Hm & _ & _ & Hf).
  apply new_Ok in Hnew. subst blank. simpl in Hm, Hf. rewrite Hm, Hf.
  unfold _get_background_color.
  destruct (String.eqb_spec bg "white") as [->|Hw];
    [repeat split; try discriminate; reflexivity|].
  destruct (String.eqb_spec bg "light_gray") as [->|Hg];
    [repeat split; try discriminate; try reflexivity; congruence|].
  destruct (String.eqb_spec bg "transparent") as [->|Ht].
  - repeat split; try reflexivity; congruence.
  - repeat split; try reflexivity; try discriminate; congruence.
Qed.

Lemma assemble_figure_rgba_iff_transparent_witness :
  exists canvas,
    assemble_figure Sample.two_panels Sample.f4_0 150 2 10 12
      "Transparent" "A, B, C..." "Arial" 14 = Ok canvas /\
    PIL.mode canvas = "RGB"%string /\
    background_fill (PIL.raster canvas) = Some [255; 255; 255].
Proof.
  eexists. split; [vm_compute; reflexivity|].
  destruct (assemble_figure_rgba_iff_transparent Sample.two_panels
              Sample.f4_0 150 2 10 12 "Transparent" "A, B, C..." "Arial" 14
              _ ltac:(vm_compute; reflexivity)) as (_ & Hrgb & Hfill).
  split; [apply Hrgb | apply Hfill]; discriminate.
Defined.

(** *** One label per panel *)

(** A text drawn on a canvas: anchor and string. *)
Record text_op : Type := mkText { t_x : Z; t_y : Z; t_text : string }.

(** The texts drawn on a canvas, in drawing order. *)
Fixpoint drawn_texts (p : PIL.pixels) : list text_op :=
  match p with
  | PIL.Blank _ => []
  | PIL.Source _ => []
  | PIL.Resample _ _ _ => []
  | PIL.Convert _ _ => []
  | PIL.Paste dst _ _ _ _ _ _ => drawn_texts dst
  | PIL.LabelBox dst _ _ _ _ _ => drawn_texts dst
  | PIL.Text dst x y t _ => drawn_texts dst ++ [mkText x y t]
  end.

(** The labels of the boxes [B], numbered from [i]: the text is the label
    of the index, the anchor is the corner of the box moved in by [d]. *)
Inductive labels_match (sty : string) (d : Z)
  : Z -> list box -> list text_op -> Prop :=
| labels_nil i : labels_match sty d i [] []
| labels_cons i b t B T :
    _get_label_text sty i = Ok (t_text t) ->
    t_x t = bx b + d -> t_y t = by_ b + d ->
    labels_match sty d (i + 1) B T ->
    labels_match sty d i (b :: B) (t :: T).

Lemma add_panel_label_none d i x y dpi pad fam fs :
  _add_panel_label d i x y dpi pad "None" fam fs = Ok d.
Proof. reflexivity. Qed.

Lemma add_panel_label_text d i x y dpi pad sty fam fs d' :
  String.eqb sty "None" = false ->
  _add_panel_label d i x y dpi pad sty fam fs = Ok d' ->
  exists t off,
    _get_label_text sty i = Ok t /\
    scaled_padding pad PyFloat.lit_0_3 = Ok off /\
    drawn_texts (PIL.raster d')
    = drawn_texts (PIL.raster d) ++ [mkText (x + off) (y + off) t].
Proof.
  intros Hsty. unfold _add_panel_label. rewrite Hsty. intros H.
  bind_as H t Et. bind_as H dx Ex. bind_as H dy Ey. bind_as H bgp Eb.
  injection H as <-. rewrite Ex in Ey. injection Ey as <-.
  exists t, dx. repeat split; assumption.
Qed.

Lemma place_panels_labels dpi cols pad mar cw sty fam fs rhs ls :
  String.eqb sty "None" = false ->
  forall i y0 d d',
    place_panels dpi cols pad mar cw sty fam fs rhs ls i y0 d = Ok d' ->
    ls = [] \/
    exists off B T,
      scaled_padding pad PyFloat.lit_0_3 = Ok off /\
      placed (PIL.raster d') = placed (PIL.raster d) ++ B /\
      drawn_texts (PIL.raster d') = drawn_texts (PIL.raster d) ++ T /\
      labels_match sty off i B T.
Proof.
  intros Hsty. induction ls as [|l rest IH]; intros i y0 d d' H; [now left|].
  right. simpl in H.
  bind_as H c Ec. bind_as H y Ey. bind_as H r Er. bind_as H d1 Ed.
  pose proof (add_panel_label_placed _ _ _ _ _ _ _ _ _ _ Ed) as Hpl.
  apply (add_panel_label_text _ _ _ _ _ _ _ _ _ _ Hsty) in Ed.
  destruct Ed as (t & off & Et & Eoff & Htx). simpl in Hpl, Htx.
  set (b := mkBox (mar + c * (cw + pad)) y (PIL.width
         (if String.eqb (PIL.mode d) "RGBA"
             && negb (String.eqb (PIL.mode r) "RGBA")
          then PIL.convert r "RGBA" else r))
         (PIL.height
         (if String.eqb (PIL.mode d) "RGBA"
             && negb (String.eqb (PIL.mode r) "RGBA")
          then PIL.convert r "RGBA" else r))) in *.
  assert (Hfirst : labels_match sty off i [b]
                     [mkText (mar + c * (cw + pad) + off) (y + off) t]).
  { constructor; try reflexivity; [exact Et | constructor]. }
  destruct (IH _ _ _ _ H) as [->|(off' & B & T & Eoff' & HB & HT & HM)].
  - simpl in H. injection H as <-.
    exists off, [b], [mkText (mar + c * (cw + pad) + off) (y + off) t].
    repeat split; assumption.
  - rewrite Eoff in Eoff'. injection Eoff' as <-.
    exists off, (b :: B),
      (mkText (mar + c * (cw + pad) + off) (y + off) t :: T).
    rewrite HB, HT, Hpl, Htx, <- !app_assoc. simpl.
    repeat split; try assumption.
    constructor; try reflexivity; assumption.
Qed.

Lemma place_panels_no_labels dpi cols pad mar cw fam fs rhs ls :
  forall i y0 d d',
    place_panels dpi cols pad mar cw "None" fam fs rhs ls i y0 d = Ok d' ->
    drawn_texts (PIL.raster d') = drawn_texts (PIL.raster d).
Proof.
  induction ls as [|l rest IH]; intros i y0 d d' H; simpl in H.
  - injection H as <-. reflexivity.
  - bind_as H c Ec. bind_as H y Ey. bind_as H r Er.
    apply IH in H. rewrite H. reflexivity.
Qed.

(** X3.  With label style "None" no text is drawn on the canvas.  With any
    other style one text is drawn per pasted panel, in panel order: its
    string is [_get_label_text] of the panel's index and its anchor is the
    top-left corner of the panel's box moved right and down by
    [int(padding_px * 0.3)]. *)
Theorem assemble_figure_labels :
  forall panels tw dpi cols padpt marpt bg sty fam fs canvas total pad mar cw,
    assemble_figure panels tw dpi cols padpt marpt bg sty fam fs = Ok canvas ->
    pixel_geometry tw dpi cols padpt marpt = Ok (total, pad, mar, cw) ->
    (sty = "None"%string -> drawn_texts (PIL.raster canvas) = []) /\
    (sty <> "None"%string ->
       exists off,
         scaled_padding pad PyFloat.lit_0_3 = Ok off /\
         labels_match sty off 0 (placed (PIL.raster canvas))
           (drawn_texts (PIL.raster canvas))).
Proof.
  intros panels tw dpi cols padpt marpt bg sty fam fs canvas total pad mar cw
    H Hg.
  apply assemble_figure_Ok in H.
  destruct H as (total' & pad' & mar' & cw' & ls & rhs & blank
                 & Hne & Hg' & Hscale & Hnew & Hplace).
  rewrite Hg in Hg'. injection Hg' as <- <- <- <-.
  apply new_Ok in Hnew. subst blank. split.
  - intros ->. apply place_panels_no_labels in Hplace. exact Hplace.
  - intros Hsty. apply String.eqb_neq in Hsty.
    apply scale_panels_layouts in Hscale. destruct Hscale as (Ls & -> & HF).
    destruct (place_panels_labels _ _ _ _ _ _ _ _ _ _ Hsty _ _ _ _ Hplace)
      as [HLs|(off & B & T & Eoff & HB & HT & HM)].
    + simpl in HLs. subst Ls. inversion HF. congruence.
    + exists off. simpl in HB, HT. rewrite HB, HT. split; assumption.
Qed.

Lemma assemble_figure_labels_witness :
  exists canvas,
    assemble_figure Sample.two_panels Sample.f4_0 150 2 10 12
      "white" "i, ii, iii..." "Arial" 14 = Ok canvas /\
    labels_match "i, ii, iii..." 6 0 (placed (PIL.raster canvas))
      (drawn_texts (PIL.raster canvas)).
Proof.
  eexists. split; [vm_compute; reflexivity|].
  destruct (assemble_figure_labels Sample.two_panels Sample.f4_0 150 2 10 12
              "white" "i, ii, iii..." "Arial" 14 _ 600 20 25 265
              ltac:(vm_compute; reflexivity) ltac:(vm_compute; reflexivity))
    as (_ & Hlab).
  destruct (Hlab ltac:(discriminate)) as (off & Eoff & HM).
  vm_compute in Eoff. injection Eoff as <-. exact HM.
Defined.

(** *** The panels lie inside the margins of the canvas *)

Section RowCount.

Variables cw cols n : Z.
Hypothesis cols_pos : 1 <= cols.

(** The first loop stores one height per row: [ceil(n / cols)] in all. *)
Lemma scale_panels_rows ps : forall i L RH cur L' RH',
  ps <> [] -> 0 <= i -> n = i + Z.of_nat (List.length ps) ->
  Z.of_nat (List.length RH) = i / cols ->
  scale_panels cw cols n ps i L RH cur = Ok (L', RH') ->
  Z.of_nat (List.length RH') = (n - 1) / cols + 1.
Proof.
  induction ps as [|p rest IH]; intros i L RH cur L' RH' Hne Hi Hn Hlen H;
    [congruence|].
  simpl in H. bind_as H h Eh. bind_as H r Er.
  apply mod_Ok in Er. destruct Er as [_ ->].
  destruct rest as [|p2 rest'].
  - simpl in Hn. replace (i + 1 =? n) with true in H
      by (symmetry; apply Z.eqb_eq; lia).
    rewrite orb_true_r in H. simpl in H. injection H as <- <-.
    rewrite length_app. simpl. replace (n - 1) with i by lia. lia.
  - replace (i + 1 =? n) with false in H
      by (symmetry; apply Z.eqb_neq; simpl List.length in Hn; lia).
    rewrite orb_false_r in H.
    destruct ((i + 1) mod cols =? 0) eqn:Em.
    + apply Z.eqb_eq in Em.
      apply IH in H; [exact H | discriminate | lia | | ].
      * simpl List.length in *. lia.
      * rewrite length_app. simpl.
        rewrite (div_succ_full cols cols_pos i Hi Em). lia.
    + apply Z.eqb_neq in Em.
      apply IH in H; [exact H | discriminate | lia | | ].
      * simpl List.length in *. lia.
      * rewrite (div_succ_part cols cols_pos i Hi Em). exact Hlen.
Qed.

End RowCount.

Lemma sum_snoc l x : Py.sum (l ++ [x]) = Py.sum l + x.
Proof. unfold Py.sum. rewrite fold_left_app. reflexivity. Qed.

Lemma row_top_app pad mar l t : forall k,
  (k <= List.length l)%nat -> row_top pad mar (l ++ t) k = row_top pad mar l k.
Proof.
  induction k as [|k IH]; intros Hk; simpl; [reflexivity|].
  rewrite IH by lia. rewrite app_nth1 by lia. reflexivity.
Qed.

(** Below the last row: the margin, the row heights and one padding per
    row. *)
Lemma row_top_all pad mar RH :
  row_top pad mar RH (List.length RH)
  = mar + Py.sum RH + pad * Z.of_nat (List.length RH).
Proof.
  induction RH as [|x l IH] using rev_ind.
  - unfold Py.sum. simpl. lia.
  - rewrite length_app. simpl List.length. rewrite Nat.add_1_r. simpl row_top.
    rewrite row_top_app by lia. rewrite IH.
    rewrite app_nth2 by lia. rewrite Nat.sub_diag. simpl nth.
    rewrite sum_snoc. lia.
Qed.

(** X4.  In an assembly with at least one column, a positive column width
    and non-negative padding, every pasted panel lies inside the frame the
    margin leaves: between [margin_px] and [total_width_px - margin_px]
    across, between [margin_px] and the canvas height less [margin_px]
    down.  With a non-negative margin no panel is clipped by the canvas. *)
Theorem assemble_figure_inside_margins :
  forall panels tw dpi cols padpt marpt bg sty fam fs canvas total pad mar cw,
    assemble_figure panels tw dpi cols padpt marpt bg sty fam fs = Ok canvas ->
    pixel_geometry tw dpi cols padpt marpt = Ok (total, pad, mar, cw) ->
    1 <= cols -> 0 < cw -> 0 <= pad ->
    PIL.width canvas = total /\
    forall b, In b (placed (PIL.raster canvas)) ->
      mar <= bx b /\ bx b + bw b <= PIL.width canvas - mar /\
      mar <= by_ b /\ by_ b + bh b <= PIL.height canvas - mar.
Proof.
  intros panels tw dpi cols padpt marpt bg sty fam fs canvas total pad mar cw
    H Hg Hcols Hcw Hpad.
  apply assemble_figure_Ok in H.
  destruct H as (total' & pad' & mar' & cw' & ls & rhs & blank
                 & Hne & Hg' & Hscale & Hnew & Hplace).
  rewrite Hg in Hg'. injection Hg' as <- <- <- <-.
  pose proof (scale_panels_covered cw cols (Z.of_nat (List.length panels))
                Hcols panels 0 [] [] 0 ls rhs
                Hne ltac:(lia) ltac:(lia) (loop_inv_start cw cols) Hscale)
    as [Hnn Hcov].
  pose proof (scale_panels_rows cw cols (Z.of_nat (List.length panels))
                Hcols panels 0 [] [] 0 ls rhs
                Hne ltac:(lia) ltac:(lia)
                ltac:(simpl; rewrite Z.div_0_l; lia) Hscale) as Hrows.
  apply scale_panels_layouts in Hscale. destruct Hscale as (Ls & -> & HF).
  change ([] ++ Ls) with Ls in *.
  pose proof (place_panels_same _ _ _ _ _ _ _ _ _ _ _ _ _ _ Hplace)
    as (_ & Hw & Hh & _).
  apply (place_panels_placed dpi cols pad mar cw sty fam fs rhs Hcols) in Hplace;
    [|lia|].
  2:{ replace (Z.to_nat ((0 - 1) / cols)) with 0%nat; [reflexivity|].
      assert ((0 - 1) / cols < 0) by (apply Z.div_lt_upper_bound; lia). lia. }
  apply new_Ok in Hnew. subst blank.
  cbn [PIL.width PIL.height PIL.raster placed app] in Hplace, Hw, Hh.
  rewrite Hplace, Hw, Hh. split; [reflexivity|].
  intros b Hb. apply In_nth_error in Hb. destruct Hb as [k Hk].
  apply boxes_from_nth in Hk. destruct Hk as (l & Hl & ->).
  destruct (Hcov k l Hl) as [Hwl Hhl]. unfold row_of in Hhl.
  assert (Hklen : (k < List.length Ls)%nat)
    by (apply nth_error_Some; congruence).
  rewrite (Forall2_length HF) in Hrows.
  apply pixel_geometry_col_width in Hg. destruct Hg as [_ Hcwdef].
  unfold box_at. cbn [bx by_ bw bh].
  replace (0 + Z.of_nat k) with (Z.of_nat k) by lia.
  assert (Hc : 0 <= Z.of_nat k mod cols < cols)
    by (apply Z.mod_pos_bound; lia).
  assert (Hq : 0 <= Z.of_nat k / cols) by (apply Z.div_pos; lia).
  assert (Hr : Z.of_nat k / cols <= (Z.of_nat (List.length Ls) - 1) / cols)
    by (apply Z.div_le_mono; lia).
  pose proof (Z.mul_div_le (total - 2 * mar - pad * (cols - 1)) cols
                ltac:(lia)) as Hfloor.
  rewrite <- Hcwdef in Hfloor.
  split; [nia|]. split; [rewrite Hwl; nia|].
  split.
  - apply (row_top_mono pad mar rhs Hpad Hnn 0). lia.
  - pose proof (row_top_mono pad mar rhs Hpad Hnn
                  (S (Z.to_nat (Z.of_nat k / cols))) (List.length rhs)
                  ltac:(lia)) as Hb2.
    rewrite row_top_all in Hb2.
    change (row_top pad mar rhs (S (Z.to_nat (Z.of_nat k / cols))))
      with (row_top pad mar rhs (Z.to_nat (Z.of_nat k / cols))
            + (nth (Z.to_nat (Z.of_nat k / cols)) rhs 0 + pad)) in Hb2.
    lia.
Qed.

Lemma assemble_figure_inside_margins_witness :
  exists canvas,
    assemble_figure Sample.two_panels Sample.f4_0 150 2 10 12
      "white" "A, B, C..." "Arial" 14 = Ok canvas /\
    PIL.width canvas = 600 /\
    forall b, In b (placed (PIL.raster canvas)) ->
      25 <= bx b /\ bx b + bw b <= PIL.width canvas - 25 /\
      25 <= by_ b /\ by_ b + bh b <= PIL.height canvas - 25.
Proof.
  eexists. split; [vm_compute; reflexivity|].
  apply (assemble_figure_inside_margins Sample.two_panels Sample.f4_0 150 2
           10 12 "white" "A, B, C..." "Arial" 14 _ 600 20 25 265);
    try lia; vm_compute; reflexivity.
Defined.

(** *** Non-negative inputs give non-negative pixel quantities *)

(** A double that is not below zero (NaN aside). *)
Definition not_negative (x : PyFloat.float) : Prop :=
  match x with
  | S754_finite s _ _ => s = false
  | S754_infinity s => s = false
  | _ => True
  end.

Lemma binary_round_aux_sign s m e l :
  match binary_round_aux PyFloat.prec PyFloat.emax s m e l with
  | S754_zero s' => s' = s
  | S754_infinity s' => s' = s
  | S754_finite s' _ _ => s' = s
  | S754_nan => True
  end.
Proof.
  unfold binary_round_aux.
  destruct (shr_fexp PyFloat.prec PyFloat.emax m e l) as [mrs e1].
  destruct (shr_fexp PyFloat.prec PyFloat.emax
              (round_nearest_even (shr_m mrs) (loc_of_shr_record mrs)) e1
              loc_Exact) as [mrs2 e2].
  destruct (shr_m mrs2); [reflexivity | | exact I].
  destruct (e2 <=? PyFloat.emax - PyFloat.prec); reflexivity.
Qed.

Lemma binary_round_aux_not_negative m e l :
  not_negative (binary_round_aux PyFloat.prec PyFloat.emax false m e l).
Proof.
  pose proof (binary_round_aux_sign false m e l) as H.
  destruct (binary_round_aux PyFloat.prec PyFloat.emax false m e l);
    simpl; auto.
Qed.

Lemma of_int_not_negative n x :
  0 <= n -> PyFloat.of_int n = Ok x -> not_negative x.
Proof.
  intros Hn. unfold PyFloat.of_int, binary_normalize.
  destruct n as [|p|p]; try lia.
  - intros H; injection H as <-. exact I.
  - unfold binary_round.
    destruct (shl_align p 0
                (fexp PyFloat.prec PyFloat.emax (Z.pos (digits2_pos p) + 0)))
      as [mz ez].
    pose proof (binary_round_aux_not_negative (Z.pos mz) ez loc_Exact) as Hs.
    destruct (binary_round_aux PyFloat.prec PyFloat.emax false (Z.pos mz) ez
                loc_Exact); intros H; try discriminate;
      injection H as <-; exact Hs.
Qed.

Lemma mul_not_negative x y :
  not_negative x -> not_negative y -> not_negative (PyFloat.mul x y).
Proof.
  unfold PyFloat.mul.
  destruct x as [sx|sx| |sx mx ex], y as [sy|sy| |sy my ey]; simpl;
    intros Hx Hy; subst; try exact I; try reflexivity.
  apply binary_round_aux_not_negative.
Qed.

Lemma truediv_not_negative a b x :
  0 <= a -> 0 < b -> PyFloat.truediv a b = Ok x -> not_negative x.
Proof.
  intros Ha Hb. unfold PyFloat.truediv.
  destruct (b =? 0); [discriminate|].
  destruct (a =? 0); [intros H; injection H as <-; exact I|].
  destruct (SFdiv_core_binary PyFloat.prec PyFloat.emax (Z.abs a) 0
              (Z.abs b) 0) as [[q e] l].
  replace (a <? 0) with false by (symmetry; apply Z.ltb_ge; lia).
  replace (b <? 0) with false by (symmetry; apply Z.ltb_ge; lia).
  pose proof (binary_round_aux_not_negative q e l) as Hs. simpl xorb.
  destruct (binary_round_aux PyFloat.prec PyFloat.emax false q e l);
    intros H; try discriminate; injection H as <-; exact Hs.
Qed.

Lemma to_int_not_negative x z :
  not_negative x -> PyFloat.to_int x = Ok z -> 0 <= z.
Proof.
  intros Hx H. apply to_int_trunc in H. subst z.
  unfold Exact.trunc_div, Exact.num, Exact.den.
  destruct x as [s|s| |s m e]; try (rewrite Z.quot_1_r; lia).
  unfold not_negative in Hx. subst s.
  assert (Hp : 0 < 2 ^ Z.abs e) by (apply Z.pow_pos_nonneg; lia).
  destruct (0 <=? e) eqn:E.
  - apply Z.leb_le in E. rewrite Z.quot_1_r.
    apply Z.mul_nonneg_nonneg; [lia|]. apply Z.pow_nonneg. lia.
  - apply Z.leb_gt in E. apply Z.quot_pos; [lia|].
    apply Z.pow_pos_nonneg; lia.
Qed.

Lemma points_to_px_nonneg points dpi px :
  0 <= points -> 0 <= dpi -> points_to_px points dpi = Ok px -> 0 <= px.
Proof.
  intros Hp Hd. unfold points_to_px, PyFloat.mul_int. intros H.
  bind_as H q Eq. bind_as H p Ep. bind_as Ep d Ed. injection Ep as <-.
  apply to_int_not_negative in H; [exact H|].
  apply mul_not_negative.
  - apply (truediv_not_negative points 72); [exact Hp | lia | exact Eq].
  - apply (of_int_not_negative dpi); assumption.
Qed.

(** X5.  For a target width that is not negative and non-negative dpi,
    padding and margin (in points), the total width, the padding and the
    margin in pixels are non-negative; and a panel with non-negative sides
    in a column of non-negative width gets a non-negative scaled height. *)
Theorem pixel_quantities_nonneg :
  forall tw dpi cols padpt marpt total pad mar cw,
    not_negative tw -> 0 <= dpi -> 0 <= padpt -> 0 <= marpt ->
    pixel_geometry tw dpi cols padpt marpt = Ok (total, pad, mar, cw) ->
    0 <= total /\ 0 <= pad /\ 0 <= mar /\
    forall im h,
      0 <= cw -> 0 <= PIL.width im -> 0 <= PIL.height im ->
      scaled_height cw im = Ok h -> 0 <= h.
Proof.
  intros tw dpi cols padpt marpt total pad mar cw Htw Hdpi Hpad Hmar H.
  unfold pixel_geometry in H.
  bind_as H w Ew. bind_as H t Et. bind_as H p Ep. bind_as H m Em.
  bind_as H c Ec. injection H as <- <- <- <-.
  unfold PyFloat.mul_int in Ew. bind_as Ew d Ed. injection Ew as <-.
  split.
  { apply (to_int_not_negative _ _ (mul_not_negative _ _ Htw
             (of_int_not_negative dpi d Hdpi Ed)) Et). }
  split; [apply (points_to_px_nonneg padpt dpi); assumption|].
  split; [apply (points_to_px_nonneg marpt dpi); assumption|].
  intros im h Hc Hw Hh Hs. unfold scaled_height, PyFloat.int_mul in Hs.
  bind_as Hs scale Es. bind_as Hs prod Epr. bind_as Epr fh Efh.
  injection Epr as <-.
  pose proof (truediv_Ok_divisor _ _ _ Es) as Hw0.
  apply to_int_not_negative in Hs; [exact Hs|].
  apply mul_not_negative.
  - apply (of_int_not_negative (PIL.height im)); assumption.
  - apply (truediv_not_negative c (PIL.width im)); [exact Hc | lia | exact Es].
Qed.

Lemma pixel_quantities_nonneg_witness :
  0 <= 600 /\ 0 <= 20 /\ 0 <= 25 /\
  forall im h,
    0 <= 265 -> 0 <= PIL.width im -> 0 <= PIL.height im ->
    scaled_height 265 im = Ok h -> 0 <= h.
Proof.
  apply (pixel_quantities_nonneg Sample.f4_0 150 2 10 12 600 20 25 265);
    try lia; [reflexivity | vm_compute; reflexivity].
Defined.

(** *** The legacy layout computes the geometry of the assembler *)

(** The box a finished legacy layout describes. *)
Definition legacy_box (ll : Layout.legacy_layout) : option box :=
  match Layout.y ll with
  | Some y => Some (mkBox (Layout.x ll) y (Layout.width ll) (Layout.height ll))
  | None => None
  end.

Lemma floordiv_nonzero a b : b <> 0 -> Py.floordiv a b = Ok (a / b).
Proof.
  intros H. unfold Py.floordiv.
  replace (b =? 0) with false by (symmetry; apply Z.eqb_neq; exact H).
  reflexivity.
Qed.

Lemma mod_nonzero a b : b <> 0 -> Py.mod_ a b = Ok (a mod b).
Proof.
  intros H. unfold Py.mod_.
  replace (b =? 0) with false by (symmetry; apply Z.eqb_neq; exact H).
  reflexivity.
Qed.

Section LegacyAgrees.

Variables cols pad mar cw : Z.
Hypothesis cols_pos : 1 <= cols.

(** The legacy record the first loop of [create_legacy_layout] builds for
    the layout [l] at index [i]. *)
Definition legacy_of (i : Z) (l : layout) : Layout.legacy_layout :=
  Layout.mkLegacy (l_width l) (l_height l) (l_image l)
    (mar + (i mod cols) * (cw + pad)) (i / cols) (i mod cols) None.

Fixpoint legacy_from (i : Z) (ls : list layout) : list Layout.legacy_layout :=
  match ls with
  | [] => []
  | l :: rest => legacy_of i l :: legacy_from (i + 1) rest
  end.

Lemma legacy_from_snoc ls : forall i l,
  legacy_from i (ls ++ [l])
  = legacy_from i ls ++ [legacy_of (i + Z.of_nat (List.length ls)) l].
Proof.
  induction ls as [|a ls IH]; intros i l; cbn [legacy_from app List.length].
  - replace (i + Z.of_nat 0) with i by lia. reflexivity.
  - rewrite IH.
    replace (i + 1 + Z.of_nat (List.length ls))
      with (i + Z.of_nat (S (List.length ls))) by lia.
    reflexivity.
Qed.

Lemma legacy_scale_agrees n ps : forall i L RH cur L' RH',
  Z.of_nat (List.length L) = i ->
  scale_panels cw cols n ps i L RH cur = Ok (L', RH') ->
  Layout.legacy_scale cw cols pad mar n ps i (legacy_from 0 L) RH cur
  = Ok (legacy_from 0 L', RH').
Proof.
  induction ps as [|p rest IH]; intros i L RH cur L' RH' Hlen H; simpl in H.
  - injection H as <- <-. reflexivity.
  - bind_as H h Eh. bind_as H r Er.
    apply mod_Ok in Er. destruct Er as [_ ->].
    cbn [Layout.legacy_scale]. rewrite Eh. cbn [Py.bind].
    rewrite floordiv_nonzero, !mod_nonzero by lia. cbn [Py.bind].
    assert (Hsnoc : legacy_from 0 L
                    ++ [Layout.mkLegacy cw h (pil_image p)
                          (mar + i mod cols * (cw + pad)) (i / cols)
                          (i mod cols) None]
                    = legacy_from 0 (L ++ [mkLayout cw h (pil_image p)])).
    { rewrite legacy_from_snoc. rewrite Hlen. reflexivity. }
    rewrite Hsnoc.
    destruct (((i + 1) mod cols =? 0) || (i + 1 =? n));
      apply IH; try exact H; rewrite length_app; simpl; lia.
Qed.

Lemma legacy_place_agrees dpi sty fam fs rhs ls : forall i y0 d d',
  0 <= i ->
  place_panels dpi cols pad mar cw sty fam fs rhs ls i y0 d = Ok d' ->
  exists LL B,
    Layout.legacy_place cols pad rhs (legacy_from i ls) i y0 = Ok LL /\
    placed (PIL.raster d') = placed (PIL.raster d) ++ B /\
    map legacy_box LL = map Some B.
Proof.
  induction ls as [|l rest IH]; intros i y0 d d' Hi H; simpl in H.
  - injection H as <-. exists [], []. rewrite app_nil_r. repeat split.
  - bind_as H c Ec. apply mod_Ok in Ec. destruct Ec as [_ ->].
    bind_as H y Ey. bind_as H r Er. apply resize_Ok in Er.
    destruct Er as [Hw Hh]. bind_as H d1 Ed.
    apply add_panel_label_placed in Ed.
    destruct (IH (i + 1) _ _ _ ltac:(lia) H) as (LL & B & HLL & HB & Hmap).
    assert (Hy : (r0 <- (if 0 <? i / cols then Py.mod_ i cols else Ok 1) ;;
                  (if (0 <? i / cols) && (r0 =? 0)
                   then h <- Py.getitem rhs (i / cols - 1) ;;
                        Ok (y0 + (h + pad))
                   else Ok y0)) = Ok y).
    { rewrite mod_nonzero by lia.
      rewrite floordiv_nonzero in Ey by lia. cbn [Py.bind] in Ey.
      pose proof (Z.div_mod i cols ltac:(lia)) as Hdm.
      pose proof (Z.mod_pos_bound i cols ltac:(lia)) as Hmb.
      assert (Hq : 0 <= i / cols) by (apply Z.div_pos; lia).
      destruct (0 <? i / cols) eqn:Eq; cbn [Py.bind andb].
      - apply Z.ltb_lt in Eq.
        replace (0 <? i) with true in Ey by (symmetry; apply Z.ltb_lt; nia).
        rewrite andb_true_r in Ey. exact Ey.
      - apply Z.ltb_ge in Eq.
        destruct (i mod cols =? 0) eqn:Em; cbn [andb] in Ey; [|exact Ey].
        apply Z.eqb_eq in Em.
        replace (0 <? i) with false in Ey
          by (symmetry; apply Z.ltb_ge; nia).
        exact Ey. }
    simpl. apply bind_Ok in Hy. destruct Hy as (r0 & Er0 & Hy).
    rewrite Er0. simpl. rewrite Hy. simpl. rewrite HLL. simpl.
    eexists _, (mkBox (mar + i mod cols * (cw + pad)) y (l_width l)
                  (l_height l) :: B).
    split; [reflexivity|]. split.
    + rewrite HB, Ed. simpl. rewrite <- app_assoc. simpl. f_equal. f_equal.
      match goal with
      | |- context [if ?b then _ else _] => destruct b
      end; simpl; rewrite Hw, Hh; reflexivity.
    + simpl. f_equal. exact Hmap.
Qed.

End LegacyAgrees.

(** X6.  Whenever [assemble_figure] returns a canvas with at least one
    column, [create_legacy_layout] on the same panels and parameters
    succeeds and returns the width and the height of that canvas and, for
    each panel in order, the position and the size of the box the
    assembler pasted it in. *)
Theorem create_legacy_layout_agrees :
  forall panels tw dpi cols padpt marpt bg sty fam fs canvas,
    assemble_figure panels tw dpi cols padpt marpt bg sty fam fs = Ok canvas ->
    1 <= cols ->
    exists layouts,
      Layout.create_legacy_layout panels tw dpi cols padpt marpt
      = Ok (PIL.width canvas, PIL.height canvas, layouts) /\
      map legacy_box layouts = map Some (placed (PIL.raster canvas)).
Proof.
  intros panels tw dpi cols padpt marpt bg sty fam fs canvas H Hcols.
  apply assemble_figure_Ok in H.
  destruct H as (total & pad & mar & cw & ls & rhs & blank
                 & Hne & Hg & Hscale & Hnew & Hplace).
  pose proof (place_panels_same _ _ _ _ _ _ _ _ _ _ _ _ _ _ Hplace)
    as (_ & Hw & Hh & _).
  apply (legacy_scale_agrees cols pad mar cw Hcols) in Hscale; [|reflexivity].
  apply (legacy_place_agrees cols pad mar cw Hcols) in Hplace; [|lia].
  destruct Hplace as (LL & B & HLL & HB & Hmap).
  apply new_Ok in Hnew. subst blank.
  cbn [PIL.width PIL.height PIL.raster placed app] in HB, Hw, Hh.
  exists LL. rewrite HB, Hw, Hh. split; [|exact Hmap].
  unfold Layout.create_legacy_layout.
  destruct panels as [|p ps]; [congruence|].
  rewrite Hg. cbn [Py.bind]. cbn [legacy_from] in Hscale.
  rewrite Hscale. cbn [Py.bind]. rewrite HLL. reflexivity.
Qed.

Lemma create_legacy_layout_agrees_witness :
  exists canvas layouts,
    assemble_figure Sample.two_panels Sample.f4_0 150 2 10 12
      "white" "A, B, C..." "Arial" 14 = Ok canvas /\
    Layout.create_legacy_layout Sample.two_panels Sample.f4_0 150 2 10 12
    = Ok (PIL.width canvas, PIL.height canvas, layouts) /\
    map legacy_box layouts = map Some (placed (PIL.raster canvas)).
Proof.
  assert (Ha : exists c, assemble_figure Sample.two_panels Sample.f4_0 150 2
                 10 12 "white" "A, B, C..." "Arial" 14 = Ok c)
    by (eexists; vm_compute; reflexivity).
  destruct Ha as [c Ha].
  destruct (create_legacy_layout_agrees _ _ _ _ _ _ _ _ _ _ _ Ha ltac:(lia))
    as (layouts & Hl & Hm).
  exists c, layouts. repeat split; assumption.
Defined.

(** *** Overlays of one canvas are independent of each other *)

Lemma with_texts_frame f annotations : forall im,
  same_canvas im (with_texts f annotations im) /\
  placed (PIL.raster (with_texts f annotations im)) = placed (PIL.raster im) /\
  drawn_texts (PIL.raster (with_texts f annotations im))
  = drawn_texts (PIL.raster im)
    ++ map (fun a => mkText (a_x a) (a_y a) (a_text a)) annotations.
Proof.
  unfold with_texts.
  induction annotations as [|a rest IH]; intros im; simpl.
  - rewrite app_nil_r. split; [apply same_canvas_refl | split; reflexivity].
  - destruct (IH (PIL.text im (a_x a) (a_y a) (a_text a) f))
      as (Hs & Hp & Ht).
    split; [|split].
    + eapply same_canvas_trans; [|exact Hs]. repeat split.
    + rewrite Hp. reflexivity.
    + rewrite Ht. simpl. rewrite <- app_assoc. reflexivity.
Qed.

(** A call with a non-empty annotation list: the object returned is new,
    the objects of the store are untouched. *)
Lemma apply_annotations_fresh annotations (s : store) (image : ref) canvas
    fam pt dpi :
  deref s image = Some canvas -> annotations <> [] ->
  exists s' annotated,
    apply_annotations annotations s image fam pt dpi = Some (s', annotated) /\
    (forall q, (q < List.length s)%nat -> deref s' q = deref s q) /\
    deref s' image = Some canvas /\
    annotated <> image /\ annotated = List.length s /\
    deref s' annotated
    = Some (with_texts (_get_annotation_font fam pt dpi) annotations canvas).
Proof.
  intros Himg Hne.
  assert (Hlen : (image < List.length s)%nat).
  { apply nth_error_Some. unfold deref in Himg. congruence. }
  destruct annotations as [|anno rest]; [congruence|].
  unfold apply_annotations, copy. rewrite Himg.
  set (f := _get_annotation_font fam pt dpi).
  destruct (draw_texts_on f (anno :: rest) (s ++ [canvas]) (List.length s)
              canvas (deref_app_new s canvas)) as [H1 H2].
  eexists _, _. split; [reflexivity|].
  split; [|split; [|split; [|split]]].
  - intros q Hq. rewrite H2 by lia. apply deref_app_old; exact Hq.
  - rewrite H2 by lia. rewrite deref_app_old by exact Hlen. exact Himg.
  - lia.
  - reflexivity.
  - exact H1.
Qed.

(** X7.  The image [apply_annotations] returns for a non-empty annotation
    list has the mode, the size, the background and the panel boxes of the
    canvas it was given, and its texts are those of the canvas followed by
    the annotations in insertion order, each at its stored coordinates. *)
Theorem apply_annotations_draws_in_order :
  forall annotations (s : store) (image : ref) canvas fam pt dpi,
    deref s image = Some canvas -> annotations <> [] ->
    exists s' annotated result,
      apply_annotations annotations s image fam pt dpi = Some (s', annotated) /\
      deref s' annotated = Some result /\
      same_canvas canvas result /\
      placed (PIL.raster result) = placed (PIL.raster canvas) /\
      drawn_texts (PIL.raster result)
      = drawn_texts (PIL.raster canvas)
        ++ map (fun a => mkText (a_x a) (a_y a) (a_text a)) annotations.
Proof.
  intros annotations s image canvas fam pt dpi Himg Hne.
  destruct (apply_annotations_fresh annotations s image canvas fam pt dpi
              Himg Hne) as (s' & annotated & Happ & _ & _ & _ & _ & Hres).
  destruct (with_texts_frame (_get_annotation_font fam pt dpi) annotations
              canvas) as (Hs & Hp & Ht).
  exists s', annotated,
    (with_texts (_get_annotation_font fam pt dpi) annotations canvas).
  split; [exact Happ|]. split; [exact Hres|]. split; [exact Hs|].
  split; assumption.
Qed.

Lemma apply_annotations_draws_in_order_witness :
  exists s' annotated result,
    apply_annotations [mkAnnotation "a" 5 6; mkAnnotation "b" 7 8]
      [Sample.rgb 600 845 0] 0%nat "Arial" 12 300 = Some (s', annotated) /\
    deref s' annotated = Some result /\
    drawn_texts (PIL.raster result) = [mkText 5 6 "a"; mkText 7 8 "b"].
Proof.
  destruct (apply_annotations_draws_in_order
              [mkAnnotation "a" 5 6; mkAnnotation "b" 7 8]
              [Sample.rgb 600 845 0] 0%nat (Sample.rgb 600 845 0)
              "Arial" 12 300 eq_refl ltac:(discriminate))
    as (s' & annotated & result & H & Hd & _ & _ & Ht).
  exists s', annotated, result. repeat split; assumption.
Defined.

(** X8.  Two overlays of the same canvas, each with a non-empty annotation
    list, give two distinct fresh objects; after the second call the canvas
    is still what it was, the first overlay still shows only the first
    annotations and the second shows only the second ones. *)
Theorem apply_annotations_twice_independent :
  forall annos1 annos2 (s : store) (image : ref) canvas fam pt dpi,
    deref s image = Some canvas -> annos1 <> [] -> annos2 <> [] ->
    exists s1 r1 s2 r2,
      apply_annotations annos1 s image fam pt dpi = Some (s1, r1) /\
      apply_annotations annos2 s1 image fam pt dpi = Some (s2, r2) /\
      r1 <> image /\ r2 <> image /\ r1 <> r2 /\
      deref s2 image = Some canvas /\
      deref s2 r1
      = Some (with_texts (_get_annotation_font fam pt dpi) annos1 canvas) /\
      deref s2 r2
      = Some (with_texts (_get_annotation_font fam pt dpi) annos2 canvas).
Proof.
  intros annos1 annos2 s image canvas fam pt dpi Himg Hne1 Hne2.
  destruct (apply_annotations_fresh annos1 s image canvas fam pt dpi Himg
              Hne1)
    as (s1 & r1 & H1 & Hold1 & Hbase1 & Hr1 & Hr1len & Hres1).
  destruct (apply_annotations_fresh annos2 s1 image canvas fam pt dpi Hbase1
              Hne2)
    as (s2 & r2 & H2 & Hold2 & Hbase2 & Hr2 & Hr2len & Hres2).
  assert (Hlen1 : (r1 < List.length s1)%nat).
  { apply nth_error_Some. unfold deref in Hres1. congruence. }
  exists s1, r1, s2, r2. repeat split; try assumption.
  - lia.
  - rewrite Hold2 by exact Hlen1. exact Hres1.
Qed.

Lemma apply_annotations_twice_independent_witness :
  exists s1 r1 s2 r2,
    apply_annotations [mkAnnotation "a" 5 6] [Sample.rgb 600 845 0] 0%nat
      "Arial" 12 300 = Some (s1, r1) /\
    apply_annotations [mkAnnotation "b" 7 8] s1 0%nat "Arial" 12 300
    = Some (s2, r2) /\
    r1 <> r2 /\ deref s2 0%nat = Some (Sample.rgb 600 845 0).
Proof.
  destruct (apply_annotations_twice_independent
              [mkAnnotation "a" 5 6] [mkAnnotation "b" 7 8]
              [Sample.rgb 600 845 0] 0%nat (Sample.rgb 600 845 0)
              "Arial" 12 300 eq_refl ltac:(discriminate) ltac:(discriminate))
    as (s1 & r1 & s2 & r2 & H1 & H2 & _ & _ & Hne & Hb & _).
  exists s1, r1, s2, r2. repeat split; assumption.
Defined.

(** ** Figmaker.py: editing the panel list *)

Module FigureAssemblerApp.

(** A panel of the application: the identity of its image object, the
    image, the display name and the path it was loaded from. *)
Record gui_panel : Type := mkGuiPanel {
  id : Z;
  gui_image : PIL.image;
  gui_name : string;
  gui_path : string
}.

(** [l.pop(k)]: a negative index counts from the end, an index out of
    range raises [IndexError]. *)
Definition pop {A : Type} (l : list A) (k : Z) : result (A * list A) :=
  let n := Z.of_nat (List.length l) in
  let k' := if k <? 0 then k + n else k in
  if (k' <? 0) || (n <=? k') then Raise IndexError
  else match nth_error l (Z.to_nat k') with
       | Some a =>
           Ok (a, firstn (Z.to_nat k') l ++ skipn (S (Z.to_nat k')) l)
       | None => Raise IndexError
       end.

(** [l.insert(k, x)]: a negative index counts from the end; an index
    before the start or past the end is clamped. *)
Definition insert {A : Type} (l : list A) (k : Z) (x : A) : list A :=
  let n := Z.of_nat (List.length l) in
  let k' := if k <? 0 then Z.max 0 (k + n) else Z.min k n in
  firstn (Z.to_nat k') l ++ x :: skipn (Z.to_nat k') l.

(** [move_panel]: the list after the call. *)
Definition move_panel (panels : list gui_panel) (index direction : Z)
  : result (list gui_panel) :=
  if ((index =? 0) && (direction =? -1))
     || ((index =? Z.of_nat (List.length panels) - 1) && (direction =? 1))
  then Ok panels
  else
    pr <- pop panels index ;;
    let '(panel, rest) := pr in
    Ok (insert rest (index + direction) panel).


End FigureAssemblerApp.

Section MovePanel.

Import FigureAssemblerApp.

Lemma firstn_length_app {A : Type} (a b : list A) :
  firstn (List.length a) (a ++ b) = a.
Proof.
  rewrite firstn_app, Nat.sub_diag, firstn_all. simpl. apply app_nil_r.
Qed.

Lemma skipn_length_app {A : Type} (a b : list A) :
  skipn (List.length a) (a ++ b) = b.
Proof.
  rewrite skipn_app, Nat.sub_diag, skipn_all. reflexivity.
Qed.

Lemma pop_middle {A : Type} (a b : list A) (x : A) :
  pop (a ++ x :: b) (Z.of_nat (List.length a)) = Ok (x, a ++ b).
Proof.
  assert (E1 : (Z.of_nat (List.length a) <? 0) = false)
    by (apply Z.ltb_ge; lia).
  assert (E2 : (Z.of_nat (List.length (a ++ x :: b))
                <=? Z.of_nat (List.length a)) = false)
    by (apply Z.leb_gt; rewrite length_app; simpl; lia).
  unfold pop. rewrite E1. cbv iota. rewrite E1, E2. cbn [orb]. cbv iota.
  rewrite Nat2Z.id.
  rewrite nth_error_app2 by lia. rewrite Nat.sub_diag. cbn [nth_error].
  rewrite firstn_length_app.
  replace (S (List.length a)) with (List.length (a ++ [x]))
    by (rewrite length_app; simpl; lia).
  replace (a ++ x :: b) with ((a ++ [x]) ++ b)
    by (rewrite <- app_assoc; reflexivity).
  rewrite skipn_length_app. reflexivity.
Qed.

Lemma insert_middle {A : Type} (a b : list A) (x : A) :
  insert (a ++ b) (Z.of_nat (List.length a)) x = a ++ x :: b.
Proof.
  assert (E1 : (Z.of_nat (List.length a) <? 0) = false)
    by (apply Z.ltb_ge; lia).
  unfold insert. rewrite E1. cbv iota. rewrite length_app.
  replace (Z.min (Z.of_nat (List.length a))
             (Z.of_nat (List.length a + List.length b)))
    with (Z.of_nat (List.length a)) by lia.
  rewrite Nat2Z.id, firstn_length_app, skipn_length_app. reflexivity.
Qed.

(** X9.  [move_panel] with direction +1 swaps the panel with the one after
    it, with direction -1 with the one before it; moving the first panel
    up or the last panel down leaves the list as it is.  No panel is lost
    or duplicated. *)
Theorem move_panel_swaps_neighbours :
  forall (a b : list gui_panel) (p q : gui_panel) (l : list gui_panel),
    move_panel (a ++ p :: q :: b) (Z.of_nat (List.length a)) 1
    = Ok (a ++ q :: p :: b) /\
    move_panel (a ++ q :: p :: b) (Z.of_nat (List.length a) + 1) (-1)
    = Ok (a ++ p :: q :: b) /\
    move_panel l 0 (-1) = Ok l /\
    move_panel l (Z.of_nat (List.length l) - 1) 1 = Ok l.
Proof.
  intros a b p q l. split; [|split; [|split]].
  - unfold move_panel. rewrite length_app. simpl List.length.
    replace (Z.of_nat (List.length a)
             =? Z.of_nat (List.length a + S (S (List.length b))) - 1)
      with false by (symmetry; apply Z.eqb_neq; lia).
    rewrite andb_false_r, orb_false_r. cbv iota.
    rewrite pop_middle. cbn [Py.bind].
    replace (a ++ q :: b) with ((a ++ [q]) ++ b)
      by (rewrite <- app_assoc; reflexivity).
    replace (Z.of_nat (List.length a) + 1)
      with (Z.of_nat (List.length (a ++ [q])))
      by (rewrite length_app; simpl; lia).
    rewrite insert_middle, <- app_assoc. reflexivity.
  - unfold move_panel. rewrite length_app. simpl List.length.
    replace (Z.of_nat (List.length a) + 1 =? 0) with false
      by (symmetry; apply Z.eqb_neq; lia).
    rewrite andb_false_r, orb_false_l.
    replace (a ++ q :: p :: b) with ((a ++ [q]) ++ p :: b)
      by (rewrite <- app_assoc; reflexivity).
    replace (Z.of_nat (List.length a) + 1)
      with (Z.of_nat (List.length (a ++ [q])))
      by (rewrite length_app; simpl; lia).
    rewrite pop_middle. cbn [Py.bind].
    replace (Z.of_nat (List.length (a ++ [q])) + -1)
      with (Z.of_nat (List.length a))
      by (rewrite length_app; simpl; lia).
    rewrite <- app_assoc. cbn [app].
    apply f_equal. apply (insert_middle a (q :: b) p).
  - unfold move_panel. simpl. reflexivity.
  - unfold move_panel. rewrite Z.eqb_refl. simpl andb.
    rewrite orb_true_r. reflexivity.
Qed.


End MovePanel.

(** ** figmaker/layout.py: the grid of [build_canvas] *)

Module Grid.

(** [divmod(a, b)]. *)
Definition divmod (a b : Z) : result (Z * Z) :=
  if b =? 0 then Raise ZeroDivisionError else Ok (a / b, a mod b).

(** [range(n)]. *)
Definition range (n : Z) : list Z := map Z.of_nat (seq 0 (Z.to_nat n)).

(** One axes of the figure: its grid cell and the label written beside it,
    if any. *)
Record axes : Type := mkAxes {
  ax_row : Z;
  ax_col : Z;
  ax_label : option string
}.

(** The loop "Create axes for each panel". *)
Fixpoint make_axes (cols : Z) (label_style : string) (indices : list Z)
  : result (list axes) :=
  match indices with
  | [] => Ok []
  | i :: rest =>
      rc <- divmod i cols ;;
      let '(row, col) := rc in
      label <-
        (if negb (String.eqb label_style "None")
         then t <- Layout._get_label_text label_style i ;; Ok (Some t)
         else Ok None) ;;
      rest <- make_axes cols label_style rest ;;
      Ok (mkAxes row col label :: rest)
  end.

(** [build_canvas]: the shape of the grid (rows, columns) and the axes
    created in it, one per panel. *)
Definition build_canvas (n_panels max_cols : Z) (label_style : string)
  : result (Z * Z * list axes) :=
  let cols := Z.min max_cols (Z.max 1 n_panels) in
  rows <- Py.floordiv (n_panels + cols - 1) cols ;;
  axs <- make_axes cols label_style (range n_panels) ;;
  Ok (rows, cols, axs).

End Grid.

Lemma make_axes_cells cols sty : forall indices axs,
  Grid.make_axes cols sty indices = Ok axs ->
  map (fun a => (Grid.ax_row a, Grid.ax_col a)) axs
  = map (fun i => (i / cols, i mod cols)) indices.
Proof.
  induction indices as [|i rest IH]; intros axs H; simpl in H.
  - injection H as <-. reflexivity.
  - bind_as H rc Erc. destruct rc as [row col].
    bind_as H label El. bind_as H rest' Er. injection H as <-.
    unfold Grid.divmod in Erc. destruct (cols =? 0); [discriminate|].
    injection Erc as <- <-. simpl. f_equal. apply IH. exact Er.
Qed.

Lemma NoDup_map_injective {A B : Type} (f : A -> B) (l : list A) :
  (forall x y, In x l -> In y l -> f x = f y -> x = y) ->
  NoDup l -> NoDup (map f l).
Proof.
  intros Hinj Hnd. induction Hnd as [|a l Ha Hnd IH]; simpl; constructor.
  - intros Hin. apply in_map_iff in Hin. destruct Hin as (y & Hfy & Hy).
    apply Ha. rewrite (Hinj a y); [exact Hy | now left | now right | ].
    symmetry; exact Hfy.
  - apply IH. intros x y Hx Hy. apply Hinj; now right.
Qed.

Lemma range_nth n k i :
  nth_error (Grid.range n) k = Some i -> i = Z.of_nat k /\ 0 <= i < n.
Proof.
  unfold Grid.range. intros H.
  rewrite nth_error_map in H.
  destruct (nth_error (seq 0 (Z.to_nat n)) k) as [j|] eqn:E;
    [|discriminate].
  simpl in H. injection H as <-.
  assert (Hk : (k < List.length (seq 0 (Z.to_nat n)))%nat)
    by (apply nth_error_Some; congruence).
  rewrite length_seq in Hk.
  rewrite nth_error_nth' with (d := 0%nat) in E
    by (rewrite length_seq; exact Hk).
  rewrite seq_nth in E by exact Hk. injection E as <-. lia.
Qed.

(** X11.  For at least one panel and at least one column allowed, the grid
    [build_canvas] lays out has [min(max_cols, n_panels)] columns and just
    enough rows for the panels (no row is empty); panel [i] gets the cell
    (i // cols, i % cols), which lies inside the grid, and no two panels
    get the same cell. *)
Theorem build_canvas_grid :
  forall n_panels max_cols sty rows cols axs,
    1 <= n_panels -> 1 <= max_cols ->
    Grid.build_canvas n_panels max_cols sty = Ok (rows, cols, axs) ->
    cols = Z.min max_cols n_panels /\
    (rows - 1) * cols < n_panels <= rows * cols /\
    Z.of_nat (List.length axs) = n_panels /\
    (forall k a, nth_error axs k = Some a ->
       Grid.ax_row a = Z.of_nat k / cols /\
       Grid.ax_col a = Z.of_nat k mod cols /\
       0 <= Grid.ax_row a < rows /\ 0 <= Grid.ax_col a < cols) /\
    NoDup (map (fun a => (Grid.ax_row a, Grid.ax_col a)) axs).
Proof.
  intros n max_cols sty rows cols axs Hn Hm H.
  unfold Grid.build_canvas in H.
  bind_as H r Er. bind_as H ax Ea. injection H as <- <- <-.
  apply floordiv_Ok in Er. destruct Er as [_ ->].
  replace (Z.max 1 n) with n in * by lia.
  set (cols := Z.min max_cols n) in *.
  assert (Hc : 1 <= cols) by (unfold cols; lia).
  pose proof (Z.div_mod (n + cols - 1) cols ltac:(lia)) as Hdm.
  pose proof (Z.mod_pos_bound (n + cols - 1) cols ltac:(lia)) as Hmb.
  pose proof (make_axes_cells _ _ _ _ Ea) as Hcells.
  assert (Hlen : List.length ax = Z.to_nat n).
  { apply (f_equal (@List.length _)) in Hcells.
    rewrite !length_map in Hcells. rewrite Hcells.
    unfold Grid.range. rewrite length_map, length_seq. reflexivity. }
  split; [reflexivity|]. split; [nia|]. split; [lia|]. split.
  - intros k a Hk.
    assert (Hcell : nth_error (map (fun a => (Grid.ax_row a, Grid.ax_col a)) ax) k
                    = Some (Grid.ax_row a, Grid.ax_col a))
      by (rewrite nth_error_map, Hk; reflexivity).
    rewrite Hcells in Hcell.
    assert (Hklen : (k < List.length ax)%nat)
      by (apply nth_error_Some; congruence).
    destruct (nth_error (Grid.range n) k) as [i|] eqn:Ei.
    + apply range_nth in Ei as Hi. destruct Hi as [-> Hi].
      rewrite nth_error_map, Ei in Hcell. cbn [option_map] in Hcell.
      injection Hcell as Hrow Hcol. rewrite <- Hrow, <- Hcol.
      pose proof (Z.mod_pos_bound (Z.of_nat k) cols ltac:(lia)).
      assert (0 <= Z.of_nat k / cols) by (apply Z.div_pos; lia).
      assert (Z.of_nat k / cols <= (n - 1) / cols)
        by (apply Z.div_le_mono; lia).
      assert ((n - 1) / cols < (n + cols - 1) / cols).
      { replace (n + cols - 1) with (n - 1 + 1 * cols) by lia.
        rewrite Z.div_add by lia. lia. }
      repeat split; lia.
    + apply nth_error_None in Ei. unfold Grid.range in Ei.
      rewrite length_map, length_seq in Ei. lia.
  - rewrite Hcells. unfold Grid.range. rewrite map_map.
    apply NoDup_map_injective; [|apply seq_NoDup].
    intros x y Hx Hy Hxy. injection Hxy as Hq Hr.
    pose proof (Z.div_mod (Z.of_nat x) cols ltac:(lia)).
    pose proof (Z.div_mod (Z.of_nat y) cols ltac:(lia)).
    apply Nat2Z.inj. congruence.
Qed.

Lemma build_canvas_grid_witness :
  exists axs,
    Grid.build_canvas 5 3 "A, B, C..." = Ok (2, 3, axs) /\
    Z.of_nat (List.length axs) = 5 /\
    NoDup (map (fun a => (Grid.ax_row a, Grid.ax_col a)) axs).
Proof.
  eexists. split; [vm_compute; reflexivity|].
  destruct (build_canvas_grid 5 3 "A, B, C..." 2 3 _ ltac:(lia) ltac:(lia)
              ltac:(vm_compute; reflexivity))
    as (_ & _ & Hlen & _ & Hnd).
  split; assumption.
Defined.

(** *** Distinct panels get distinct labels *)

Lemma str_injective i j : 0 < i -> 0 < j -> Py.str i = Py.str j -> i = j.
Proof.
  intros Hi Hj H.
  pose proof (decimal_value_str i Hi) as Ei.
  pose proof (decimal_value_str j Hj) as Ej.
  rewrite H in Ei. congruence.
Qed.

Lemma roman_not_decimal (n : nat) :
  (n < 10)%nat ->
  exists t, Layout._get_label_text "i, ii, iii..." (Z.of_nat n) = Ok t /\
            ImagePanelAssembler._get_label_text "i, ii, iii..." (Z.of_nat n)
            = Ok t /\
            LabelSpec.decimal_value t = None.
Proof.
  intros Hn.
  do 10 (destruct n as [|n];
         [eexists; split; [reflexivity | split; reflexivity]|]).
  lia.
Qed.

Lemma label_text_same_function sty i :
  ImagePanelAssembler._get_label_text sty i = Layout._get_label_text sty i.
Proof. reflexivity. Qed.

(** X12.  Under the styles "1, 2, 3..." and "i, ii, iii..." two different
    panel indices never get the same label, in the assembler and in the
    layout module alike; under "A, B, C..." and "a, b, c..." the same holds
    for indices below 26. *)
Theorem label_text_distinct :
  forall i j, 0 <= i -> 0 <= j -> i <> j ->
    ImagePanelAssembler._get_label_text "1, 2, 3..." i
    <> ImagePanelAssembler._get_label_text "1, 2, 3..." j /\
    ImagePanelAssembler._get_label_text "i, ii, iii..." i
    <> ImagePanelAssembler._get_label_text "i, ii, iii..." j /\
    (i < 26 -> j < 26 ->
       ImagePanelAssembler._get_label_text "A, B, C..." i
       <> ImagePanelAssembler._get_label_text "A, B, C..." j /\
       ImagePanelAssembler._get_label_text "a, b, c..." i
       <> ImagePanelAssembler._get_label_text "a, b, c..." j) /\
    (forall sty,
       Layout._get_label_text sty i
       = ImagePanelAssembler._get_label_text sty i).
Proof.
  intros i j Hi Hj Hij.
  destruct (label_text_assembler i Hi) as (Hli & (Hdi & _) & Hri & Hbi).
  destruct (label_text_assembler j Hj) as (Hlj & (Hdj & _) & Hrj & Hbj).
  split; [|split; [|split]].
  - rewrite Hdi, Hdj. intros H. injection H as H.
    apply str_injective in H; lia.
  - destruct (Z.lt_ge_cases i 10) as [Hi10|Hi10];
      destruct (Z.lt_ge_cases j 10) as [Hj10|Hj10].
    + assert (Hlti : i < Z.of_nat 10) by lia.
      assert (Hltj : j < Z.of_nat 10) by lia.
      destruct (small_index i 10 Hi Hlti) as (n & Hn & ->).
      destruct (small_index j 10 Hj Hltj) as (m & Hm & ->).
      do 10 (destruct n as [|n];
             [do 10 (destruct m as [|m]; [try discriminate; lia|]); lia|]).
      lia.
    + rewrite (Hbj Hj10).
      assert (Hlti : i < Z.of_nat 10) by lia.
      destruct (small_index i 10 Hi Hlti) as (n & Hn & ->).
      destruct (roman_not_decimal n Hn) as (t & _ & Et & Hnone).
      rewrite Et. intros H. injection H as ->.
      rewrite decimal_value_str in Hnone by lia. discriminate.
    + rewrite (Hbi Hi10).
      assert (Hltj : j < Z.of_nat 10) by lia.
      destruct (small_index j 10 Hj Hltj) as (m & Hm & ->).
      destruct (roman_not_decimal m Hm) as (t & _ & Et & Hnone).
      rewrite Et. intros H. injection H as <-.
      rewrite decimal_value_str in Hnone by lia. discriminate.
    + rewrite (Hbi Hi10), (Hbj Hj10). intros H. injection H as H.
      apply str_injective in H; lia.
  - intros Hi26 Hj26.
    destruct (small_index i 26 Hi Hi26) as (n & Hn & ->).
    destruct (small_index j 26 Hj Hj26) as (m & Hm & ->).
    do 26 (destruct n as [|n];
           [do 26 (destruct m as [|m];
                   [first [lia | split; discriminate]|]); lia|]).
    lia.
  - intros sty. reflexivity.
Qed.

Lemma label_text_distinct_witness :
  ImagePanelAssembler._get_label_text "i, ii, iii..." 9
  <> ImagePanelAssembler._get_label_text "i, ii, iii..." 10.
Proof.
  apply (label_text_distinct 9 10); lia.
Defined.

(** ** Rounding in binary64

    What [binary_round_aux] returns on a mantissa of at least 53 bits, in
    the range where neither underflow nor overflow occurs: the mantissa cut
    to 53 bits, or its successor. *)

Ltac pow2_side :=
  first [ lia
        | apply Z.pow_pos_nonneg; lia
        | apply Z.pow_nonneg; lia
        | apply Z.pow_nonzero; lia
        | apply Z.lt_le_incl; apply Z.pow_pos_nonneg; lia ].

Section Binary64.

Lemma digits2_size p : digits2_pos p = Pos.size p.
Proof. induction p; simpl; congruence. Qed.

Lemma digits2_bounds p :
  2 ^ (Z.pos (digits2_pos p) - 1) <= Z.pos p < 2 ^ Z.pos (digits2_pos p).
Proof.
  rewrite digits2_size. split.
  - pose proof (Pos.size_le p) as H.
    assert (H2 : 2 ^ Z.pos (Pos.size p) <= 2 * Z.pos p).
    { change (2 * Z.pos p) with (Z.pos p~0).
      rewrite <- Pos2Z.inj_pow. apply Pos2Z.pos_le_pos. exact H. }
    replace (Z.pos (Pos.size p)) with (Z.pos (Pos.size p) - 1 + 1) in H2
      by lia.
    rewrite Z.pow_add_r, Z.pow_1_r in H2 by lia. lia.
  - pose proof (Pos.size_gt p) as H.
    rewrite <- Pos2Z.inj_pow. apply Pos2Z.pos_lt_pos. exact H.
Qed.

Lemma digits2_unique p k :
  2 ^ (k - 1) <= Z.pos p < 2 ^ k -> Z.pos (digits2_pos p) = k.
Proof.
  intros [Hlo Hhi]. pose proof (digits2_bounds p) as [Dlo Dhi].
  set (d := Z.pos (digits2_pos p)) in *.
  assert (Hd : 0 < d) by (unfold d; lia).
  assert (Hk : 0 < k).
  { destruct (Z.lt_ge_cases 0 k) as [H|H]; [exact H|].
    assert (2 ^ k <= 2 ^ 0) by (apply Z.pow_le_mono_r; lia).
    rewrite Z.pow_0_r in *. lia. }
  destruct (Z.lt_trichotomy d k) as [H|[H|H]]; [|exact H|].
  - assert (2 ^ d <= 2 ^ (k - 1)) by (apply Z.pow_le_mono_r; lia). lia.
  - assert (2 ^ k <= 2 ^ (d - 1)) by (apply Z.pow_le_mono_r; lia). lia.
Qed.

Lemma shr_1_m mrs :
  0 <= shr_m mrs -> shr_m (shr_1 mrs) = shr_m mrs / 2.
Proof.
  destruct mrs as [m r s]. simpl. intros Hm.
  destruct m as [|p|p]; try lia; [reflexivity|].
  destruct p as [p|p|]; simpl shr_m.
  - rewrite Pos2Z.inj_xI.
    apply (Z.div_unique (2 * Z.pos p + 1) 2 (Z.pos p) 1); lia.
  - rewrite Pos2Z.inj_xO.
    apply (Z.div_unique (2 * Z.pos p) 2 (Z.pos p) 0); lia.
  - reflexivity.
Qed.

Lemma iter_shr_1_m p : forall mrs,
  0 <= shr_m mrs ->
  shr_m (iter_pos shr_1 p mrs) = shr_m mrs / 2 ^ Z.pos p.
Proof.
  assert (Hnn : forall mrs, 0 <= shr_m mrs -> 0 <= shr_m (shr_1 mrs)).
  { intros mrs H. rewrite shr_1_m by exact H. apply Z.div_pos; lia. }
  induction p as [p IH|p IH|]; intros mrs Hm; simpl iter_pos.
  - rewrite IH; [rewrite IH; [rewrite shr_1_m by exact Hm|apply Hnn; exact Hm]|].
    + rewrite !Z.div_div by pow2_side.
      f_equal. change (Z.pos p~1) with (2 * Z.pos p + 1).
      replace (2 * Z.pos p + 1) with (1 + Z.pos p + Z.pos p) by lia.
      rewrite !Z.pow_add_r by lia. rewrite Z.pow_1_r. ring.
    + rewrite IH by (apply Hnn; exact Hm).
      apply Z.div_pos; [apply Hnn; exact Hm | apply Z.pow_pos_nonneg; lia].
  - rewrite IH; [rewrite IH by exact Hm|].
    + rewrite Z.div_div by pow2_side.
      f_equal. change (Z.pos p~0) with (2 * Z.pos p).
      replace (2 * Z.pos p) with (Z.pos p + Z.pos p) by lia.
      rewrite Z.pow_add_r by lia. reflexivity.
    + rewrite IH by exact Hm.
      apply Z.div_pos; [exact Hm | apply Z.pow_pos_nonneg; lia].
  - rewrite shr_1_m by exact Hm. reflexivity.
Qed.

Lemma round_nearest_even_cases m l :
  round_nearest_even m l = m \/ round_nearest_even m l = m + 1.
Proof.
  destruct l as [|[| |]]; simpl; auto. destruct (Z.even m); auto.
Qed.

Lemma loc_of_shr_record_of_loc m l :
  loc_of_shr_record (shr_record_of_loc m l) = l.
Proof. destruct l as [|[| |]]; reflexivity. Qed.

Lemma shr_m_of_loc m l : shr_m (shr_record_of_loc m l) = m.
Proof. destruct l as [|[| |]]; reflexivity. Qed.

End Binary64.

Section Binary64Round.

Lemma fexp_normal e :
  -1021 <= e -> fexp PyFloat.prec PyFloat.emax e = e - 53.
Proof.
  intros H. unfold fexp, emin, PyFloat.prec, PyFloat.emax. lia.
Qed.

Lemma Zdigits2_bounds m :
  0 < m ->
  2 ^ (Zdigits2 m - 1) <= m < 2 ^ Zdigits2 m /\ 0 < Zdigits2 m.
Proof.
  destruct m as [|p|p]; try lia. intros _. simpl Zdigits2.
  split; [apply digits2_bounds | lia].
Qed.

Lemma Zdigits2_unique m k :
  2 ^ (k - 1) <= m < 2 ^ k -> 0 < m -> Zdigits2 m = k.
Proof.
  destruct m as [|p|p]; try lia. intros H _. simpl. apply digits2_unique.
  exact H.
Qed.

Lemma shr_spec mrs e n mrs' e' :
  0 <= shr_m mrs -> 0 <= n -> shr mrs e n = (mrs', e') ->
  shr_m mrs' = shr_m mrs / 2 ^ n /\ e' = e + n /\ (n = 0 -> mrs' = mrs).
Proof.
  intros Hm Hn. unfold shr. destruct n as [|p|p]; try lia; intros H;
    injection H as <- <-.
  - rewrite Z.pow_0_r, Z.div_1_r. repeat split; lia.
  - rewrite iter_shr_1_m by exact Hm. repeat split; lia.
Qed.

Lemma shr_fexp_spec m e l mrs e' :
  0 < m -> 53 <= Zdigits2 m -> -1074 <= e ->
  shr_fexp PyFloat.prec PyFloat.emax m e l = (mrs, e') ->
  shr_m mrs = m / 2 ^ (Zdigits2 m - 53) /\
  e' = e + (Zdigits2 m - 53) /\
  (Zdigits2 m = 53 -> mrs = shr_record_of_loc m l).
Proof.
  intros Hm Hd He. unfold shr_fexp. rewrite fexp_normal by lia.
  replace (Zdigits2 m + e - 53 - e) with (Zdigits2 m - 53) by lia.
  intros H. apply shr_spec in H; [|rewrite shr_m_of_loc; lia|lia].
  rewrite shr_m_of_loc in H. destruct H as (H1 & H2 & H3).
  repeat split; try assumption. intros H53. apply H3. lia.
Qed.

Lemma cut_to_53_bits m :
  0 < m -> 53 <= Zdigits2 m ->
  2 ^ 52 <= m / 2 ^ (Zdigits2 m - 53) < 2 ^ 53.
Proof.
  intros Hm Hd. destruct (Zdigits2_bounds m Hm) as [[Hlo Hhi] _].
  set (d := Zdigits2 m) in *.
  assert (Hp : 0 < 2 ^ (d - 53)) by pow2_side.
  assert (E1 : 2 ^ (d - 1) = 2 ^ 52 * 2 ^ (d - 53)).
  { rewrite <- Z.pow_add_r by lia. f_equal. lia. }
  assert (E2 : 2 ^ d = 2 ^ 53 * 2 ^ (d - 53)).
  { rewrite <- Z.pow_add_r by lia. f_equal. lia. }
  split.
  - apply Z.div_le_lower_bound; [exact Hp|]. lia.
  - apply Z.div_lt_upper_bound; [exact Hp|]. lia.
Qed.

(** The outcome of rounding a mantissa [mx] of at least 53 bits at exponent
    [ex]: the float [m2 * 2 ^ (ex + d - 53)], where [m2] is [mx] cut to 53
    bits or the next integer. *)
Definition rounded_to (mx ex : Z) (l : location) (x : PyFloat.float)
    (m2 : Z) : Prop :=
  let d := Zdigits2 mx in
  let m1 := mx / 2 ^ (d - 53) in
  2 ^ 52 <= m1 < 2 ^ 53 /\
  (m2 = m1 \/ m2 = m1 + 1) /\
  (l = loc_Exact -> d = 53 -> m2 = mx) /\
  exists m e,
    x = S754_finite false m e /\
    2 ^ 52 <= Z.pos m < 2 ^ 53 /\
    ((Z.pos m = m2 /\ e = ex + (d - 53)) \/
     (m2 = 2 ^ 53 /\ Z.pos m = 2 ^ 52 /\ e = ex + (d - 53) + 1)).

Lemma binary_round_aux_53 mx ex l :
  0 < mx -> 53 <= Zdigits2 mx -> -1074 <= ex ->
  ex + (Zdigits2 mx - 53) + 1 <= 971 ->
  exists m2,
    rounded_to mx ex l
      (binary_round_aux PyFloat.prec PyFloat.emax false mx ex l) m2.
Proof.
  intros Hm Hd He Hov. unfold binary_round_aux.
  destruct (shr_fexp PyFloat.prec PyFloat.emax mx ex l) as [mrs1 e1] eqn:E1.
  apply shr_fexp_spec in E1; try assumption.
  destruct E1 as (Hm1 & He1 & Hexact).
  pose proof (cut_to_53_bits mx Hm Hd) as Hcut.
  set (d := Zdigits2 mx) in *. set (m1 := mx / 2 ^ (d - 53)) in *.
  set (m2 := round_nearest_even (shr_m mrs1) (loc_of_shr_record mrs1)).
  assert (Hm2 : m2 = m1 \/ m2 = m1 + 1).
  { unfold m2. rewrite Hm1. apply round_nearest_even_cases. }
  assert (Hm2pos : 0 < m2) by lia.
  destruct (shr_fexp PyFloat.prec PyFloat.emax m2 e1 loc_Exact)
    as [mrs2 e2] eqn:E2.
  assert (Hd2 : Zdigits2 m2 = 53 \/ (Zdigits2 m2 = 54 /\ m2 = 2 ^ 53)).
  { destruct (Z.lt_ge_cases m2 (2 ^ 53)) as [Hlt|Hge].
    - left. apply Zdigits2_unique; [|exact Hm2pos].
      change (2 ^ (53 - 1)) with (2 ^ 52). lia.
    - right. assert (m2 = 2 ^ 53) by lia. split; [|assumption].
      apply Zdigits2_unique; [|exact Hm2pos].
      change (2 ^ (54 - 1)) with (2 ^ 53). subst m2.
      change (2 ^ 54) with (2 * 2 ^ 53). lia. }
  apply shr_fexp_spec in E2; try lia.
  destruct E2 as (Hm3 & He2 & _).
  exists m2. unfold rounded_to. fold d. fold m1.
  split; [exact Hcut|]. split; [exact Hm2|]. split.
  - intros -> Hd53. unfold m2. rewrite (Hexact Hd53).
    rewrite loc_of_shr_record_of_loc, shr_m_of_loc. reflexivity.
  - destruct Hd2 as [Hd2|[Hd2 Hm2eq]].
    + rewrite Hd2 in Hm3, He2. change (53 - 53) with 0 in Hm3, He2.
      rewrite Z.pow_0_r, Z.div_1_r in Hm3. rewrite Hm3.
      destruct m2 as [|p2|p2]; try lia.
      replace (e2 <=? PyFloat.emax - PyFloat.prec) with true
        by (symmetry; apply Z.leb_le; unfold PyFloat.emax, PyFloat.prec; lia).
      exists p2, e2. split; [reflexivity|].
      split; [destruct (Zdigits2_bounds (Z.pos p2) Hm2pos) as [Hb _];
              rewrite Hd2 in Hb; exact Hb|].
      left. split; [reflexivity|lia].
    + rewrite Hd2 in Hm3, He2. change (54 - 53) with 1 in Hm3, He2.
      rewrite Hm2eq in Hm3. change (2 ^ 53 / 2 ^ 1) with (2 ^ 52) in Hm3.
      rewrite Hm3. change (2 ^ 52) with (Z.pos (2 ^ 52)).
      replace (e2 <=? PyFloat.emax - PyFloat.prec) with true
        by (symmetry; apply Z.leb_le; unfold PyFloat.emax, PyFloat.prec; lia).
      exists (2 ^ 52)%positive, e2. split; [reflexivity|].
      split; [split; [reflexivity | reflexivity]|]. right.
      split; [exact Hm2eq|]. split; [reflexivity|lia].
Qed.

End Binary64Round.

Section Binary64Ops.

Lemma iter_xO_pow p : forall k,
  Z.pos (Pos.iter xO p k) = Z.pos p * 2 ^ Z.pos k.
Proof.
  intros k. induction k as [|k IH] using Pos.peano_ind.
  - simpl. rewrite Pos2Z.inj_xO. lia.
  - rewrite Pos.iter_succ. rewrite Pos2Z.inj_xO, IH.
    rewrite Pos2Z.inj_succ, Z.pow_succ_r by lia. ring.
Qed.

Lemma digits_at_least_53 m : 2 ^ 52 <= m -> 53 <= Zdigits2 m.
Proof.
  intros H. assert (Hm : 0 < m) by (pose proof (Z.pow_pos_nonneg 2 52); lia).
  destruct (Zdigits2_bounds m Hm) as [[_ Hhi] Hd].
  destruct (Z.lt_ge_cases (Zdigits2 m) 53) as [Hlt|Hge]; [|exact Hge].
  assert (2 ^ Zdigits2 m <= 2 ^ 52) by (apply Z.pow_le_mono_r; lia). lia.
Qed.

(** A positive double with a full mantissa: its mantissa and exponent. *)
Definition normal (x : PyFloat.float) (m e : Z) : Prop :=
  exists p, x = S754_finite false p e /\ Z.pos p = m /\
            2 ^ 52 <= m < 2 ^ 53.

(** [float(c)] is exact below [2 ^ 53]. *)
Lemma of_int_exact c :
  0 < c < 2 ^ 53 ->
  exists x m e,
    PyFloat.of_int c = Ok x /\ normal x m e /\
    -52 <= e <= 0 /\ m = c * 2 ^ (- e).
Proof.
  intros [Hc0 Hc53]. destruct c as [|p|p]; try lia.
  unfold PyFloat.of_int, binary_normalize, binary_round.
  pose proof (digits2_bounds p) as [Dlo Dhi].
  set (d := Z.pos (digits2_pos p)) in *.
  assert (Hd : 1 <= d <= 53).
  { split; [unfold d; lia|].
    destruct (Z.lt_ge_cases 53 d) as [H|H]; [|lia].
    assert (2 ^ 53 <= 2 ^ (d - 1)) by (apply Z.pow_le_mono_r; lia). lia. }
  rewrite Z.add_0_r. rewrite fexp_normal by lia.
  assert (Hmz : exists mz,
             shl_align p 0 (d - 53) = (mz, d - 53) /\
             Z.pos mz = Z.pos p * 2 ^ (53 - d)).
  { unfold shl_align. rewrite Z.sub_0_r.
    destruct (d - 53) as [|k|k] eqn:Ek; try lia.
    - exists p. split; [reflexivity|].
      replace (53 - d) with 0 by lia. rewrite Z.pow_0_r. lia.
    - exists (Pos.iter xO p k). split; [reflexivity|].
      rewrite iter_xO_pow. f_equal. f_equal. lia. }
  destruct Hmz as (mz & -> & Hmz).
  assert (Hmzb : 2 ^ 52 <= Z.pos mz < 2 ^ 53).
  { rewrite Hmz. split.
    - replace (2 ^ 52) with (2 ^ (d - 1) * 2 ^ (53 - d))
        by (rewrite <- Z.pow_add_r by lia; f_equal; lia).
      apply Z.mul_le_mono_nonneg_r; [pow2_side | exact Dlo].
    - replace (2 ^ 53) with (2 ^ d * 2 ^ (53 - d))
        by (rewrite <- Z.pow_add_r by lia; f_equal; lia).
      apply Z.mul_lt_mono_pos_r; [pow2_side | exact Dhi]. }
  assert (Hdz : Zdigits2 (Z.pos mz) = 53).
  { apply Zdigits2_unique; [|lia]. change (2 ^ (53 - 1)) with (2 ^ 52).
    exact Hmzb. }
  destruct (binary_round_aux_53 (Z.pos mz) (d - 53) loc_Exact)
    as (m2 & Hr); try lia.
  destruct Hr as (_ & _ & Hex & m & e & -> & Hmb & Hcase).
  specialize (Hex eq_refl Hdz). rewrite Hdz in Hcase.
  destruct Hcase as [[Hm He]|[Hm2 _]]; [|lia].
  exists (S754_finite false m e), (Z.pos m), e.
  split; [reflexivity|]. split; [exists m; auto|].
  split; [lia|]. rewrite Hm, Hex, Hmz. f_equal. f_equal. lia.
Qed.

End Binary64Ops.

Section Binary64Div.

Lemma div_core a b q e l :
  0 < a < 2 ^ 53 -> 0 < b < 2 ^ 53 ->
  SFdiv_core_binary PyFloat.prec PyFloat.emax a 0 b 0 = (q, e, l) ->
  let s := 53 + Zdigits2 b - Zdigits2 a in
  1 <= s <= 105 /\ e = - s /\ q = a * 2 ^ s / b.
Proof.
  intros Ha Hb. unfold SFdiv_core_binary.
  destruct (Zdigits2_bounds a (proj1 Ha)) as [[Alo Ahi] Ad].
  destruct (Zdigits2_bounds b (proj1 Hb)) as [[Blo Bhi] Bd].
  set (d1 := Zdigits2 a) in *. set (d2 := Zdigits2 b) in *.
  assert (Hd1 : d1 <= 53).
  { destruct (Z.lt_ge_cases 53 d1) as [H|H]; [|lia].
    assert (2 ^ 53 <= 2 ^ (d1 - 1)) by (apply Z.pow_le_mono_r; lia). lia. }
  assert (Hd2 : d2 <= 53).
  { destruct (Z.lt_ge_cases 53 d2) as [H|H]; [|lia].
    assert (2 ^ 53 <= 2 ^ (d2 - 1)) by (apply Z.pow_le_mono_r; lia). lia. }
  rewrite !Z.add_0_r, Z.sub_0_r. rewrite fexp_normal by lia.
  replace (Z.min (d1 - d2 - 53) 0) with (d1 - d2 - 53) by lia.
  replace (0 - (d1 - d2 - 53)) with (53 + d2 - d1) by lia.
  intros H.
  assert (Hs : 1 <= 53 + d2 - d1 <= 105) by lia.
  destruct (53 + d2 - d1) as [|ps|ps] eqn:Es; try lia.
  change (IntDef.Z.shiftl a (Z.pos ps)) with (Z.shiftl a (Z.pos ps)) in H.
  rewrite Z.shiftl_mul_pow2 in H by lia.
  change IntDef.Z.div_eucl with Z.div_eucl in H.
  destruct (Z.div_eucl (a * 2 ^ Z.pos ps) b) as [q' r'] eqn:Ed.
  injection H as <- <- _.
  split; [lia|]. split; [lia|].
  unfold Z.div. rewrite Ed. reflexivity.
Qed.

(** What true division of two positive ints below [2 ^ 53] returns: a
    normal double [ms * 2 ^ es] that is [m2 / 2 ^ E], where the exact
    quotient lies between [m1 / 2 ^ E] and [(m1 + 1) / 2 ^ E] and [m2] is
    [m1] or [m1 + 1]. *)
Definition quotient_of (a b : Z) (x : PyFloat.float) (ms es : Z) : Prop :=
  normal x ms es /\
  exists E m1 m2,
    0 <= E <= 105 /\ 2 ^ 52 <= m1 /\
    m1 * b <= a * 2 ^ E < (m1 + 1) * b /\
    (m2 = m1 \/ m2 = m1 + 1) /\
    ((ms = m2 /\ es = - E) \/ (m2 = 2 ^ 53 /\ ms = 2 ^ 52 /\ es = 1 - E)).

Lemma truediv_rounded a b :
  0 < a < 2 ^ 53 -> 0 < b < 2 ^ 53 ->
  exists x ms es, PyFloat.truediv a b = Ok x /\ quotient_of a b x ms es.
Proof.
  intros Ha Hb. unfold PyFloat.truediv.
  replace (b =? 0) with false by (symmetry; apply Z.eqb_neq; lia).
  replace (a =? 0) with false by (symmetry; apply Z.eqb_neq; lia).
  replace (a <? 0) with false by (symmetry; apply Z.ltb_ge; lia).
  replace (b <? 0) with false by (symmetry; apply Z.ltb_ge; lia).
  rewrite !Z.abs_eq by lia. cbn [xorb].
  destruct (SFdiv_core_binary PyFloat.prec PyFloat.emax a 0 b 0)
    as [[q e] l] eqn:Ec.
  apply div_core in Ec; try assumption. cbv zeta in Ec.
  destruct Ec as (Hs & -> & Hq).
  destruct (Zdigits2_bounds a (proj1 Ha)) as [[Alo Ahi] Ad].
  destruct (Zdigits2_bounds b (proj1 Hb)) as [[Blo Bhi] Bd].
  set (d1 := Zdigits2 a) in *. set (d2 := Zdigits2 b) in *.
  set (s := 53 + d2 - d1) in *.
  assert (Hps : 0 < 2 ^ s) by pow2_side.
  assert (Elo : 2 ^ (d1 - 1) * 2 ^ s = 2 ^ 52 * 2 ^ d2).
  { rewrite <- !Z.pow_add_r by lia. f_equal. unfold s. lia. }
  assert (Ehi : 2 ^ d1 * 2 ^ s = 2 ^ 54 * 2 ^ (d2 - 1)).
  { rewrite <- !Z.pow_add_r by lia. f_equal. unfold s. lia. }
  assert (Hqlo : 2 ^ 52 <= q).
  { rewrite Hq. apply Z.div_le_lower_bound; [lia|]. nia. }
  assert (Hqhi : q < 2 ^ 54).
  { rewrite Hq. apply Z.div_lt_upper_bound; [lia|]. nia. }
  pose proof (Z.div_mod (a * 2 ^ s) b ltac:(lia)) as Hdm.
  pose proof (Z.mod_pos_bound (a * 2 ^ s) b ltac:(lia)) as Hmb.
  rewrite <- Hq in Hdm.
  assert (Hq0 : 0 < q) by lia.
  pose proof (digits_at_least_53 q Hqlo) as Hdq.
  assert (Hdq54 : Zdigits2 q <= 54).
  { destruct (Zdigits2_bounds q Hq0) as [[Qlo _] _].
    destruct (Z.lt_ge_cases 54 (Zdigits2 q)) as [H|H]; [|lia].
    assert (2 ^ 54 <= 2 ^ (Zdigits2 q - 1))
      by (apply Z.pow_le_mono_r; lia). lia. }
  destruct (binary_round_aux_53 q (- s) l) as (m2 & Hr); try lia.
  destruct Hr as (Hm1 & Hm2 & _ & m & e & -> & Hmb2 & Hcase).
  set (n := Zdigits2 q - 53) in *.
  set (m1 := q / 2 ^ n) in *.
  exists (S754_finite false m e), (Z.pos m), e.
  split; [reflexivity|]. split; [exists m; auto|].
  exists (s - n), m1, m2.
  assert (Hpn : 0 < 2 ^ n) by pow2_side.
  pose proof (Z.div_mod q (2 ^ n) ltac:(lia)) as Hqm.
  pose proof (Z.mod_pos_bound q (2 ^ n) Hpn) as Hqb. fold m1 in Hqm.
  assert (Esn : 2 ^ s = 2 ^ (s - n) * 2 ^ n).
  { rewrite <- Z.pow_add_r by lia. f_equal. lia. }
  assert (Hpsn : 0 < 2 ^ (s - n)) by pow2_side.
  split; [lia|]. split; [lia|]. split.
  - split.
    + apply (Z.mul_le_mono_pos_r _ _ (2 ^ n) Hpn). nia.
    + apply (Z.mul_lt_mono_pos_r (2 ^ n) _ _ Hpn). nia.
  - split; [exact Hm2|].
    destruct Hcase as [[Hm He]|(Hm253 & Hm & He)]; [left|right];
      repeat split; try assumption; lia.
Qed.

End Binary64Div.

Section Binary64Scale.

(** The product of two positive doubles with full mantissas, away from
    underflow and overflow: the exact product of the mantissas, rounded. *)
Lemma mul_normal x y mx ex my ey :
  normal x mx ex -> normal y my ey ->
  -1074 <= ex + ey -> ex + ey + 54 <= 971 ->
  exists m2,
    rounded_to (mx * my) (ex + ey) loc_Exact (PyFloat.mul x y) m2.
Proof.
  intros (px & -> & Hpx & Hx) (py & -> & Hpy & Hy) Hlo Hhi.
  unfold PyFloat.mul, SFmul. cbn [xorb].
  rewrite Pos2Z.inj_mul, Hpx, Hpy.
  assert (Hp : 2 ^ 52 <= mx * my).
  { assert (2 ^ 52 * 1 <= mx * my) by (apply Z.mul_le_mono_nonneg; lia). lia. }
  assert (Hq : mx * my < 2 ^ 106).
  { change (2 ^ 106) with (2 ^ 53 * 2 ^ 53).
    apply Z.mul_lt_mono_nonneg; lia. }
  assert (H0 : 0 < mx * my) by lia.
  destruct (Zdigits2_bounds (mx * my) H0) as [[Dlo _] _].
  assert (Hd : Zdigits2 (mx * my) <= 106).
  { destruct (Z.lt_ge_cases 106 (Zdigits2 (mx * my))) as [H|H]; [|lia].
    assert (2 ^ 106 <= 2 ^ (Zdigits2 (mx * my) - 1))
      by (apply Z.pow_le_mono_r; lia). lia. }
  apply binary_round_aux_53; try lia.
  apply digits_at_least_53; exact Hp.
Qed.

(** The product does not depend on the order of its operands. *)
Lemma mul_comm_normal x y mx ex my ey :
  normal x mx ex -> normal y my ey -> PyFloat.mul x y = PyFloat.mul y x.
Proof.
  intros (px & -> & _) (py & -> & _). unfold PyFloat.mul, SFmul.
  cbn [xorb]. rewrite Pos.mul_comm, Z.add_comm. reflexivity.
Qed.

(** [int(x)] of a double [M * 2 ^ (- K)], whichever way its mantissa is
    normalised. *)
Lemma to_int_rounded m e M K :
  0 <= K ->
  (Z.pos m = M /\ e = - K) \/ (M = 2 ^ 53 /\ Z.pos m = 2 ^ 52 /\ e = 1 - K) ->
  PyFloat.to_int (S754_finite false m e) = Ok (M / 2 ^ K).
Proof.
  intros HK [[<- ->]|(-> & Hm & ->)]; unfold PyFloat.to_int.
  - destruct K as [|k|k]; try lia.
    + cbn [Z.opp]. rewrite Z.pow_0_r, Z.div_1_r. reflexivity.
    + cbn [Z.opp]. reflexivity.
  - rewrite Hm.
    destruct (Z.eq_dec K 0) as [->|H0]; [reflexivity|].
    destruct (Z.eq_dec K 1) as [->|H1]; [reflexivity|].
    destruct (1 - K) as [|k|k] eqn:E; try lia.
    f_equal. replace (- Z.neg k) with (K - 1) by lia.
    change (2 ^ 53) with (2 * 2 ^ 52).
    replace (2 ^ K) with (2 * 2 ^ (K - 1)).
    + rewrite Z.div_mul_cancel_l; [reflexivity| |lia].
      apply Z.pow_nonzero; lia.
    + rewrite <- Z.pow_succ_r by lia. f_equal. lia.
Qed.
(** The arithmetic of [int(c * (a / b))], in integers: [U] is the unit of
    the rounded quotient, [V] that of the rounded product. *)
Lemma quotient_unit_large a b c U m1 :
  0 < a -> 0 < b -> 0 < c -> a * c < 2 ^ 50 -> 0 < U ->
  2 ^ 52 <= m1 -> m1 * b <= a * U ->
  4 * (b * c) < U.
Proof.
  intros Ha Hb Hc Hac HU Hm1 F1.
  assert (H1 : 2 ^ 52 * b <= m1 * b) by (apply Z.mul_le_mono_nonneg_r; lia).
  assert (H2 : 2 ^ 52 * b * c <= a * U * c)
    by (apply Z.mul_le_mono_nonneg_r; lia).
  assert (H3 : a * c * U <= (2 ^ 50 - 1) * U)
    by (apply Z.mul_le_mono_nonneg_r; lia).
  assert (E1 : a * U * c = a * c * U) by ring.
  assert (E2 : 2 ^ 52 * b * c = 2 ^ 52 * (b * c)) by ring.
  lia.
Qed.

Lemma product_cut a b c U m1 m2 m1' mx n J :
  0 < a -> 0 < b -> 0 < c -> a * c < 2 ^ 50 -> 0 < U ->
  2 ^ 52 <= m1 -> m1 * b <= a * U < (m1 + 1) * b ->
  (m2 = m1 \/ m2 = m1 + 1) ->
  2 ^ 52 <= m1' -> 0 <= n -> 0 <= J ->
  m1' * 2 ^ n <= mx < (m1' + 1) * 2 ^ n ->
  mx * U = c * m2 * 2 ^ J ->
  n <= J /\
  m1' * U <= c * m2 * 2 ^ (J - n) < (m1' + 1) * U.
Proof.
  intros Ha Hb Hc Hac HU Hm1 F1 Hm2 Hm1' Hn HJ Hcut Hkey.
  pose proof (quotient_unit_large a b c U m1 Ha Hb Hc Hac HU Hm1 (proj1 F1))
    as HU4.
  assert (HP : 0 < 2 ^ n) by (apply Z.pow_pos_nonneg; lia).
  assert (HQ : 0 < 2 ^ J) by (apply Z.pow_pos_nonneg; lia).
  assert (Hm2b : m2 * b <= a * U + b) by (destruct Hm2 as [-> | ->]; lia).
  assert (Hcm2b : c * (m2 * b) <= c * (a * U + b))
    by (apply Z.mul_le_mono_nonneg_l; lia).
  assert (HacU : a * c * U <= (2 ^ 50 - 1) * U)
    by (apply Z.mul_le_mono_nonneg_r; lia).
  assert (Hbc : 0 < b * c) by (apply Z.mul_pos_pos; lia).
  assert (E0 : c * (a * U + b) = a * c * U + b * c) by ring.
  assert (HnJ : n <= J).
  { destruct (Z.le_gt_cases n J) as [H|H]; [exact H|exfalso].
    assert (HPQ : 2 * 2 ^ J <= 2 ^ n).
    { rewrite <- Z.pow_succ_r by lia. apply Z.pow_le_mono_r; lia. }
    assert (H1 : 2 ^ 52 * (2 * 2 ^ J) <= m1' * 2 ^ n)
      by (apply Z.mul_le_mono_nonneg; lia).
    assert (H2 : 2 ^ 52 * (2 * 2 ^ J) * U <= mx * U)
      by (apply Z.mul_le_mono_nonneg_r; lia).
    rewrite Hkey in H2.
    assert (E1 : 2 ^ 52 * (2 * 2 ^ J) * U = (2 ^ 53 * U) * 2 ^ J) by ring.
    rewrite E1 in H2. apply Z.mul_le_mono_pos_r in H2; [|exact HQ].
    assert (H3 : 2 ^ 53 * U * b <= c * m2 * b)
      by (apply Z.mul_le_mono_nonneg_r; lia).
    assert (E2 : c * m2 * b = c * (m2 * b)) by ring.
    assert (H4 : 2 ^ 53 * U * 1 <= 2 ^ 53 * U * b)
      by (apply Z.mul_le_mono_nonneg_l; lia).
    lia. }
  split; [exact HnJ|].
  set (V := 2 ^ (J - n)).
  assert (HV : 0 < V) by (apply Z.pow_pos_nonneg; lia).
  assert (EQ : 2 ^ J = V * 2 ^ n).
  { unfold V. rewrite <- Z.pow_add_r by lia. f_equal. lia. }
  rewrite EQ in Hkey.
  assert (Hkey' : mx * U = c * m2 * V * 2 ^ n) by (rewrite Hkey; ring).
  split.
  - apply (Z.mul_le_mono_pos_r _ _ (2 ^ n) HP).
    rewrite <- Hkey'.
    replace (m1' * U * 2 ^ n) with (m1' * 2 ^ n * U) by ring.
    apply Z.mul_le_mono_nonneg_r; lia.
  - apply (Z.mul_lt_mono_pos_r (2 ^ n) _ _ HP).
    rewrite <- Hkey'.
    replace ((m1' + 1) * U * 2 ^ n) with ((m1' + 1) * 2 ^ n * U) by ring.
    apply Z.mul_lt_mono_pos_r; lia.
Qed.
Lemma within_one_pixel a b c U V m1 m2 m1' m2' z :
  0 < a -> 0 < b -> 0 < c -> a * c < 2 ^ 50 -> 0 < U -> 0 < V ->
  2 ^ 52 <= m1 -> m1 * b <= a * U < (m1 + 1) * b ->
  (m2 = m1 \/ m2 = m1 + 1) ->
  2 ^ 52 <= m1' -> m1' * U <= c * m2 * V < (m1' + 1) * U ->
  (m2' = m1' \/ m2' = m1' + 1) ->
  z * V <= m2' < (z + 1) * V ->
  z * b <= a * c <= (z + 1) * b.
Proof.
  intros Ha Hb Hc Hac HU HV Hm1 F1 Hm2 Hm1' F2 Hm2' F3.
  assert (HU4 : 4 * (b * c) < U).
  { assert (2 ^ 52 * b <= m1 * b) by (apply Z.mul_le_mono_nonneg_r; lia).
    assert (2 ^ 52 * b * c <= a * U * c) by (apply Z.mul_le_mono_nonneg_r; lia).
    assert (a * U * c <= (2 ^ 50 - 1) * U).
    { replace (a * U * c) with ((a * c) * U) by ring.
      apply Z.mul_le_mono_nonneg_r; lia. }
    lia. }
  assert (Hm2b : a * U - b < m2 * b <= a * U + b).
  { destruct Hm2 as [-> | ->]; lia. }
  assert (Hm2U : c * m2 * V - U < m2' * U <= c * m2 * V + U).
  { destruct Hm2' as [-> | ->]; lia. }
  assert (Hcm2b : c * (m2 * b) <= a * c * U + b * c).
  { replace (a * c * U + b * c) with (c * (a * U + b)) by ring.
    apply Z.mul_le_mono_nonneg_l; lia. }
  assert (Hcm2b' : a * c * U - b * c < c * (m2 * b)).
  { replace (a * c * U - b * c) with (c * (a * U - b)) by ring.
    apply Z.mul_lt_mono_pos_l; lia. }
  assert (HacU : a * c * U <= (2 ^ 50 - 1) * U)
    by (apply Z.mul_le_mono_nonneg_r; lia).
  assert (HV4 : 4 * b < V).
  { assert (2 ^ 52 * U <= m1' * U) by (apply Z.mul_le_mono_nonneg_r; lia).
    assert (2 ^ 52 * U * b <= c * m2 * V * b)
      by (apply Z.mul_le_mono_nonneg_r; lia).
    assert (c * (m2 * b) < 2 ^ 50 * U) by lia.
    assert (c * (m2 * b) * V < 2 ^ 50 * U * V)
      by (apply Z.mul_lt_mono_pos_r; lia).
    assert (E1 : c * m2 * V * b = c * (m2 * b) * V) by ring.
    assert (E2 : 2 ^ 52 * U * b = 2 ^ 50 * (U * (4 * b))) by ring.
    assert (E3 : 2 ^ 50 * U * V = 2 ^ 50 * (U * V)) by ring.
    assert (HX : U * (4 * b) < U * V) by lia.
    apply Z.mul_lt_mono_pos_l in HX; lia. }
  assert (Hup : m2' * U * b <= a * c * U * V + c * V * b + U * b).
  { assert (m2' * U * b <= (c * m2 * V + U) * b)
      by (apply Z.mul_le_mono_nonneg_r; lia).
    assert (c * (m2 * b) * V <= (a * c * U + b * c) * V)
      by (apply Z.mul_le_mono_nonneg_r; lia).
    assert (E1 : (c * m2 * V + U) * b = c * (m2 * b) * V + U * b) by ring.
    assert (E2 : (a * c * U + b * c) * V = a * c * U * V + c * V * b) by ring.
    lia. }
  assert (Hlo : a * c * U * V - c * V * b - U * b < m2' * U * b).
  { assert ((c * m2 * V - U) * b < m2' * U * b)
      by (apply Z.mul_lt_mono_pos_r; lia).
    assert ((a * c * U - b * c) * V < c * (m2 * b) * V)
      by (apply Z.mul_lt_mono_pos_r; lia).
    assert (E1 : (c * m2 * V - U) * b = c * (m2 * b) * V - U * b) by ring.
    assert (E2 : (a * c * U - b * c) * V = a * c * U * V - c * V * b) by ring.
    lia. }
  assert (Hsmall : 2 * (c * V * b + U * b) < U * V).
  { assert (4 * (b * c) * V < U * V) by (apply Z.mul_lt_mono_pos_r; lia).
    assert (U * (4 * b) < U * V) by (apply Z.mul_lt_mono_pos_l; lia).
    assert (E1 : 4 * (b * c) * V = 4 * (c * V * b)) by ring.
    assert (E2 : U * (4 * b) = 4 * (U * b)) by ring.
    lia. }
  assert (HUb : 0 < U * b) by (apply Z.mul_pos_pos; lia).
  assert (HUV : 0 < U * V) by (apply Z.mul_pos_pos; lia).
  split.
  - destruct (Z.le_gt_cases (z * b) (a * c)) as [H|H]; [exact H|exfalso].
    assert (z * V * (U * b) <= m2' * (U * b))
      by (apply Z.mul_le_mono_nonneg_r; lia).
    assert ((a * c + 1) * (U * V) <= z * b * (U * V))
      by (apply Z.mul_le_mono_nonneg_r; lia).
    assert (E1 : z * V * (U * b) = z * b * (U * V)) by ring.
    assert (E2 : (a * c + 1) * (U * V) = a * c * U * V + U * V) by ring.
    assert (E3 : m2' * (U * b) = m2' * U * b) by ring.
    lia.
  - destruct (Z.le_gt_cases (a * c) ((z + 1) * b)) as [H|H]; [exact H|exfalso].
    assert (m2' * (U * b) < (z + 1) * V * (U * b))
      by (apply Z.mul_lt_mono_pos_r; lia).
    assert ((z + 1) * b * (U * V) <= (a * c - 1) * (U * V))
      by (apply Z.mul_le_mono_nonneg_r; lia).
    assert (E1 : (z + 1) * V * (U * b) = (z + 1) * b * (U * V)) by ring.
    assert (E2 : (a * c - 1) * (U * V) = a * c * U * V - U * V) by ring.
    assert (E3 : m2' * (U * b) = m2' * U * b) by ring.
    lia.
Qed.

(** [int(float(c) * (a / b))] and [int((a / b) * float(c))] for positive
    ints whose product is below [2 ^ 50]: the integer [z] returned has
    [z <= a * c / b <= z + 1] in exact arithmetic. *)
Lemma int_of_scaled a b c :
  0 < a -> 0 < b < 2 ^ 53 -> 0 < c -> a * c < 2 ^ 50 ->
  exists x y z,
    PyFloat.truediv a b = Ok x /\ PyFloat.of_int c = Ok y /\
    PyFloat.mul x y = PyFloat.mul y x /\
    PyFloat.to_int (PyFloat.mul y x) = Ok z /\
    z * b <= a * c <= (z + 1) * b.
Proof.
  intros Ha Hb Hc Hac.
  assert (Ha53 : a < 2 ^ 53).
  { assert (a * 1 <= a * c) by (apply Z.mul_le_mono_nonneg_l; lia). lia. }
  assert (Hc53 : c < 2 ^ 53).
  { assert (1 * c <= a * c) by (apply Z.mul_le_mono_nonneg_r; lia). lia. }
  destruct (truediv_rounded a b) as (x & ms & es & Hx & Hnx & Hq); try lia.
  destruct Hq as (E & m1 & m2 & HE & Hm1 & F1 & Hm2 & Hcase).
  destruct (of_int_exact c) as (y & mh & eh & Hy & Hny & Heh & Hmh); try lia.
  exists x, y.
  assert (Hes : - E <= es <= 1 - E) by (destruct Hcase as [[_ ->]|(_ & _ & ->)]; lia).
  destruct (mul_normal y x mh eh ms es Hny Hnx) as (m2' & Hr); try lia.
  pose proof (mul_comm_normal x y ms es mh eh Hnx Hny) as Hcomm.
  destruct Hnx as (pms & _ & _ & Hmsb). destruct Hny as (pmh & _ & _ & Hmhb).
  unfold rounded_to in Hr. cbv zeta in Hr.
  set (mx := mh * ms) in *. set (n := Zdigits2 mx - 53) in *.
  set (m1' := mx / 2 ^ n) in *.
  destruct Hr as (Hm1' & Hm2' & _ & m & e & Hmul & Hmb & Hcase').
  set (U := 2 ^ E) in *. set (G := 2 ^ (- eh)) in *.
  assert (HU : 0 < U) by (apply Z.pow_pos_nonneg; lia).
  assert (HG : 0 < G) by (apply Z.pow_pos_nonneg; lia).
  pose proof (quotient_unit_large a b c U m1 Ha (proj1 Hb) Hc Hac HU Hm1
                (proj1 F1)) as HU4.
  assert (HE1 : 1 <= E).
  { destruct (Z.eq_dec E 0) as [E0|E0]; [|lia].
    unfold U in HU4. rewrite E0 in HU4. change (2 ^ 0) with 1 in HU4.
    assert (0 < b * c) by (apply Z.mul_pos_pos; lia). lia. }
  assert (Hmx : 2 ^ 52 <= mx).
  { assert (2 ^ 52 * 1 <= mh * ms) by (apply Z.mul_le_mono_nonneg; lia).
    unfold mx. lia. }
  assert (Hn : 0 <= n) by (pose proof (digits_at_least_53 mx Hmx); unfold n; lia).
  assert (HP : 0 < 2 ^ n) by (apply Z.pow_pos_nonneg; lia).
  assert (Hcut : m1' * 2 ^ n <= mx < (m1' + 1) * 2 ^ n).
  { pose proof (Z.div_mod mx (2 ^ n) ltac:(lia)) as Hdm.
    pose proof (Z.mod_pos_bound mx (2 ^ n) HP) as Hmb'. fold m1' in Hdm.
    lia. }
  set (J := - (eh + es)).
  assert (HJ : 0 <= J) by (unfold J; lia).
  assert (Hkey : mx * U = c * m2 * 2 ^ J).
  { unfold mx. rewrite Hmh. fold G.
    destruct Hcase as [[-> Ees]|(-> & -> & Ees)].
    - replace J with (- eh + E) by (unfold J; lia).
      rewrite Z.pow_add_r by lia. fold G. fold U. ring.
    - replace J with (- eh + (E - 1)) by (unfold J; lia).
      rewrite Z.pow_add_r by lia. fold G.
      assert (EU : U = 2 * 2 ^ (E - 1)).
      { unfold U. rewrite <- Z.pow_succ_r by lia. f_equal. lia. }
      rewrite EU. change (2 ^ 53) with (2 * 2 ^ 52). ring. }
  destruct (product_cut a b c U m1 m2 m1' mx n J) as [HnJ F2]; try assumption;
    try lia.
  set (K := J - n) in *. set (V := 2 ^ K) in *.
  assert (HV : 0 < V) by (apply Z.pow_pos_nonneg; lia).
  exists (m2' / V).
  split; [exact Hx|]. split; [exact Hy|]. split; [exact Hcomm|]. split.
  - rewrite Hmul. apply to_int_rounded; [lia|].
    destruct Hcase' as [[Hm He]|(Hm253 & Hm & He)]; [left|right];
      repeat split; try assumption; unfold K, J; lia.
  - pose proof (Z.div_mod m2' V ltac:(lia)) as Hdm.
    pose proof (Z.mod_pos_bound m2' V HV) as Hmb'.
    apply (within_one_pixel a b c U V m1 m2 m1' m2'); try assumption; try lia.
Qed.

End Binary64Scale.

(** The same with [a] or [c] zero: the result is then 0. *)
Lemma int_of_scaled_any a b c :
  0 <= a < 2 ^ 53 -> 0 < b < 2 ^ 53 -> 0 <= c < 2 ^ 53 -> a * c < 2 ^ 50 ->
  exists x y z,
    PyFloat.truediv a b = Ok x /\ PyFloat.of_int c = Ok y /\
    PyFloat.to_int (PyFloat.mul x y) = Ok z /\
    PyFloat.to_int (PyFloat.mul y x) = Ok z /\
    z * b <= a * c <= (z + 1) * b.
Proof.
  intros Ha Hb Hc Hac.
  destruct (Z.eq_dec a 0) as [->|Ha0].
  - assert (Hy : exists y, PyFloat.of_int c = Ok y /\
                   PyFloat.mul (S754_zero false) y = S754_zero false /\
                   PyFloat.mul y (S754_zero false) = S754_zero false).
    { destruct (Z.eq_dec c 0) as [->|Hc0].
      - exists (S754_zero false). repeat split.
      - destruct (of_int_exact c) as (y & mh & eh & Hy & (p & -> & _) & _);
          [lia|].
        exists (S754_finite false p eh). repeat split. exact Hy. }
    destruct Hy as (y & Hy & E1 & E2).
    exists (S754_zero false), y, 0.
    split.
    { unfold PyFloat.truediv.
      replace (b =? 0) with false by (symmetry; apply Z.eqb_neq; lia).
      replace (b <? 0) with false by (symmetry; apply Z.ltb_ge; lia).
      reflexivity. }
    split; [exact Hy|]. rewrite E1, E2.
    split; [reflexivity|]. split; [reflexivity|]. lia.
  - destruct (Z.eq_dec c 0) as [->|Hc0].
    + destruct (truediv_rounded a b) as (x & ms & es & Hx & (p & -> & _) & _);
        try lia.
      exists (S754_finite false p es), (S754_zero false), 0.
      split; [exact Hx|]. split; [reflexivity|].
      split; [reflexivity|]. split; [reflexivity|]. lia.
    + destruct (int_of_scaled a b c) as (x & y & z & Hx & Hy & Hc' & Hz & Hb');
        try lia.
      exists x, y, z. rewrite Hc'. auto.
Qed.

(** *** The scaled height is within one pixel of the exact one *)

(** X13.  For a column width and an image whose sides are below [2 ^ 53]
    and with [height * col_width_px < 2 ^ 50], the scaling step
    [int(img.height * (col_width_px / img.width))] raises nothing and
    returns a height [scaled_h] with
    [scaled_h <= height * col_width_px / width <= scaled_h + 1] in exact
    arithmetic: the two roundings of the doubles cost at most one pixel. *)
Theorem scaled_height_within_one_pixel col_width_px img :
  0 <= col_width_px < 2 ^ 53 ->
  0 < PIL.width img < 2 ^ 53 ->
  0 <= PIL.height img < 2 ^ 53 ->
  PIL.height img * col_width_px < 2 ^ 50 ->
  exists scaled_h,
    scaled_height col_width_px img = Ok scaled_h /\
    scaled_h * PIL.width img <= PIL.height img * col_width_px
      <= (scaled_h + 1) * PIL.width img.
Proof.
  intros Hc Hw Hh Hp.
  destruct (int_of_scaled_any col_width_px (PIL.width img) (PIL.height img))
    as (x & y & z & Hx & Hy & _ & Hz & Hb); try lia.
  exists z. split; [|lia].
  unfold scaled_height, PyFloat.int_mul. rewrite Hx. cbn [bind].
  rewrite Hy. cbn [bind]. exact Hz.
Qed.

Lemma scaled_height_within_one_pixel_witness :
  exists scaled_h,
    scaled_height 265 (Sample.rgb 400 200 0) = Ok scaled_h /\
    scaled_h * 400 <= 200 * 265 <= (scaled_h + 1) * 400.
Proof.
  apply (scaled_height_within_one_pixel 265
           (Sample.rgb 400 200 0));
    unfold Sample.rgb; cbn [PIL.width PIL.height]; lia.
Defined.

(** X14.  [int((points / 72) * dpi)], the conversion of points to pixels
    used for the padding, the margin and the font size: for
    [0 <= points], [0 < dpi] and [points * dpi < 2 ^ 50] it raises nothing
    and returns [px] with [px <= points * dpi / 72 <= px + 1] in exact
    arithmetic. *)
Theorem points_to_px_within_one_pixel points dpi :
  0 <= points < 2 ^ 53 -> 0 < dpi < 2 ^ 53 -> points * dpi < 2 ^ 50 ->
  exists px,
    points_to_px points dpi = Ok px /\
    px * 72 <= points * dpi <= (px + 1) * 72.
Proof.
  intros Hp Hd Hpd.
  destruct (int_of_scaled_any points 72 dpi)
    as (x & y & z & Hx & Hy & Hz & _ & Hb); try lia.
  exists z. split; [|lia].
  unfold points_to_px, PyFloat.mul_int. rewrite Hx. cbn [bind].
  rewrite Hy. cbn [bind]. exact Hz.
Qed.

Lemma points_to_px_within_one_pixel_witness :
  exists px,
    points_to_px 8 300 = Ok px /\ px * 72 <= 8 * 300 <= (px + 1) * 72.
Proof.
  apply (points_to_px_within_one_pixel 8 300); lia.
Defined.

(** A box keeps the aspect ratio of its panel to within one pixel of
    height: [bh / bw] against [h / w], cross-multiplied. *)
Definition keeps_aspect (p : panel) (b : box) : Prop :=
  bh b * PIL.width (pil_image p) <= PIL.height (pil_image p) * bw b
    <= (bh b + 1) * PIL.width (pil_image p).

(** Panels whose sizes are in the range where the two roundings of the
    scaled height stay below one pixel. *)
Definition scalable (cw : Z) (p : panel) : Prop :=
  0 < PIL.width (pil_image p) < 2 ^ 53 /\
  0 <= PIL.height (pil_image p) < 2 ^ 53 /\
  PIL.height (pil_image p) * cw < 2 ^ 50.

Lemma Forall2_under_Forall {A B : Type} (P : A -> Prop) (Q : A -> B -> Prop) :
  forall xs bs,
    Forall P xs -> Forall2 (fun a b => P a -> Q a b) xs bs -> Forall2 Q xs bs.
Proof.
  intros xs bs HP HF. induction HF as [|a b xs bs Hab HF IH].
  - constructor.
  - inversion HP as [|? ? Ha Hxs]; subst. constructor; auto.
Qed.

(** X15.  In every assembly that returns a canvas, the box pasted for each
    panel keeps the panel's aspect ratio to within one pixel of height, as
    long as the panel's sides are below [2 ^ 53] and its height times the
    column width is below [2 ^ 50]. *)
Theorem assemble_figure_keeps_aspect :
  forall panels tw dpi cols padpt marpt bg sty fam fs canvas total pad mar cw,
    assemble_figure panels tw dpi cols padpt marpt bg sty fam fs = Ok canvas ->
    pixel_geometry tw dpi cols padpt marpt = Ok (total, pad, mar, cw) ->
    0 <= cw < 2 ^ 53 ->
    Forall (scalable cw) panels ->
    Forall2 keeps_aspect panels (placed (PIL.raster canvas)).
Proof.
  intros panels tw dpi cols padpt marpt bg sty fam fs canvas total pad mar cw
    H Hg Hcw Hps.
  apply assemble_figure_Ok in H.
  destruct H as (total' & pad' & mar' & cw' & ls & rhs & blank
                 & Hne & Hg' & Hscale & Hnew & Hplace).
  rewrite Hg in Hg'. injection Hg' as <- <- <- <-.
  apply scale_panels_layouts in Hscale. destruct Hscale as (Ls & -> & HF).
  simpl in Hplace. apply place_panels_sizes in Hplace.
  apply new_Ok in Hnew. subst blank. simpl in Hplace.
  apply (Forall2_under_Forall (scalable cw)); [exact Hps|].
  eapply Forall2_through_sizes; [|exact HF|exact Hplace].
  intros p l b (Hw & _ & Hs) Hb (Hpw & Hph & Hpc).
  unfold size_of, layout_size in Hb. injection Hb as Hbw Hbh.
  destruct (int_of_scaled_any cw (PIL.width (pil_image p))
              (PIL.height (pil_image p)))
    as (x & y & z & Hx & Hy & _ & Hz & Hzb); try assumption.
  { lia. }
  unfold scaled_height, PyFloat.int_mul in Hs.
  rewrite Hx in Hs. cbn [bind] in Hs. rewrite Hy in Hs. cbn [bind] in Hs.
  rewrite Hz in Hs. injection Hs as Hs.
  unfold keeps_aspect. rewrite Hbw, Hbh, Hw, <- Hs. lia.
Qed.

Lemma assemble_figure_keeps_aspect_witness :
  exists canvas,
    assemble_figure Sample.two_panels Sample.f4_0 150 2 10 12
      "white" "A, B, C..." "Arial" 14 = Ok canvas /\
    Forall2 keeps_aspect Sample.two_panels (placed (PIL.raster canvas)).
Proof.
  eexists. split; [vm_compute; reflexivity|].
  apply (assemble_figure_keeps_aspect Sample.two_panels Sample.f4_0 150 2
           10 12 "white" "A, B, C..." "Arial" 14 _ 600 20 25 265).
  - vm_compute; reflexivity.
  - vm_compute; reflexivity.
  - lia.
  - unfold Sample.two_panels, Sample.panel_of, Sample.rgb.
    repeat constructor; cbn [pil_image PIL.width PIL.height]; lia.
Defined.

(** ** figmaker/layout.py: [AutoLayout]

    [np.sqrt] is the correctly rounded square root of binary64; [np.ceil]
    returns a double. *)

Module AutoLayout.

(** [np.ceil(x)] on a double: the least integer not below [x], again a
    double; it keeps the sign of [x] on a zero result. *)
Definition ceil (x : PyFloat.float) : PyFloat.float :=
  match x with
  | S754_finite s m (Zneg p) =>
      let a := if s then - Z.pos m else Z.pos m in
      binary_normalize PyFloat.prec PyFloat.emax
        (- ((- a) / 2 ^ Z.pos p)) 0 s
  | _ => x
  end.

(** The literal [1.0]. *)
Definition lit_1_0 : PyFloat.float := S754_finite false 4503599627370496 (-52).

(** [AutoLayout.calculate_optimal_grid]: returns [(rows, cols)]. *)
Definition calculate_optimal_grid (n_panels : Z) (aspect_ratio : PyFloat.float)
  : result (Z * Z) :=
  if n_panels =? 1 then Ok (1, 1)
  else if n_panels =? 2 then
    Ok (if SFltb lit_1_0 aspect_ratio then (1, 2) else (2, 1))
  else if n_panels <=? 4 then Ok (2, 2)
  else if n_panels <=? 6 then
    Ok (if SFltb lit_1_0 aspect_ratio then (2, 3) else (3, 2))
  else if n_panels <=? 9 then Ok (3, 3)
  else
    p <- PyFloat.int_mul n_panels aspect_ratio ;;
    cols <- PyFloat.to_int (ceil (SFsqrt PyFloat.prec PyFloat.emax p)) ;;
    q <- PyFloat.truediv n_panels cols ;;
    rows <- PyFloat.to_int (ceil q) ;;
    Ok (rows, cols).

End AutoLayout.

(** A square root and a ceiling of a non-negative double are not
    negative. *)
Lemma sqrt_not_negative x :
  not_negative (SFsqrt PyFloat.prec PyFloat.emax x).
Proof.
  destruct x as [s|[|]| |[|] m e]; try exact I; try reflexivity.
  unfold SFsqrt.
  destruct (SFsqrt_core_binary PyFloat.prec PyFloat.emax (Z.pos m) e)
    as [[mz ez] lz].
  apply binary_round_aux_not_negative.
Qed.

Lemma ceil_not_negative x : not_negative x -> not_negative (AutoLayout.ceil x).
Proof.
  destruct x as [s|s| |s m [|p|p]]; try (intros H; exact H).
  intros H. unfold not_negative in H. subst s. unfold AutoLayout.ceil.
  cbv zeta. unfold binary_normalize.
  destruct (- (- Z.pos m / 2 ^ Z.pos p)) as [|v|v] eqn:Ev; try exact I.
  - unfold binary_round.
    destruct (shl_align v 0 _) as [mz ez].
    apply binary_round_aux_not_negative.
  - exfalso.
    assert (Hd : 0 < 2 ^ Z.pos p) by (apply Z.pow_pos_nonneg; lia).
    assert (- Z.pos m / 2 ^ Z.pos p <= 0).
    { apply Z.div_le_upper_bound; lia. }
    lia.
Qed.

(** [int(float(c))] is [c] below [2 ^ 53]. *)
Lemma of_int_to_int c :
  0 < c < 2 ^ 53 ->
  PyFloat.to_int (binary_normalize PyFloat.prec PyFloat.emax c 0 false) = Ok c.
Proof.
  intros Hc.
  destruct (of_int_exact c Hc) as (y & m & e & Hy & (p & -> & Hp & Hm) & He & Em).
  unfold PyFloat.of_int in Hy.
  destruct (binary_normalize PyFloat.prec PyFloat.emax c 0 false)
    as [s|s| |s m' e']; try discriminate Hy.
  injection Hy as -> -> ->.
  rewrite (to_int_rounded p e m (- e)); [|lia|left; split; [exact Hp|lia]].
  f_equal. rewrite Em. apply Z.div_mul. apply Z.pow_nonzero; lia.
Qed.

(** [int(np.ceil(x))] of a positive double with a full mantissa [ms] at
    exponent [es]: an integer [r] with [ms * 2 ^ es <= r]. *)
Lemma to_int_ceil_normal x ms es :
  normal x ms es ->
  exists r, PyFloat.to_int (AutoLayout.ceil x) = Ok r /\
    ((0 <= es /\ r = ms * 2 ^ es) \/
     (es < 0 /\ (r - 1) * 2 ^ (- es) < ms <= r * 2 ^ (- es))).
Proof.
  intros (p & -> & Hp & Hm).
  destruct es as [|k|k].
  - exists ms. split; [|left; split; [lia|rewrite Z.pow_0_r; lia]].
    unfold AutoLayout.ceil, PyFloat.to_int. rewrite Hp. reflexivity.
  - exists (ms * 2 ^ Z.pos k). split; [|left; split; [lia|reflexivity]].
    unfold AutoLayout.ceil, PyFloat.to_int. rewrite Hp. reflexivity.
  - unfold AutoLayout.ceil. cbv zeta. rewrite Hp.
    change (- Z.neg k) with (Z.pos k).
    set (d := 2 ^ Z.pos k).
    assert (Hd : 0 < d) by (apply Z.pow_pos_nonneg; lia).
    set (v := - (- ms / d)).
    pose proof (Z.div_mod (- ms) d ltac:(lia)) as Hdm.
    pose proof (Z.mod_pos_bound (- ms) d Hd) as Hmb.
    assert (Hvd : ms <= v * d).
    { unfold v. rewrite Z.mul_opp_l, (Z.mul_comm _ d). lia. }
    assert (Hv1 : 1 <= v).
    { destruct (Z.le_gt_cases 1 v) as [H|H]; [exact H|exfalso].
      assert (v * d <= 0 * d) by (apply Z.mul_le_mono_nonneg_r; lia). lia. }
    assert (Hvm : v <= ms).
    { unfold v.
      assert (- ms <= (- ms / d)).
      { apply Z.div_le_lower_bound; [exact Hd|].
        assert (d * - ms <= 1 * - ms)
          by (apply Z.mul_le_mono_nonpos_r; lia). lia. }
      lia. }
    assert (Hvl : (v - 1) * d < ms).
    { unfold v. rewrite Z.mul_sub_distr_r, Z.mul_opp_l, (Z.mul_comm _ d). lia. }
    exists v. split; [|right; split; [lia|split; [exact Hvl|exact Hvd]]].
    apply of_int_to_int. lia.
Qed.

(** [r = int(np.ceil(a / b))] is the ceiling of the exact quotient, or one
    more when the quotient is an integer: [(r - 1) * b <= a <= r * b]. *)
Lemma ceil_quotient_covers a b x ms es r :
  0 < a < 2 ^ 52 -> 0 < b ->
  quotient_of a b x ms es ->
  (0 <= es /\ r = ms * 2 ^ es) \/
  (es < 0 /\ (r - 1) * 2 ^ (- es) < ms <= r * 2 ^ (- es)) ->
  (r - 1) * b <= a <= r * b.
Proof.
  intros Ha Hb (_ & E & m1 & m2 & HE & Hm1 & F1 & Hm2 & Hcase) Hr.
  set (U := 2 ^ E) in *.
  assert (HU : 0 < U) by (apply Z.pow_pos_nonneg; lia).
  assert (HrU : (r - 1) * U < m2 <= r * U).
  { destruct Hcase as [[-> ->]|(-> & -> & ->)].
    - destruct Hr as [[He ->]|[He Hr]].
      + assert (E = 0) by lia. subst E. unfold U.
        rewrite Z.pow_0_r. change (- 0) with 0. rewrite Z.pow_0_r. lia.
      + rewrite Z.opp_involutive in Hr. exact Hr.
    - destruct Hr as [[He ->]|[He Hr]].
      + assert (EU : 2 ^ 52 * 2 ^ (1 - E) * U = 2 ^ 53).
        { unfold U. rewrite <- Z.mul_assoc, <- Z.pow_add_r by lia.
          replace (1 - E + E) with 1 by lia. reflexivity. }
        rewrite Z.mul_sub_distr_r, EU. lia.
      + replace (- (1 - E)) with (E - 1) in Hr by lia.
        assert (EU : U = 2 * 2 ^ (E - 1)).
        { unfold U. rewrite <- Z.pow_succ_r by lia. f_equal. lia. }
        rewrite EU. change (2 ^ 53) with (2 * 2 ^ 52).
        rewrite !Z.mul_assoc, !(Z.mul_comm _ 2), <- !Z.mul_assoc. lia. }
  assert (Hm1r : (r - 1) * U <= m1 <= r * U) by lia.
  split.
  { apply (Z.mul_le_mono_pos_r _ _ U HU).
    assert (H0 : (r - 1) * U * b <= m1 * b)
      by (apply Z.mul_le_mono_nonneg_r; lia).
    assert (E0 : (r - 1) * b * U = (r - 1) * U * b) by ring.
    lia. }
  destruct (Z.le_gt_cases a (r * b)) as [H|H]; [exact H|exfalso].
  assert (H1 : (m1 + 1) * b <= (r * U + 1) * b)
    by (apply Z.mul_le_mono_nonneg_r; lia).
  assert (H2 : r * b * U <= (a - 1) * U)
    by (apply Z.mul_le_mono_nonneg_r; lia).
  assert (E1 : (r * U + 1) * b = r * b * U + b) by ring.
  assert (E2 : (a - 1) * U = a * U - U) by ring.
  assert (HUb : U < b) by lia.
  assert (H3 : 2 ^ 52 * b <= m1 * b) by (apply Z.mul_le_mono_nonneg_r; lia).
  assert (H4 : a * U <= (2 ^ 52 - 1) * U)
    by (apply Z.mul_le_mono_nonneg_r; lia).
  assert (H5 : (2 ^ 52 - 1) * U <= (2 ^ 52 - 1) * b)
    by (apply Z.mul_le_mono_nonneg_l; lia).
  lia.
Qed.

(** X16.  Whenever [calculate_optimal_grid] returns [(rows, cols)] for
    [1 <= n_panels < 2 ^ 52] (with [cols] below [2 ^ 53]), the grid has at
    least one row and one column, room for every panel, and at most one row
    to spare: [(rows - 1) * cols <= n_panels <= rows * cols].  This holds
    in the five fixed cases and in the computed one, whatever the aspect
    ratio. *)
Theorem calculate_optimal_grid_has_room n_panels aspect_ratio rows cols :
  1 <= n_panels < 2 ^ 52 ->
  AutoLayout.calculate_optimal_grid n_panels aspect_ratio = Ok (rows, cols) ->
  cols < 2 ^ 53 ->
  1 <= rows /\ 1 <= cols /\
  (rows - 1) * cols <= n_panels <= rows * cols.
Proof.
  intros Hn H Hc. unfold AutoLayout.calculate_optimal_grid in H.
  destruct (n_panels =? 1) eqn:E1.
  { apply Z.eqb_eq in E1. injection H as <- <-. lia. }
  destruct (n_panels =? 2) eqn:E2.
  { apply Z.eqb_eq in E2.
    destruct (SFltb AutoLayout.lit_1_0 aspect_ratio);
      injection H as <- <-; lia. }
  destruct (n_panels <=? 4) eqn:E4.
  { apply Z.leb_le in E4. injection H as <- <-. lia. }
  destruct (n_panels <=? 6) eqn:E6.
  { apply Z.leb_le in E6.
    destruct (SFltb AutoLayout.lit_1_0 aspect_ratio);
      injection H as <- <-; lia. }
  destruct (n_panels <=? 9) eqn:E9.
  { apply Z.leb_le in E9. injection H as <- <-. lia. }
  apply Z.leb_gt in E9.
  bind_as H p Ep. bind_as H c Ec. bind_as H q Eq. bind_as H r Er.
  injection H as <- <-.
  assert (Hc0 : 0 <= c).
  { apply to_int_not_negative in Ec; [exact Ec|].
    apply ceil_not_negative, sqrt_not_negative. }
  assert (Hc1 : 1 <= c).
  { destruct (Z.eq_dec c 0) as [->|]; [discriminate Eq|lia]. }
  destruct (truediv_rounded n_panels c) as (x & ms & es & Hx & Hq); try lia.
  rewrite Hx in Eq. injection Eq as <-.
  destruct (to_int_ceil_normal x ms es (proj1 Hq)) as (r' & Hr' & Hcase).
  rewrite Hr' in Er. injection Er as ->.
  assert (Hroom : (r - 1) * c <= n_panels <= r * c).
  { apply (ceil_quotient_covers n_panels c x ms es r); try assumption; lia. }
  split; [|split; [exact Hc1|exact Hroom]].
  destruct (Z.le_gt_cases 1 r) as [Hr1|Hr1]; [exact Hr1|exfalso].
  assert (r * c <= 0 * c) by (apply Z.mul_le_mono_nonneg_r; lia). lia.
Qed.

Lemma calculate_optimal_grid_has_room_witness :
  AutoLayout.calculate_optimal_grid 10 AutoLayout.lit_1_0 = Ok (3, 4) /\
  1 <= 3 /\ 1 <= 4 /\ (3 - 1) * 4 <= 10 <= 3 * 4.
Proof.
  assert (H : AutoLayout.calculate_optimal_grid 10 AutoLayout.lit_1_0
              = Ok (3, 4)) by (vm_compute; reflexivity).
  split; [exact H|].
  apply (calculate_optimal_grid_has_room 10 AutoLayout.lit_1_0 3 4);
    [lia | exact H | lia].
Defined.

(** *** Rows and gutters of the assembled grid *)

(** X17.  In an assembly with at least one column, the panel at flat index
    [i] is pasted at [margin_px + (i mod num_cols) * (col_width_px +
    padding_px)] across; panels of one row have the same top edge, the first
    row starting at the margin; a panel and its right-hand neighbour are
    exactly [padding_px] apart; and every panel of the next row starts at
    least [padding_px] below the bottom edge of every panel of the row. *)
Theorem assemble_figure_gutters :
  forall panels tw dpi cols padpt marpt bg sty fam fs canvas total pad mar cw,
    assemble_figure panels tw dpi cols padpt marpt bg sty fam fs = Ok canvas ->
    pixel_geometry tw dpi cols padpt marpt = Ok (total, pad, mar, cw) ->
    1 <= cols ->
    forall i j a b,
      nth_error (placed (PIL.raster canvas)) i = Some a ->
      nth_error (placed (PIL.raster canvas)) j = Some b ->
      bx a = mar + (Z.of_nat i mod cols) * (cw + pad) /\
      (Z.of_nat i / cols = 0 -> by_ a = mar) /\
      (Z.of_nat i / cols = Z.of_nat j / cols -> by_ a = by_ b) /\
      (Z.of_nat i / cols = Z.of_nat j / cols -> j = S i ->
         bx b = bx a + bw a + pad) /\
      (Z.of_nat j / cols = Z.of_nat i / cols + 1 ->
         by_ a + bh a + pad <= by_ b).
Proof.
  intros panels tw dpi cols padpt marpt bg sty fam fs canvas total pad mar cw
    H Hg Hcols.
  apply assemble_figure_Ok in H.
  destruct H as (total' & pad' & mar' & cw' & ls & rhs & blank
                 & Hne & Hg' & Hscale & Hnew & Hplace).
  rewrite Hg in Hg'. injection Hg' as <- <- <- <-.
  pose proof (scale_panels_covered cw cols (Z.of_nat (List.length panels))
                Hcols panels 0 [] [] 0 ls rhs
                Hne ltac:(lia) ltac:(lia) (loop_inv_start cw cols) Hscale)
    as [_ Hcov].
  apply (place_panels_placed dpi cols pad mar cw sty fam fs rhs Hcols) in Hplace;
    [|lia|].
  2:{ replace (Z.to_nat ((0 - 1) / cols)) with 0%nat; [reflexivity|].
      assert ((0 - 1) / cols < 0) by (apply Z.div_lt_upper_bound; lia). lia. }
  apply new_Ok in Hnew. subst blank.
  cbn [PIL.raster placed app] in Hplace. rewrite Hplace.
  intros i j a b Ha Hb.
  apply boxes_from_nth in Ha. destruct Ha as (l1 & Hl1 & ->).
  apply boxes_from_nth in Hb. destruct Hb as (l2 & Hl2 & ->).
  destruct (Hcov i l1 Hl1) as [Hw1 Hh1].
  unfold box_at. cbn [bx by_ bw bh].
  replace (0 + Z.of_nat i) with (Z.of_nat i) by lia.
  replace (0 + Z.of_nat j) with (Z.of_nat j) by lia.
  split; [reflexivity|]. split; [|split; [|split]].
  - intros ->. reflexivity.
  - intros ->. reflexivity.
  - intros Hrow ->. rewrite Hw1.
    assert (Hm : Z.of_nat (S i) mod cols = Z.of_nat i mod cols + 1).
    { pose proof (Z.div_mod (Z.of_nat (S i)) cols ltac:(lia)) as E1.
      pose proof (Z.div_mod (Z.of_nat i) cols ltac:(lia)) as E2.
      rewrite <- Hrow in E1. rewrite Nat2Z.inj_succ in *. lia. }
    rewrite Hm. ring.
  - intros Hrow. rewrite Hrow.
    assert (Hq : 0 <= Z.of_nat i / cols) by (apply Z.div_pos; lia).
    replace (Z.to_nat (Z.of_nat i / cols + 1))
      with (S (Z.to_nat (Z.of_nat i / cols))) by lia.
    cbn [row_top]. unfold row_of in Hh1. lia.
Qed.

Lemma assemble_figure_gutters_witness :
  exists canvas a b,
    assemble_figure Sample.two_panels Sample.f4_0 150 2 10 12
      "white" "A, B, C..." "Arial" 14 = Ok canvas /\
    nth_error (placed (PIL.raster canvas)) 0 = Some a /\
    nth_error (placed (PIL.raster canvas)) 1 = Some b /\
    bx a = 25 /\ by_ a = 25 /\ by_ a = by_ b /\ bx b = bx a + bw a + 20.
Proof.
  assert (Hc : exists canvas,
             assemble_figure Sample.two_panels Sample.f4_0 150 2 10 12
               "white" "A, B, C..." "Arial" 14 = Ok canvas)
    by (eexists; vm_compute; reflexivity).
  destruct Hc as [canvas Hc].
  assert (Ha : exists a, nth_error (placed (PIL.raster canvas)) 0 = Some a).
  { vm_compute in Hc. injection Hc as <-. eexists. vm_compute. reflexivity. }
  assert (Hb : exists b, nth_error (placed (PIL.raster canvas)) 1 = Some b).
  { vm_compute in Hc. injection Hc as <-. eexists. vm_compute. reflexivity. }
  destruct Ha as [a Ha]. destruct Hb as [b Hb].
  exists canvas, a, b.
  destruct (assemble_figure_gutters Sample.two_panels Sample.f4_0 150 2 10 12
              "white" "A, B, C..." "Arial" 14 canvas 600 20 25 265 Hc
              ltac:(vm_compute; reflexivity) ltac:(lia) 0%nat 1%nat a b Ha Hb)
    as (Hx & Hy0 & Hy & Hn & _).
  split; [exact Hc|]. split; [exact Ha|]. split; [exact Hb|].
  split; [exact Hx|]. split; [apply Hy0; reflexivity|].
  split; [apply Hy; reflexivity|]. apply Hn; reflexivity.
Defined.

(** *** The annotation list of the assembler *)

Module AssemblerState.

(** The two lists an [ImagePanelAssembler] object holds. *)
Record assembler : Type := mkAssembler {
  panels : list panel;
  annotations : list annotation
}.

(** [__init__]. *)
Definition init : assembler := mkAssembler [] [].

(** [add_annotation]: appended at the end of the list. *)
Definition add_annotation (self : assembler) (text : string) (x y : Z)
  : assembler :=
  mkAssembler (panels self) (annotations self ++ [mkAnnotation text x y]).

(** [clear_annotations]. *)
Definition clear_annotations (self : assembler) : assembler :=
  mkAssembler (panels self) [].

(** [apply_annotations] as a method: the list is the object's own. *)
Definition apply_annotations (self : assembler) (s : store) (image : ref)
    (font_family : string) (font_size_pt dpi : Z) : option (store * ref) :=
  ImagePanelAssembler.apply_annotations (annotations self) s image
    font_family font_size_pt dpi.

End AssemblerState.

(** X18.  Whatever annotations an assembler holds: once
    [clear_annotations] has run, [apply_annotations] hands back the very
    object it was given and leaves the store as it is; once
    [add_annotation] has run, it returns a new object whose texts are those
    of the canvas, then the annotations held before, then the new one at
    its coordinates, while the canvas object is unchanged. *)
Theorem annotations_lifecycle :
  forall (self : AssemblerState.assembler) text x y (s : store) (image : ref)
         canvas fam pt dpi,
    deref s image = Some canvas ->
    AssemblerState.apply_annotations (AssemblerState.clear_annotations self)
      s image fam pt dpi = Some (s, image) /\
    exists s' annotated result,
      AssemblerState.apply_annotations
        (AssemblerState.add_annotation self text x y) s image fam pt dpi
      = Some (s', annotated) /\
      annotated <> image /\
      deref s' image = Some canvas /\
      deref s' annotated = Some result /\
      drawn_texts (PIL.raster result)
      = drawn_texts (PIL.raster canvas)
        ++ map (fun a => mkText (a_x a) (a_y a) (a_text a))
             (AssemblerState.annotations self)
        ++ [mkText x y text].
Proof.
  intros self text x y s image canvas fam pt dpi Himg.
  split; [reflexivity|].
  unfold AssemblerState.apply_annotations, AssemblerState.add_annotation.
  cbn [AssemblerState.annotations].
  set (annos := AssemblerState.annotations self ++ [mkAnnotation text x y]).
  assert (Hne : annos <> []).
  { unfold annos. intros E. apply app_eq_nil in E. destruct E as [_ E].
    discriminate E. }
  destruct (apply_annotations_fresh annos s image canvas fam pt dpi Himg Hne)
    as (s' & annotated & Happ & _ & Hbase & Hfresh & _ & Hres).
  destruct (with_texts_frame (_get_annotation_font fam pt dpi) annos canvas)
    as (_ & _ & Ht).
  exists s', annotated, (with_texts (_get_annotation_font fam pt dpi) annos canvas).
  split; [exact Happ|]. split; [exact Hfresh|]. split; [exact Hbase|].
  split; [exact Hres|]. rewrite Ht. unfold annos. rewrite map_app. reflexivity.
Qed.

Lemma annotations_lifecycle_witness :
  exists s' annotated result,
    AssemblerState.apply_annotations
      (AssemblerState.add_annotation AssemblerState.init "scale bar" 40 50)
      [Sample.rgb 600 845 0] 0%nat "Arial" 12 300 = Some (s', annotated) /\
    annotated <> 0%nat /\
    deref s' annotated = Some result /\
    drawn_texts (PIL.raster result) = [mkText 40 50 "scale bar"].
Proof.
  destruct (annotations_lifecycle AssemblerState.init "scale bar" 40 50
              [Sample.rgb 600 845 0] 0%nat (Sample.rgb 600 845 0)
              "Arial" 12 300 eq_refl)
    as (_ & s' & annotated & result & H & Hf & _ & Hr & Ht).
  exists s', annotated, result. repeat split; assumption.
Defined.
